(** * Kyz7/cms: field validation, field-level permissions and the editorial
    workflow, embedded from the Go sources

    The development follows the packages of the repository:
    - [models]      the GORM structs ([internal/models], workflow models);
    - [workflow]    [ChangeWorkflowStatus] and [isValidTransition];
    - [middleware]  [IsFullAccessRole], [FilterFieldsByPermission],
                    [CanAccessField];
    - [content]     the validators, [ValidateContentEntryEnhanced],
                    [ValidatePartialUpdate], [CreateContentEntry],
                    [UpdateEntry] and the entry handlers.

    Conventions.  Go [uint] identifiers are [N]; Go [int] lengths are [Z];
    a Go [string] is a byte sequence, here [string] (a list of 8-bit
    characters), so [String.length] is Go's [len].  A finite [float64]
    denotes a rational and is kept as that rational ([Q]); only
    comparisons are performed on it.  A Go [map[string]interface{}] is a
    [gmap string Value].  The relational store behind [database.DB] is the
    record [DB], threaded explicitly through every operation; queries are
    assumed to reach the store (no connection failures), and the one
    query whose condition the code assembles as text, the uniqueness
    check, may be rejected by it. *)

From Stdlib Require Import ZArith QArith String Ascii List Bool Lia.
From stdpp Require Import base option list gmap strings fin_maps sorting.

Local Open Scope string_scope.
Local Open Scope Z_scope.

(** ** Results of fallible Go functions *)

(** The [error] values built with [fmt.Errorf] / [fiber.NewError], one
    constructor per message template, and the HTTP error responses of the
    handlers. *)
Inductive error : Type :=
  | ErrEntryNotFound                              (* "entry not found" / 404 Entry *)
  | ErrUserNotFound                               (* "user not found" *)
  | ErrUnauthorized                               (* 401 "Unauthorized" *)
  | ErrNoPermission                               (* 403 "No permission for this action" *)
  | ErrNoPermittedFields                          (* 403 "No permission to ... provided fields" *)
  | ErrNoData                                     (* 400 "No data provided for update" *)
  | ErrContentTypeNotFound                        (* record not found on the content type *)
  | ErrInvalidTransition (from to role : string)  (* "invalid status transition from %s to %s for role %s" *)
  | ErrOnlyFromDraft (current : string)           (* "can only request review from draft status, ..." *)
  | ErrPublishedEdit                              (* "cannot edit published content ..." / 409 *)
  | ErrPublishedDelete                            (* 409 "Cannot delete published content ..." *)
  | ErrRequired (field : string)                  (* "field '%s' is required" *)
  | ErrRequiredEmpty (field : string)             (* "field '%s' is required and cannot be empty" *)
  | ErrUnknownField (field : string)              (* "field '%s' does not exist in content type" *)
  | ErrMustBeString (field : string)
  | ErrMinLength (field : string) (n : Z)         (* "must be at least %d characters" *)
  | ErrMaxLength (field : string) (n : Z)         (* "must not exceed %d characters" *)
  | ErrInvalidPattern (field : string)
  | ErrPatternMismatch (field : string)
  | ErrInvalidSlug (field : string)
  | ErrInvalidEmail (field : string)
  | ErrInvalidURL (field : string)
  | ErrMustBeNumber (field : string)
  | ErrMinValue (field : string) (q : Q)
  | ErrMaxValue (field : string) (q : Q)
  | ErrMustBeBoolean (field : string)
  | ErrMustBeDateString (field : string)
  | ErrDateFormat (field : string)
  | ErrMustBeMediaURL (field : string)
  | ErrDuplicate (field : string)                 (* "field '%s' must be unique, value '%v' already exists" *)
  | ErrUniquenessCheck (field : string).          (* "failed to check uniqueness for field '%s'" *)

(** [Ok] and [Err] are the two shapes of a [(T, error)] return; [Panic] is
    a run-time panic (nil pointer dereference). *)
Inductive result (A : Type) : Type :=
  | Ok (a : A)
  | Err (e : error)
  | Panic.
Arguments Ok {A} a.
Arguments Err {A} e.
Arguments Panic {A}.

Definition is_ok {A} (r : result A) : bool :=
  match r with Ok _ => true | _ => false end.

(** ** package models *)
Module models.

(** [type WorkflowStatus string] with its six constants. *)
Definition WorkflowStatus : Type := string.
Definition StatusDraft : WorkflowStatus := "draft".
Definition StatusInReview : WorkflowStatus := "in_review".
Definition StatusReadyForApproval : WorkflowStatus := "ready_for_approval".
Definition StatusApproved : WorkflowStatus := "approved".
Definition StatusPublished : WorkflowStatus := "published".
Definition StatusRejected : WorkflowStatus := "rejected".

(** The dynamic values an [interface{}] of an entry payload holds: what
    [encoding/json] decodes ([nil], [string], [bool], [float64], and
    arrays/objects, kept as their JSON text), the form strings, the
    [uint] media identifiers the handlers add, and the three further
    numeric types [validateNumber] accepts from a direct caller of the
    service ([float32], [int], [int64]).  A value of any other dynamic
    type takes the default branch of every type switch, as a [uint]
    does. *)
Inductive Value : Type :=
  | VNil
  | VString (s : string)
  | VBool (b : bool)
  | VFloat64 (q : Q)
  | VFloat32 (q : Q)
  | VInt (z : Z)
  | VInt64 (z : Z)
  | VUint (n : N)
  | VComposite (json : string).

#[global] Instance Value_eq_dec : EqDecision Value.
Proof. unfold EqDecision, Decision. repeat decide equality. Defined.

Record ContentField : Type := {
  Name : string;
  Type_ : string;
  Required : bool;
  IsSEO : bool;
  Unique : bool;
  MaxLength : option Z;
  MinLength : option Z;
  Pattern : string;
  MinValue : option Q;
  MaxValue : option Q;
  DefaultValue : string
}.

(** A content type with its two associations. *)
Record ContentType : Type := {
  CtID : N;
  Fields : list ContentField;
  SEOFields : list ContentField
}.

(** [Data] is the decoded JSON object of the [datatypes.JSON] column;
    [PublishedAt] and [DeletedAt] are nullable timestamps. *)
Record ContentEntry : Type := {
  ID : N;
  ContentTypeID : N;
  Data : gmap string Value;
  Status : WorkflowStatus;
  CreatedBy : N;
  UpdatedBy : N;
  PublishedAt : option N;
  DeletedAt : option N
}.

(** The JSON columns [AllowedFields], [DeniedFields], [ContentTypeIDs]
    are kept decoded; a NULL column is the empty list (the code only
    tests [len(..) > 0] after decoding). *)
Record Permission : Type := {
  Module_ : string;
  Action : string;
  FieldScope : string;
  AllowedFields : list string;
  DeniedFields : list string;
  ContentTypeIDs : list N
}.

Record Role : Type := {
  RoleName : string;
  Permissions : list Permission
}.

(** [Role] is the preloaded [*Role]: [None] is the nil pointer. *)
Record User : Type := {
  UserID : N;
  Role_ : option Role
}.

Record WorkflowHistory : Type := {
  EntryID : N;
  FromStatus : WorkflowStatus;
  ToStatus : WorkflowStatus;
  ChangedBy : N;
  Comment : string
}.

End models.
Import models.

(** ** package database: the store *)

Record DB : Type := {
  users : gmap N User;
  contentTypes : gmap N ContentType;
  entries : gmap N ContentEntry;
  history : list WorkflowHistory;
  entrySeq : N
}.

(** [DB.First(&entry, id)]: soft-deleted rows are invisible. *)
Definition first_entry (db : DB) (id : N) : option ContentEntry :=
  match entries db !! id with
  | Some e => match DeletedAt e with None => Some e | Some _ => None end
  | None => None
  end.

(** [DB.Preload("Role.Permissions").First(&user, id)]. *)
Definition first_user (db : DB) (id : N) : option User := users db !! id.

(** What [Preload("Fields").Preload("SEOFields")] puts into a content
    type.  Both associations are declared with the same foreign key
    ([foreignKey:ContentTypeID]) and are preloaded without a condition,
    so each of the two lists receives every field row of the content
    type, regular and SEO alike.  The store keeps the field rows of a
    content type in the two lists of its record: [Fields], then
    [SEOFields]. *)
Definition preload_fields (ct : ContentType) : ContentType :=
  let rows := (Fields ct ++ SEOFields ct)%list in
  {| CtID := CtID ct; Fields := rows; SEOFields := rows |}.

(** [DB.Preload("Fields").Preload("SEOFields").First(&ct, id)]. *)
Definition first_content_type (db : DB) (id : N) : option ContentType :=
  preload_fields <$> contentTypes db !! id.

(** [DB.Save(&entry)]: write every column of the row with that key. *)
Definition save_entry (db : DB) (e : ContentEntry) : DB :=
  {| users := users db; contentTypes := contentTypes db;
     entries := <[ID e := e]> (entries db);
     history := history db; entrySeq := entrySeq db |}.

(** [DB.Create(&history)]: append one audit row. *)
Definition create_history (db : DB) (h : WorkflowHistory) : DB :=
  {| users := users db; contentTypes := contentTypes db;
     entries := entries db;
     history := (history db ++ [h])%list; entrySeq := entrySeq db |}.

(** [DB.Create(&entry)]: the sequence assigns the next identifier. *)
Definition create_entry (db : DB) (e : ContentEntry) : DB * ContentEntry :=
  let id := (entrySeq db + 1)%N in
  let e' := {| ID := id; ContentTypeID := ContentTypeID e; Data := Data e;
               Status := Status e; CreatedBy := CreatedBy e;
               UpdatedBy := UpdatedBy e; PublishedAt := PublishedAt e;
               DeletedAt := DeletedAt e |} in
  ({| users := users db; contentTypes := contentTypes db;
      entries := <[id := e']> (entries db);
      history := history db; entrySeq := id |}, e').

(** [DB.Delete(&entry)] on a model with a [gorm.DeletedAt] column: the row
    stays, its [DeletedAt] is stamped. *)
Definition delete_entry (db : DB) (now : N) (e : ContentEntry) : DB :=
  {| users := users db; contentTypes := contentTypes db;
     entries := <[ID e := {| ID := ID e; ContentTypeID := ContentTypeID e;
                            Data := Data e; Status := Status e;
                            CreatedBy := CreatedBy e; UpdatedBy := UpdatedBy e;
                            PublishedAt := PublishedAt e;
                            DeletedAt := Some now |}]> (entries db);
     history := history db; entrySeq := entrySeq db |}.

(** ** package workflow *)
Module workflow.

(** The map literal of [isValidTransition]. *)
Definition transitions : gmap string (gmap string (list string)) :=
  <[StatusDraft := <[StatusInReview := ["editor"; "admin"]]> ∅]>
  (<[StatusInReview :=
       <[StatusReadyForApproval := ["editor"; "admin"]]>
       (<[StatusRejected := ["editor"; "admin"]]>
       (<[StatusDraft := ["editor"; "admin"]]> ∅))]>
  (<[StatusReadyForApproval :=
       <[StatusApproved := ["manager"; "admin"]]>
       (<[StatusRejected := ["manager"; "admin"]]> ∅)]>
  (<[StatusApproved := <[StatusPublished := ["manager"; "admin"]]> ∅]>
  (<[StatusRejected := <[StatusDraft := ["editor"; "admin"]]> ∅]> ∅)))).

(** [transitions[fromStatus][toStatus]]: indexing a missing (nil) inner
    map reports [exists = false]. *)
Definition isValidTransition (fromStatus toStatus : WorkflowStatus)
    (userRole : string) : bool :=
  match transitions !! fromStatus ≫= (λ inner, inner !! toStatus) with
  | None => false
  | Some allowedRoles => existsb (λ role, String.eqb role userRole) allowedRoles
  end.

Definition ChangeWorkflowStatus (db : DB) (now : N) (entryID userID : N)
    (toStatus comment : string) : DB * result ContentEntry :=
  match first_entry db entryID with
  | None => (db, Err ErrEntryNotFound)
  | Some entry =>
    match first_user db userID with
    | None => (db, Err ErrUserNotFound)
    | Some user =>
      match Role_ user with
      | None => (db, Panic)
      | Some role =>
        let targetStatus : WorkflowStatus := toStatus in
        if negb (isValidTransition (Status entry) targetStatus (RoleName role))
        then (db, Err (ErrInvalidTransition (Status entry) targetStatus (RoleName role)))
        else
          let fromStatus := Status entry in
          let entry' :=
            {| ID := ID entry; ContentTypeID := ContentTypeID entry;
               Data := Data entry; Status := targetStatus;
               CreatedBy := CreatedBy entry; UpdatedBy := UpdatedBy entry;
               PublishedAt := if String.eqb targetStatus StatusPublished
                              then Some now else PublishedAt entry;
               DeletedAt := DeletedAt entry |} in
          let db1 := save_entry db entry' in
          let h := {| EntryID := entryID; FromStatus := fromStatus;
                      ToStatus := targetStatus; ChangedBy := userID;
                      Comment := comment |} in
          (create_history db1 h, Ok entry')
      end
    end
  end.

Definition RequestReview (db : DB) (now : N) (entryID userID : N)
    (comment : string) : DB * result ContentEntry :=
  match first_entry db entryID with
  | None => (db, Err ErrEntryNotFound)
  | Some entry =>
    if negb (String.eqb (Status entry) StatusDraft)
    then (db, Err (ErrOnlyFromDraft (Status entry)))
    else ChangeWorkflowStatus db now entryID userID StatusInReview comment
  end.

Definition ApproveEntry (db : DB) (now : N) (entryID userID : N) (comment : string) :=
  ChangeWorkflowStatus db now entryID userID StatusApproved comment.

Definition RejectEntry (db : DB) (now : N) (entryID userID : N) (comment : string) :=
  ChangeWorkflowStatus db now entryID userID StatusRejected comment.

Definition PublishEntry (db : DB) (now : N) (entryID userID : N) (comment : string) :=
  ChangeWorkflowStatus db now entryID userID StatusPublished comment.

(** The transition table as the specification prints it: eight rows
    [(from, to, roles)]. *)
Definition transition_table : list (string * string * list string) :=
  [ ("draft", "in_review", ["editor"; "admin"]);
    ("in_review", "ready_for_approval", ["editor"; "admin"]);
    ("in_review", "rejected", ["editor"; "admin"]);
    ("in_review", "draft", ["editor"; "admin"]);
    ("ready_for_approval", "approved", ["manager"; "admin"]);
    ("ready_for_approval", "rejected", ["manager"; "admin"]);
    ("approved", "published", ["manager"; "admin"]);
    ("rejected", "draft", ["editor"; "admin"]) ].

(** The triple [(from, to, role)] appears in the table. *)
Definition in_table (from to role : string) : Prop :=
  ∃ roles, In (from, to, roles) transition_table ∧ In role roles.

End workflow.

(** ** package middleware *)
Module middleware.

(** The [requiredPerms] literal: module -> action -> seen flag. *)
Definition four_actions : gmap string bool :=
  <["create" := false]> (<["read" := false]> (<["update" := false]>
  (<["delete" := false]> ∅))).

Definition requiredPerms0 : gmap string (gmap string bool) :=
  <["ContentEntry" := four_actions]> (<["Media" := four_actions]>
  (<["SEO" := four_actions]> ∅)).

(** One iteration of the first loop of [IsFullAccessRole]. *)
Definition mark_perm (requiredPerms : gmap string (gmap string bool))
    (perm : Permission) : gmap string (gmap string bool) :=
  match requiredPerms !! Module_ perm with
  | Some actions =>
    match actions !! Action perm with
    | Some _ => <[Module_ perm := <[Action perm := true]> actions]> requiredPerms
    | None => requiredPerms
    end
  | None => requiredPerms
  end.

(** The second loop: every flag of every module is set.  The order in
    which Go ranges over the two maps does not affect the answer. *)
Definition all_marked (requiredPerms : gmap string (gmap string bool)) : bool :=
  bool_decide (map_Forall (λ _ actions, map_Forall (λ _ has, has = true) actions)
                          requiredPerms).

Definition IsFullAccessRole (user : User) : bool :=
  match Role_ user with
  | None => false
  | Some role =>
    if String.eqb (RoleName role) "admin" then true
    else all_marked (fold_left mark_perm (Permissions role) requiredPerms0)
  end.

(** The content-type guard shared by both functions: an empty (or NULL)
    [ContentTypeIDs] places no restriction. *)
Definition content_type_applies (perm : Permission) (contentTypeID : N) : bool :=
  match ContentTypeIDs perm with
  | [] => true
  | ids => existsb (N.eqb contentTypeID) ids
  end.

(** The permission-selection loop of [FilterFieldsByPermission]. *)
Fixpoint select_permission (perms : list Permission) (action : string)
    (contentTypeID : N) : option Permission :=
  match perms with
  | [] => None
  | perm :: rest =>
    if String.eqb (Module_ perm) "ContentEntry" && String.eqb (Action perm) action
    then if content_type_applies perm contentTypeID
         then Some perm
         else select_permission rest action contentTypeID
    else select_permission rest action contentTypeID
  end.

(** [for _, x := range xs { if k == x { ...; break } }]. *)
Definition mem_string (k : string) (xs : list string) : bool :=
  existsb (String.eqb k) xs.

(** The inner loop over [allFields]: the first field named [k] decides. *)
Fixpoint first_field_named (k : string) (allFields : list ContentField)
    : option ContentField :=
  match allFields with
  | [] => None
  | field :: rest =>
    if String.eqb (Name field) k then Some field else first_field_named k rest
  end.

(** The [switch userPermission.FieldScope] applied to the field found. *)
Definition scope_keeps (scope : string) (field : ContentField) : bool :=
  if String.eqb scope "seo_only" then IsSEO field
  else if String.eqb scope "non_seo_only" then negb (IsSEO field)
  else true.

(** The three filtering loops, as the predicate on keys each one
    implements; every kept key keeps its value. *)
Definition keep_allowed (allowedFields : list string) (kv : string * Value) : Prop :=
  mem_string kv.1 allowedFields = true.

Definition keep_not_denied (deniedFields : list string) (kv : string * Value) : Prop :=
  mem_string kv.1 deniedFields = false.

Definition keep_by_scope (scope : string) (allFields : list ContentField)
    (kv : string * Value) : Prop :=
  match first_field_named kv.1 allFields with
  | Some field => scope_keeps scope field = true
  | None => False
  end.

#[global] Instance keep_allowed_dec a kv : Decision (keep_allowed a kv).
Proof. unfold keep_allowed. apply _. Defined.
#[global] Instance keep_not_denied_dec d kv : Decision (keep_not_denied d kv).
Proof. unfold keep_not_denied. apply _. Defined.
#[global] Instance keep_by_scope_dec s fs kv : Decision (keep_by_scope s fs kv).
Proof. unfold keep_by_scope. destruct (first_field_named _ _); apply _. Defined.

(** The part of [FilterFieldsByPermission] after the permission and the
    content type are known. *)
Definition filter_with_permission (userPermission : Permission)
    (ct : ContentType) (data : gmap string Value) : gmap string Value :=
  let scope := if String.eqb (FieldScope userPermission) ""
               then "all" else FieldScope userPermission in
  let allFields := (Fields ct ++ SEOFields ct)%list in
  if String.eqb scope "custom" then
    match AllowedFields userPermission, DeniedFields userPermission with
    | _ :: _, _ => filter (keep_allowed (AllowedFields userPermission)) data
    | [], _ :: _ => filter (keep_not_denied (DeniedFields userPermission)) data
    | [], [] => filter (keep_by_scope scope allFields) data
    end
  else filter (keep_by_scope scope allFields) data.

Definition FilterFieldsByPermission (db : DB) (userID : N) (action : string)
    (data : gmap string Value) (contentTypeID : N)
    : result (gmap string Value) :=
  match first_user db userID with
  | None => Err ErrUnauthorized
  | Some user =>
    if IsFullAccessRole user then Ok data
    else
      match Role_ user with
      | None => Panic
      | Some role =>
        match select_permission (Permissions role) action contentTypeID with
        | None => Err ErrNoPermission
        | Some userPermission =>
          match first_content_type db contentTypeID with
          | None => Err ErrContentTypeNotFound
          | Some ct => Ok (filter_with_permission userPermission ct data)
          end
        end
      end
  end.

(** The permission loop of [CanAccessField]; falling out of the loop
    answers [false]. *)
Fixpoint access_by_permissions (perms : list Permission) (fieldName : string)
    (targetField : ContentField) (contentTypeID : N) : bool :=
  match perms with
  | [] => false
  | perm :: rest =>
    if negb (String.eqb (Module_ perm) "ContentEntry")
    then access_by_permissions rest fieldName targetField contentTypeID
    else if negb (content_type_applies perm contentTypeID)
    then access_by_permissions rest fieldName targetField contentTypeID
    else
      let by_scope :=
        if String.eqb (FieldScope perm) "" || String.eqb (FieldScope perm) "all"
        then true
        else if String.eqb (FieldScope perm) "seo_only" then IsSEO targetField
        else if String.eqb (FieldScope perm) "non_seo_only"
        then negb (IsSEO targetField)
        else access_by_permissions rest fieldName targetField contentTypeID in
      if String.eqb (FieldScope perm) "custom" then
        match AllowedFields perm, DeniedFields perm with
        | _ :: _, _ => mem_string fieldName (AllowedFields perm)
        | [], _ :: _ => negb (mem_string fieldName (DeniedFields perm))
        | [], [] => by_scope
        end
      else by_scope
  end.

(** [CanAccessField]; a content type that is not found leaves [ct] the
    zero value, with no fields. *)
Definition CanAccessField (db : DB) (userID : N) (fieldName : string)
    (contentTypeID : N) : result bool :=
  match first_user db userID with
  | None => Err ErrUserNotFound
  | Some user =>
    match Role_ user with
    | None => Ok false
    | Some role =>
      if IsFullAccessRole user then Ok true
      else
        let allFields :=
          match first_content_type db contentTypeID with
          | Some ct => (Fields ct ++ SEOFields ct)%list
          | None => []
          end in
        match first_field_named fieldName allFields with
        | None => Ok false
        | Some targetField =>
          Ok (access_by_permissions (Permissions role) fieldName targetField
                                    contentTypeID)
        end
    end
  end.

(** The twelve (module, action) pairs of the completeness check. *)
Definition twelve_permissions : list (string * string) :=
  m ← ["ContentEntry"; "Media"; "SEO"];
  a ← ["create"; "read"; "update"; "delete"];
  [(m, a)].

Definition holds (role : Role) (ma : string * string) : Prop :=
  ∃ perm, In perm (Permissions role) ∧ Module_ perm = ma.1 ∧ Action perm = ma.2.

Definition matches_pair (module action : string) (perm : Permission) : bool :=
  String.eqb (Module_ perm) module && String.eqb (Action perm) action.

(** [requiredPerms[module][action]], when the pair is tracked. *)
Definition flag (requiredPerms : gmap string (gmap string bool))
    (module action : string) : option bool :=
  requiredPerms !! module ≫= (λ actions, actions !! action).

End middleware.

(** ** What the Go runtime and PostgreSQL contribute

    Library calls whose algorithms are not part of this repository are
    taken as parameters: the regular-expression engine on user-supplied
    patterns and on the e-mail pattern, [url.ParseRequestURI],
    [time.Parse] with layout [2006-01-02], the jsonb containment operator
    of the uniqueness query, and the (unspecified) order in which a
    [range] statement visits a map. *)
Class Runtime : Type := {
  (** [regexp.MatchString(pattern, s)]; [None] when the pattern does not compile. *)
  regexp_MatchString : string → string → option bool;
  (** the compiled e-mail expression of [validateEmail]. *)
  emailRegex_MatchString : string → bool;
  (** [url.ParseRequestURI(s)] returned no error. *)
  url_ParseRequestURI : string → bool;
  (** [time.Parse("2006-01-02", s)] returned no error. *)
  time_Parse_date : string → bool;
  (** the store accepts the condition [data @> ?] with the text
      [{"field": value}] that [checkUniqueness] builds by [Sprintf]:
      the text is a JSON document (it is not when the field name holds
      a quote) and the store knows the operator (SQLite does not). *)
  uniqueness_query_ok : string → Value → bool;
  (** [data @> {"field": value}]. *)
  jsonb_contains : gmap string Value → string → Value → bool;
  (** the sequence of entries a [range] over the map yields. *)
  range_order : gmap string Value → list (string * Value);
  range_order_perm : ∀ m, range_order m ≡ₚ map_to_list m
}.

(** ** package content *)
Module content.
Section with_runtime.
Context `{!Runtime}.

(** [len(strVal)]: the number of bytes. *)
Definition len (s : string) : Z := Z.of_nat (String.length s).

Definition is_lower_alnum (c : ascii) : bool :=
let n := N_of_ascii c in
((97 <=? n) && (n <=? 122) || (48 <=? n) && (n <=? 57))%N.

(** The fixed expression [^[a-z0-9]+(?:-[a-z0-9]+)*$], run as the
  two-state automaton it denotes; [fresh] holds at the start and right
  after a hyphen, where a letter or digit is owed. *)
Fixpoint slug_run (fresh : bool) (s : string) : bool :=
match s with
| EmptyString => negb fresh
| String c rest =>
  if is_lower_alnum c then slug_run false rest
  else if Ascii.eqb c "-"%char then negb fresh && slug_run true rest
  else false
end.

Definition slugRegex_MatchString (s : string) : bool := slug_run true s.

Definition validateString (field : ContentField) (value : Value) : option error :=
match value with
| VString strVal =>
  if match MinLength field with Some m => len strVal <? m | None => false end
  then Some (ErrMinLength (Name field) (default 0 (MinLength field)))
  else if match MaxLength field with Some m => len strVal >? m | None => false end
  then Some (ErrMaxLength (Name field) (default 0 (MaxLength field)))
  else
    let pattern_error :=
      if String.eqb (Pattern field) "" then None
      else match regexp_MatchString (Pattern field) strVal with
           | None => Some (ErrInvalidPattern (Name field))
           | Some false => Some (ErrPatternMismatch (Name field))
           | Some true => None
           end in
    match pattern_error with
    | Some e => Some e
    | None =>
      if String.eqb (Name field) "slug" && negb (slugRegex_MatchString strVal)
      then Some (ErrInvalidSlug (Name field))
      else None
    end
| _ => Some (ErrMustBeString (Name field))
end.

Definition validateEmail (field : ContentField) (value : Value) : option error :=
match value with
| VString strVal =>
  if emailRegex_MatchString strVal then None
  else Some (ErrInvalidEmail (Name field))
| _ => Some (ErrMustBeString (Name field))
end.

Definition validateURL (field : ContentField) (value : Value) : option error :=
match value with
| VString strVal =>
  if url_ParseRequestURI strVal then None else Some (ErrInvalidURL (Name field))
| _ => Some (ErrMustBeString (Name field))
end.

Definition Qltb (a b : Q) : bool := negb (Qle_bool b a).

(** [float64(v)] for an integer [v]: exact up to [2^53] in magnitude;
  beyond that the nearest number with a 53-bit significand, ties to the
  even one. *)
Definition float64_of_int (v : Z) : Q :=
let a := Z.abs v in
let e := Z.log2 a - 52 in
if e <=? 0 then inject_Z v
else
  let m := Z.shiftr a e in
  let r := a - Z.shiftl m e in
  let half := Z.shiftl 1 (e - 1) in
  let m' := if (half <? r) || (r =? half) && Z.odd m then m + 1 else m in
  inject_Z (Z.sgn v * Z.shiftl m' e).

(** The type switch of [validateNumber]: the four accepted dynamic
  types with their conversion to [float64]; a [uint] is not among
  them. *)
Definition number_of (value : Value) : option Q :=
match value with
| VFloat64 v => Some v
| VFloat32 v => Some v
| VInt v => Some (float64_of_int v)
| VInt64 v => Some (float64_of_int v)
| _ => None
end.

Definition validateNumber (field : ContentField) (value : Value) : option error :=
match number_of value with
| Some numVal =>
  if match MinValue field with Some m => Qltb numVal m | None => false end
  then Some (ErrMinValue (Name field) (default 0%Q (MinValue field)))
  else if match MaxValue field with Some m => Qltb m numVal | None => false end
  then Some (ErrMaxValue (Name field) (default 0%Q (MaxValue field)))
  else None
| None => Some (ErrMustBeNumber (Name field))
end.

Definition validateDate (field : ContentField) (value : Value) : option error :=
match value with
| VString strVal =>
  if time_Parse_date strVal then None else Some (ErrDateFormat (Name field))
| _ => Some (ErrMustBeDateString (Name field))
end.

Definition validateMedia (field : ContentField) (value : Value) : option error :=
match value with
| VString strVal =>
  if url_ParseRequestURI strVal then None else Some (ErrInvalidURL (Name field))
| _ => Some (ErrMustBeMediaURL (Name field))
end.

Definition validateBoolean (field : ContentField) (value : Value) : option error :=
match value with
| VBool _ => None
| _ => Some (ErrMustBeBoolean (Name field))
end.

Definition validateFieldByType (field : ContentField) (value : Value) : option error :=
let t := Type_ field in
if String.eqb t "string" || String.eqb t "text" then validateString field value
else if String.eqb t "email" then validateEmail field value
else if String.eqb t "url" then validateURL field value
else if String.eqb t "number" then validateNumber field value
else if String.eqb t "boolean" then validateBoolean field value
else if String.eqb t "date" then validateDate field value
else if String.eqb t "media" then validateMedia field value
else None.

(** The rows the uniqueness query counts. *)
Definition uniqueness_match (contentTypeID : N) (fieldName : string)
  (value : Value) (excludeEntryID : option N) (e : ContentEntry) : bool :=
match DeletedAt e with None => true | Some _ => false end
&& N.eqb (ContentTypeID e) contentTypeID
&& jsonb_contains (Data e) fieldName value
&& match excludeEntryID with
   | Some x => negb (N.eqb (ID e) x)
   | None => true
   end.

(** The query fails as a whole when the store does not accept its
  condition; the count is looked at only after that. *)
Definition checkUniqueness (db : DB) (contentTypeID : N) (fieldName : string)
  (value : Value) (excludeEntryID : option N) : option error :=
if negb (uniqueness_query_ok fieldName value)
then Some (ErrUniquenessCheck fieldName)
else
  let count :=
    length (List.filter
              (uniqueness_match contentTypeID fieldName value excludeEntryID)
              (map_to_list (entries db)).*2) in
  if (0 <? count)%nat then Some (ErrDuplicate fieldName) else None.

(** [!exists || value == nil || value == ""]. *)
Definition is_empty_value (value : Value) : bool :=
match value with
| VNil => true
| VString s => String.eqb s ""
| _ => false
end.

Definition absent_or_empty (lookup : option Value) : bool :=
match lookup with
| None => true
| Some value => is_empty_value value
end.

(** The type switch of [ValidateContentEntryEnhanced], written out case
  by case as in the source. *)
Definition enhanced_type_switch (field : ContentField) (value : Value) : option error :=
let t := Type_ field in
if String.eqb t "string" || String.eqb t "text" then validateString field value
else if String.eqb t "email" then validateEmail field value
else if String.eqb t "url" then validateURL field value
else if String.eqb t "number" then validateNumber field value
else if String.eqb t "boolean" then
  match value with VBool _ => None | _ => Some (ErrMustBeBoolean (Name field)) end
else if String.eqb t "date" then validateDate field value
else if String.eqb t "media" then validateMedia field value
else None.

(** What the loop body does with a value that is present and non-empty:
  the type switch, then the uniqueness query (no entry excluded). *)
Definition present_field_checks (db : DB) (ctID : N) (field : ContentField)
  (value : Value) : option error :=
match enhanced_type_switch field value with
| Some e => Some e
| None =>
  if Unique field then checkUniqueness db ctID (Name field) value None
  else None
end.

(** The loop of [ValidateContentEntryEnhanced] over [allFields]; the
  map [data] is mutated in place, so it is returned alongside the
  error, also when validation fails. *)
Fixpoint validate_fields (db : DB) (ctID : N) (allFields : list ContentField)
  (data : gmap string Value) : gmap string Value * option error :=
match allFields with
| [] => (data, None)
| field :: rest =>
  if absent_or_empty (data !! Name field) then
    if Required field then (data, Some (ErrRequired (Name field)))
    else if negb (String.eqb (DefaultValue field) "")
    then validate_fields db ctID rest
           (<[Name field := VString (DefaultValue field)]> data)
    else validate_fields db ctID rest data
  else
    match present_field_checks db ctID field (default VNil (data !! Name field)) with
    | Some e => (data, Some e)
    | None => validate_fields db ctID rest data
    end
end.

Definition ValidateContentEntryEnhanced (db : DB) (ct : ContentType)
  (data : gmap string Value) : gmap string Value * option error :=
validate_fields db (CtID ct) (Fields ct ++ SEOFields ct)%list data.

(** [strings.HasSuffix(s, suffix)]. *)
Definition HasSuffix (s suffix : string) : bool :=
let n := String.length s in
let k := String.length suffix in
(k <=? n)%nat && String.eqb (String.substring (n - k) k s) suffix.

(** [fieldMap]: filled front to back, so for a repeated name the last
  field of [allFields] is the one kept. *)
Definition fieldMap_of (allFields : list ContentField) : gmap string ContentField :=
fold_left (λ fieldMap field, <[Name field := field]> fieldMap) allFields ∅.

(** The body of the loop of [ValidatePartialUpdate] for one entry of
  the map; [None] is reaching the end of the body or a [continue]. *)
Definition validate_update_entry (db : DB) (ctID : N)
  (fieldMap : gmap string ContentField) (entryID : N)
  (fieldName : string) (value : Value) : option error :=
if HasSuffix fieldName "_media_id" then None
else
  match fieldMap !! fieldName with
  | None => Some (ErrUnknownField fieldName)
  | Some field =>
    if is_empty_value value then
      if Required field then Some (ErrRequiredEmpty (Name field)) else None
    else
      match validateFieldByType field value with
      | Some e => Some e
      | None =>
        if Unique field
        then checkUniqueness db ctID (Name field) value (Some entryID)
        else None
      end
  end.

(** The loop itself, over the entries in the order [range] yields them:
  the first failing entry returns. *)
Fixpoint validate_update_loop (db : DB) (ctID : N)
  (fieldMap : gmap string ContentField) (entryID : N)
  (visited : list (string * Value)) : option error :=
match visited with
| [] => None
| (fieldName, value) :: rest =>
  match validate_update_entry db ctID fieldMap entryID fieldName value with
  | Some e => Some e
  | None => validate_update_loop db ctID fieldMap entryID rest
  end
end.

Definition ValidatePartialUpdate (db : DB) (ct : ContentType)
  (updatedFields : gmap string Value) (entryID : N) : option error :=
validate_update_loop db (CtID ct) (fieldMap_of (Fields ct ++ SEOFields ct)%list)
                     entryID (range_order updatedFields).

Definition CreateContentEntry (db : DB) (contentTypeID createdBy : N)
  (data : gmap string Value) : DB * result ContentEntry :=
match first_content_type db contentTypeID with
| None => (db, Err ErrContentTypeNotFound)
| Some ct =>
  match ValidateContentEntryEnhanced db ct data with
  | (_, Some e) => (db, Err e)
  | (data', None) =>
    let entry := {| ID := 0%N; ContentTypeID := contentTypeID; Data := data';
                    Status := StatusDraft; CreatedBy := createdBy;
                    UpdatedBy := 0%N; PublishedAt := None;
                    DeletedAt := None |} in
    let '(db', created) := create_entry db entry in
    (db', Ok created)
  end
end.

Definition UpdateEntry (db : DB) (entryID updatedBy : N)
  (data : gmap string Value) : DB * result ContentEntry :=
match first_entry db entryID with
| None => (db, Err ErrEntryNotFound)
| Some entry =>
  if String.eqb (Status entry) StatusPublished then (db, Err ErrPublishedEdit)
  else
    match first_content_type db (ContentTypeID entry) with
    | None => (db, Err ErrContentTypeNotFound)
    | Some ct =>
      match ValidateContentEntryEnhanced db ct data with
      | (_, Some e) => (db, Err e)
      | (data', None) =>
        let entry' := {| ID := ID entry; ContentTypeID := ContentTypeID entry;
                         Data := data'; Status := StatusDraft;
                         CreatedBy := CreatedBy entry; UpdatedBy := updatedBy;
                         PublishedAt := PublishedAt entry;
                         DeletedAt := DeletedAt entry |} in
        (save_entry db entry', Ok entry')
      end
    end
end.

(** [for k, v := range data { if HasSuffix(k, "_media_id") { filteredData[k] = v } }]:
  the media-id entries of [data] are written over [filteredData]. *)
Definition is_media_id_entry (kv : string * Value) : Prop :=
HasSuffix kv.1 "_media_id" = true.

#[global] Instance is_media_id_entry_dec kv : Decision (is_media_id_entry kv).
Proof. unfold is_media_id_entry. apply _. Defined.

Definition restore_media_ids (data filteredData : gmap string Value)
  : gmap string Value :=
filter is_media_id_entry data ∪ filteredData.

(** [CreateEntryHandler] (and [CreateEntryHandlerJSON], which has the
  same body) from the point where [data] has been assembled from the
  request.  The assembly itself is not part of this function: it reads
  the body and, for a multipart request, uploads each file and inserts
  its [MediaFile] row (a table [DB] does not hold) before the
  permission filter below is reached. *)
Definition CreateEntryHandler (db : DB) (userID contentTypeID : N)
  (data : gmap string Value) : DB * result ContentEntry :=
match first_content_type db contentTypeID with
| None => (db, Err ErrContentTypeNotFound)
| Some _ =>
  match middleware.FilterFieldsByPermission db userID "create" data contentTypeID with
  | Panic => (db, Panic)
  | Err e => (db, Err e)
  | Ok filteredData =>
    if (size filteredData =? 0)%nat then (db, Err ErrNoPermittedFields)
    else CreateContentEntry db contentTypeID userID
           (restore_media_ids data filteredData)
  end
end.

(** [UpdateEntryHandler] from the point where [data] has been read from
  the request; the entry and the content type are looked up before
  that, and for a multipart request the files are uploaded and their
  [MediaFile] rows inserted in between, as in the create handler. *)
Definition UpdateEntryHandler (db : DB) (userID entryID : N)
  (data : gmap string Value) : DB * result ContentEntry :=
match first_entry db entryID with
| None => (db, Err ErrEntryNotFound)
| Some entry =>
  if String.eqb (Status entry) StatusPublished then (db, Err ErrPublishedEdit)
  else
    match first_content_type db (ContentTypeID entry) with
    | None => (db, Err ErrContentTypeNotFound)
    | Some ct =>
      if (size data =? 0)%nat then (db, Err ErrNoData)
      else
        match middleware.FilterFieldsByPermission db userID "update" data
                (ContentTypeID entry) with
        | Panic => (db, Panic)
        | Err e => (db, Err e)
        | Ok filteredData =>
          if (size filteredData =? 0)%nat then (db, Err ErrNoPermittedFields)
          else
            let filteredData := restore_media_ids data filteredData in
            match ValidatePartialUpdate db ct filteredData entryID with
            | Some e => (db, Err e)
            | None =>
              let existingData := filteredData ∪ Data entry in
              let entry' :=
                {| ID := ID entry; ContentTypeID := ContentTypeID entry;
                   Data := existingData; Status := StatusDraft;
                   CreatedBy := CreatedBy entry; UpdatedBy := userID;
                   PublishedAt := PublishedAt entry;
                   DeletedAt := DeletedAt entry |} in
              (save_entry db entry', Ok entry')
            end
        end
    end
end.

Definition DeleteEntryHandler (db : DB) (now : N) (entryID : N)
  : DB * result unit :=
match first_entry db entryID with
| None => (db, Err ErrEntryNotFound)
| Some entry =>
  if String.eqb (Status entry) StatusPublished then (db, Err ErrPublishedDelete)
  else (delete_entry db now entry, Ok tt)
end.

End with_runtime.
End content.

(** ** The operations that write entries, as one transition system *)

Inductive Op : Type :=
  | OpChangeWorkflowStatus (now entryID userID : N) (toStatus comment : string)
  | OpRequestReview (now entryID userID : N) (comment : string)
  | OpApproveEntry (now entryID userID : N) (comment : string)
  | OpRejectEntry (now entryID userID : N) (comment : string)
  | OpPublishEntry (now entryID userID : N) (comment : string)
  | OpCreateContentEntry (contentTypeID createdBy : N) (data : gmap string Value)
  | OpUpdateEntry (entryID updatedBy : N) (data : gmap string Value)
  | OpCreateEntryHandler (userID contentTypeID : N) (data : gmap string Value)
  | OpUpdateEntryHandler (userID entryID : N) (data : gmap string Value)
  | OpDeleteEntryHandler (now entryID : N).

Definition apply_op `{!Runtime} (db : DB) (op : Op) : DB :=
  match op with
  | OpChangeWorkflowStatus now e u to c => (workflow.ChangeWorkflowStatus db now e u to c).1
  | OpRequestReview now e u c => (workflow.RequestReview db now e u c).1
  | OpApproveEntry now e u c => (workflow.ApproveEntry db now e u c).1
  | OpRejectEntry now e u c => (workflow.RejectEntry db now e u c).1
  | OpPublishEntry now e u c => (workflow.PublishEntry db now e u c).1
  | OpCreateContentEntry ct u d => (content.CreateContentEntry db ct u d).1
  | OpUpdateEntry e u d => (content.UpdateEntry db e u d).1
  | OpCreateEntryHandler u ct d => (content.CreateEntryHandler db u ct d).1
  | OpUpdateEntryHandler u e d => (content.UpdateEntryHandler db u e d).1
  | OpDeleteEntryHandler now e => (content.DeleteEntryHandler db now e).1
  end.

(** The entry and the clock reading of an operation that asks for the
    status [published]. *)
Definition publish_request (op : Op) : option (N * N) :=
  match op with
  | OpChangeWorkflowStatus now e _ to _ =>
    if String.eqb to StatusPublished then Some (e, now) else None
  | OpPublishEntry now e _ _ => Some (e, now)
  | _ => None
  end.

(** Rows are stored under their own primary key, and the sequence is
    ahead of every key in use. *)
Definition db_wf (db : DB) : Prop :=
  map_Forall (λ id e, ID e = id ∧ (id <= entrySeq db)%N) (entries db).

(** What one operation may do to the entries table: nothing; rewrite one
    existing row in place, keeping its [PublishedAt] unless the operation
    asked for [published] on that row, in which case the row is published
    and stamped with the clock; or insert one new, unpublished draft under
    the next identifier. *)
Definition entries_effect (db db' : DB) (op : Op) : Prop :=
  (entries db' = entries db ∧ entrySeq db' = entrySeq db)
  ∨ (∃ old new,
       entries db !! ID old = Some old ∧ ID new = ID old ∧
       entries db' = <[ID old := new]> (entries db) ∧
       entrySeq db' = entrySeq db ∧
       (PublishedAt new = PublishedAt old
        ∨ ∃ now, publish_request op = Some (ID old, now) ∧
                 Status new = StatusPublished ∧ PublishedAt new = Some now))
  ∨ (∃ new,
       ID new = (entrySeq db + 1)%N ∧
       entries db' = <[ID new := new]> (entries db) ∧
       entrySeq db' = ID new ∧
       PublishedAt new = None ∧ Status new = StatusDraft).

(** ** Specification-side notions *)

(** The number of runes of a well-formed UTF-8 string: every byte that is
    not a continuation byte [10xxxxxx] starts one. *)
Definition is_continuation_byte (c : ascii) : bool :=
  let n := N_of_ascii c in ((128 <=? n) && (n <? 192))%N.

Fixpoint rune_count (s : string) : Z :=
  match s with
  | EmptyString => 0
  | String c rest => (if is_continuation_byte c then 0 else 1) + rune_count rest
  end.

(** The submitted key names a field of the content type (regular or SEO). *)
Definition names_field (ct : ContentType) (k : string) : Prop :=
  ∃ field, In field (Fields ct ++ SEOFields ct)%list ∧ Name field = k.

(** ** Sample data on which the code is evaluated *)
Module sample.

Definition field (name type : string) (required seo : bool) : ContentField :=
  {| Name := name; Type_ := type; Required := required; IsSEO := seo;
     Unique := false; MaxLength := None; MinLength := None; Pattern := "";
     MinValue := None; MaxValue := None; DefaultValue := "" |}.

(** A [string] field limited to three characters. *)
Definition short_title : ContentField :=
  {| Name := "title"; Type_ := "string"; Required := false; IsSEO := false;
     Unique := false; MaxLength := Some 3; MinLength := None; Pattern := "";
     MinValue := None; MaxValue := None; DefaultValue := "" |}.

(** A [number] field with a configured default. *)
Definition count_field : ContentField :=
  {| Name := "count"; Type_ := "number"; Required := false; IsSEO := false;
     Unique := false; MaxLength := None; MinLength := None; Pattern := "";
     MinValue := None; MaxValue := None; DefaultValue := "5" |}.

(** A [string] field with a configured default. *)
Definition lang_field : ContentField :=
  {| Name := "lang"; Type_ := "string"; Required := false; IsSEO := false;
     Unique := false; MaxLength := None; MinLength := None; Pattern := "";
     MinValue := None; MaxValue := None; DefaultValue := "en" |}.

Definition article : ContentType :=
  {| CtID := 1; Fields := [field "title" "string" true false];
     SEOFields := [field "meta_title" "string" false true] |}.

Definition counter : ContentType :=
  {| CtID := 2; Fields := [count_field]; SEOFields := [] |}.

Definition page : ContentType :=
  {| CtID := 3; Fields := [field "title" "string" true false; lang_field];
     SEOFields := [] |}.

Definition perm (module action scope : string) (denied : list string) : Permission :=
  {| Module_ := module; Action := action; FieldScope := scope;
     AllowedFields := []; DeniedFields := denied; ContentTypeIDs := [] |}.

Definition editor : Role :=
  {| RoleName := "editor";
     Permissions := [perm "ContentEntry" "create" "all" [];
                     perm "ContentEntry" "update" "all" []] |}.
Definition manager : Role :=
  {| RoleName := "manager";
     Permissions := [perm "ContentEntry" "read" "all" []] |}.
(** An [admin] role that holds no permission at all. *)
Definition admin : Role := {| RoleName := "admin"; Permissions := [] |}.
(** Two roles that differ in the field scope only. *)
Definition reviewer_custom : Role :=
  {| RoleName := "reviewer_custom";
     Permissions := [perm "ContentEntry" "update" "custom" ["secret"]] |}.
Definition reviewer_all : Role :=
  {| RoleName := "reviewer_all";
     Permissions := [perm "ContentEntry" "update" "all" ["secret"]] |}.
Definition seo_writer : Role :=
  {| RoleName := "seo_writer";
     Permissions := [perm "ContentEntry" "update" "seo_only" []] |}.
(** A role that is not called [admin] and holds the twelve permissions. *)
Definition superuser : Role :=
  {| RoleName := "superuser";
     Permissions :=
       m ← ["ContentEntry"; "Media"; "SEO"];
       a ← ["create"; "read"; "update"; "delete"];
       [perm m a "seo_only" []] |}.

Definition user (id : N) (r : Role) : User := {| UserID := id; Role_ := Some r |}.

Definition entry (id ct : N) (data : gmap string Value) (status : string)
    (published : option N) : ContentEntry :=
  {| ID := id; ContentTypeID := ct; Data := data; Status := status;
     CreatedBy := 1; UpdatedBy := 0; PublishedAt := published;
     DeletedAt := None |}.

Definition db : DB :=
  {| users := list_to_map [(1, user 1 editor); (2, user 2 manager);
                           (3, user 3 admin); (4, user 4 reviewer_custom);
                           (5, user 5 reviewer_all); (6, user 6 superuser);
                           (7, user 7 seo_writer)]%N;
     contentTypes := list_to_map [(1, article); (2, counter); (3, page)]%N;
     entries := list_to_map
       [(1, entry 1 1 {["title" := VString "first"]} "draft" None);
        (2, entry 2 1 {["title" := VString "second"]} "approved" None);
        (3, entry 3 1 {["title" := VString "third"]} "published" (Some 40))]%N;
     history := [];
     entrySeq := 3 |}.

(** A stand-in for the library calls: the only pattern it compiles is
    [.*]; e-mail addresses contain [@]; URLs start with [/] or [http];
    dates have ten bytes; the uniqueness query is accepted unless the
    field name holds a quote; containment is equality of the stored
    value; maps are visited in key order. *)
Definition contains_at (s : string) : bool :=
  existsb (Ascii.eqb "@"%char) (list_ascii_of_string s).

Definition runtime : Runtime :=
  {| regexp_MatchString pattern _ :=
       if String.eqb pattern ".*" then Some true else None;
     emailRegex_MatchString := contains_at;
     url_ParseRequestURI s := String.prefix "/" s || String.prefix "http" s;
     time_Parse_date s := (String.length s =? 10)%nat;
     uniqueness_query_ok fieldName _ :=
       negb (existsb (Ascii.eqb (ascii_of_N 34)) (list_ascii_of_string fieldName));
     jsonb_contains data fieldName value := bool_decide (data !! fieldName = Some value);
     range_order := map_to_list;
     range_order_perm m := reflexivity _ |}.

(** Two bytes of UTF-8 for U+00E9, and a three-rune, five-byte word. *)
Definition e_acute : string :=
  String (ascii_of_N 195) (String (ascii_of_N 169) EmptyString).
Definition hee : string := String "h"%char (e_acute +:+ e_acute).

End sample.

(** ** package response *)
Module response.

(** The HTTP status each helper of the package answers with. *)
Inductive status : Type :=
  | Success200
  | Created201
  | NoContent204
  | BadRequest400
  | Unauthorized401
  | Forbidden403
  | NotFound404
  | Conflict409
  | ValidationError422
  | InternalError500.

Record Meta : Type := {
  Page : Z;
  Limit : Z;
  Total : Z;
  TotalPages : Z
}.

(** Two's-complement wrap-around of [int64] arithmetic. *)
Definition wrap64 (z : Z) : Z := (z + 2 ^ 63) mod 2 ^ 64 - 2 ^ 63.

(** [CalculateMeta]: [/] and [%] truncate towards zero; a zero [limit]
    is a run-time panic (integer divide by zero). *)
Definition CalculateMeta (page limit total : Z) : result Meta :=
  if limit =? 0 then Panic
  else
    let totalPages := wrap64 (Z.quot total limit) in
    let totalPages := if Z.rem total limit >? 0 then wrap64 (totalPages + 1)
                      else totalPages in
    Ok {| Page := page; Limit := limit; Total := total; TotalPages := totalPages |}.

End response.

(** ** package middleware: the route guards *)
Module guards.

(** What the guard does with the request. *)
Inductive outcome : Type :=
  | Next                    (* c.Next() *)
  | Unauthorized            (* 401 "Unauthorized" *)
  | NoRoleAssigned          (* 403 "User has no role assigned" *)
  | PermissionDenied.       (* 403 "You don't have permission to perform this action" *)

(** [for _, perm := range user.Role.Permissions { if perm.Module == module
    && perm.Action == action { ... } }]. *)
Definition has_permission_row (perms : list Permission) (module action : string) : bool :=
  existsb (λ perm, String.eqb (Module_ perm) module && String.eqb (Action perm) action)
          perms.

Definition PermissionProtected (db : DB) (module action : string) (userID : N)
    : outcome :=
  match first_user db userID with
  | None => Unauthorized
  | Some user =>
    match Role_ user with
    | None => NoRoleAssigned
    | Some role =>
      if has_permission_row (Permissions role) module action then Next
      else PermissionDenied
    end
  end.

Definition HasPermission (db : DB) (userID : N) (module action : string) : bool :=
  match first_user db userID with
  | None => false
  | Some user =>
    match Role_ user with
    | None => false
    | Some role => has_permission_row (Permissions role) module action
    end
  end.

(** [permissions] is the slice of [struct{ Module, Action string }]. *)
Definition HasAnyPermission (db : DB) (userID : N)
    (permissions : list (string * string)) : bool :=
  match first_user db userID with
  | None => false
  | Some user =>
    match Role_ user with
    | None => false
    | Some role =>
      existsb (λ reqPerm,
                 existsb (λ userPerm,
                            String.eqb (Module_ userPerm) reqPerm.1
                            && String.eqb (Action userPerm) reqPerm.2)
                         (Permissions role))
              permissions
    end
  end.

(** [user.HasPermission] of package user: the same loop, without the nil
    check on the role. *)
Definition user_HasPermission (db : DB) (userID : N) (module action : string)
    : result bool :=
  match first_user db userID with
  | None => Err ErrUserNotFound
  | Some user =>
    match Role_ user with
    | None => Panic
    | Some role => Ok (has_permission_row (Permissions role) module action)
    end
  end.

End guards.

(** ** package workflow: queries, comments and assignments *)

Module WorkflowComment.
Record t : Type := {
  ID : N;
  EntryID : N;
  UserID : N;
  Comment : string;
  IsPrivate : bool;
  CreatedAt : N
}.
End WorkflowComment.

Module WorkflowAssignment.
Record t : Type := {
  ID : N;
  EntryID : N;
  AssignedTo : N;
  AssignedBy : N;
  Status : string;
  DueDate : option N;
  CreatedAt : N
}.
End WorkflowAssignment.

(** The two tables the comment and assignment functions work on, rows in
    insertion order, each with its identifier sequence. *)
Record SideTables : Type := {
  comments : list WorkflowComment.t;
  commentSeq : N;
  assignments : list WorkflowAssignment.t;
  assignmentSeq : N
}.

Module workflow_queries.

(** [Order("created_at DESC")] on the rows selected. *)
Definition not_older {A} (createdAt : A → N) (a b : A) : Prop :=
  (createdAt b <= createdAt a)%N.

#[global] Instance not_older_dec {A} (createdAt : A → N) a b :
  Decision (not_older createdAt a b).
Proof. unfold not_older. apply _. Defined.

Definition newest_first {A} (createdAt : A → N) (rows : list A) : list A :=
  merge_sort (not_older createdAt) rows.

(** [GetWorkflowHistory]: the rows of the entry, newest first.  History
    rows are appended as the clock advances, so newest first is the
    reverse of insertion order. *)
Definition GetWorkflowHistory (db : DB) (entryID : N) : list WorkflowHistory :=
  rev (List.filter (λ h, N.eqb (models.EntryID h) entryID) (history db)).

Definition AddWorkflowComment (tables : SideTables) (now : N) (entryID userID : N)
    (comment : string) (isPrivate : bool) : SideTables * WorkflowComment.t :=
  let wfComment :=
    {| WorkflowComment.ID := (commentSeq tables + 1)%N;
       WorkflowComment.EntryID := entryID;
       WorkflowComment.UserID := userID;
       WorkflowComment.Comment := comment;
       WorkflowComment.IsPrivate := isPrivate;
       WorkflowComment.CreatedAt := now |} in
  ({| comments := comments tables ++ [wfComment];
      commentSeq := (commentSeq tables + 1)%N;
      assignments := assignments tables;
      assignmentSeq := assignmentSeq tables |}, wfComment).

Definition GetWorkflowComments (tables : SideTables) (entryID : N)
    (includePrivate : bool) : list WorkflowComment.t :=
  let query := List.filter (λ c, N.eqb (WorkflowComment.EntryID c) entryID)
                           (comments tables) in
  let query := if negb includePrivate
               then List.filter (λ c, negb (WorkflowComment.IsPrivate c)) query
               else query in
  newest_first WorkflowComment.CreatedAt query.

(** [AddCommentHandler] after the body is parsed: an empty comment is a
    validation error and nothing is written. *)
Definition AddCommentHandler (tables : SideTables) (now : N) (entryID userID : N)
    (comment : string) (isPrivate : bool) : SideTables * response.status :=
  if String.eqb comment "" then (tables, response.ValidationError422)
  else ((AddWorkflowComment tables now entryID userID comment isPrivate).1,
        response.Created201).

Definition AssignEntry (tables : SideTables) (now : N)
    (entryID assignedTo assignedBy : N) (dueDate : option N)
    : SideTables * WorkflowAssignment.t :=
  let assignment :=
    {| WorkflowAssignment.ID := (assignmentSeq tables + 1)%N;
       WorkflowAssignment.EntryID := entryID;
       WorkflowAssignment.AssignedTo := assignedTo;
       WorkflowAssignment.AssignedBy := assignedBy;
       WorkflowAssignment.Status := "pending";
       WorkflowAssignment.DueDate := dueDate;
       WorkflowAssignment.CreatedAt := now |} in
  ({| comments := comments tables;
      commentSeq := commentSeq tables;
      assignments := assignments tables ++ [assignment];
      assignmentSeq := (assignmentSeq tables + 1)%N |}, assignment).

Definition GetMyAssignments (tables : SideTables) (userID : N) (status : string)
    : list WorkflowAssignment.t :=
  let query := List.filter (λ a, N.eqb (WorkflowAssignment.AssignedTo a) userID)
                           (assignments tables) in
  let query := if negb (String.eqb status "")
               then List.filter (λ a, String.eqb (WorkflowAssignment.Status a) status)
                                query
               else query in
  newest_first WorkflowAssignment.CreatedAt query.

(** [Update("status", "completed")] on the rows with that id; no row
    matching is not an error. *)
Definition complete_row (assignmentID : N) (a : WorkflowAssignment.t)
    : WorkflowAssignment.t :=
  if N.eqb (WorkflowAssignment.ID a) assignmentID
  then {| WorkflowAssignment.ID := WorkflowAssignment.ID a;
          WorkflowAssignment.EntryID := WorkflowAssignment.EntryID a;
          WorkflowAssignment.AssignedTo := WorkflowAssignment.AssignedTo a;
          WorkflowAssignment.AssignedBy := WorkflowAssignment.AssignedBy a;
          WorkflowAssignment.Status := "completed";
          WorkflowAssignment.DueDate := WorkflowAssignment.DueDate a;
          WorkflowAssignment.CreatedAt := WorkflowAssignment.CreatedAt a |}
  else a.

Definition CompleteAssignment (tables : SideTables) (assignmentID : N) : SideTables :=
  {| comments := comments tables;
     commentSeq := commentSeq tables;
     assignments := map (complete_row assignmentID) (assignments tables);
     assignmentSeq := assignmentSeq tables |}.

(** One counting query of [GetWorkflowStatistics]: the live entries of
    the content type, of the given status when one is given. *)
Definition count_entries (db : DB) (contentTypeID : N) (status : option string) : Z :=
  Z.of_nat
    (length
       (List.filter
          (λ e, match DeletedAt e with None => true | Some _ => false end
                && N.eqb (ContentTypeID e) contentTypeID
                && match status with
                   | Some s => String.eqb (models.Status e) s
                   | None => true
                   end)
          (map_to_list (entries db)).*2)).

Definition GetWorkflowStatistics (db : DB) (contentTypeID : N) : gmap string Z :=
  let total := count_entries db contentTypeID None in
  let draft := count_entries db contentTypeID (Some StatusDraft) in
  let inReview := count_entries db contentTypeID (Some StatusInReview) in
  let readyForApproval := count_entries db contentTypeID (Some StatusReadyForApproval) in
  let approved := count_entries db contentTypeID (Some StatusApproved) in
  let published := count_entries db contentTypeID (Some StatusPublished) in
  let rejected := count_entries db contentTypeID (Some StatusRejected) in
  <["rejected" := rejected]> (<["published" := published]>
  (<["approved" := approved]> (<["ready_for_approval" := readyForApproval]>
  (<["in_review" := inReview]> (<["draft" := draft]> (<["total" := total]> ∅)))))).

(** The assignment operations, as one transition system. *)
Inductive AssignmentOp : Type :=
  | OpAssignEntry (now entryID assignedTo assignedBy : N) (dueDate : option N)
  | OpCompleteAssignment (assignmentID : N)
  | OpAddComment (now entryID userID : N) (comment : string) (isPrivate : bool).

Definition apply_assignment_op (tables : SideTables) (op : AssignmentOp) : SideTables :=
  match op with
  | OpAssignEntry now e to_ by_ due => (AssignEntry tables now e to_ by_ due).1
  | OpCompleteAssignment id => CompleteAssignment tables id
  | OpAddComment now e u c p => (AddCommentHandler tables now e u c p).1
  end.

End workflow_queries.

(** ** package content: the remaining entry points *)
Module content_admin.
Section with_runtime.
Context `{!Runtime}.

(** The live entries of a content type, as [DeleteContentTypeHandler]
    counts them. *)
Definition entryCount (db : DB) (id : N) : nat :=
  length (List.filter
            (λ e, match DeletedAt e with None => true | Some _ => false end
                  && N.eqb (ContentTypeID e) id)
            (map_to_list (entries db)).*2).

(** [DeleteContentTypeHandler]; a deleted content type (and its fields)
    is no longer found by any lookup, which is what removing it from
    [contentTypes] expresses. *)
Definition DeleteContentTypeHandler (db : DB) (id : N) : DB * response.status :=
  if (0 <? entryCount db id)%nat then (db, response.Conflict409)
  else
    match first_content_type db id with
    | None => (db, response.NotFound404)
    | Some _ =>
      ({| users := users db; contentTypes := delete id (contentTypes db);
          entries := entries db; history := history db;
          entrySeq := entrySeq db |}, response.NoContent204)
    end.

(** Whether an operation on entries reported success. *)
Definition op_succeeds (db : DB) (op : Op) : bool :=
  match op with
  | OpChangeWorkflowStatus now e u to c =>
    is_ok (workflow.ChangeWorkflowStatus db now e u to c).2
  | OpRequestReview now e u c => is_ok (workflow.RequestReview db now e u c).2
  | OpApproveEntry now e u c => is_ok (workflow.ApproveEntry db now e u c).2
  | OpRejectEntry now e u c => is_ok (workflow.RejectEntry db now e u c).2
  | OpPublishEntry now e u c => is_ok (workflow.PublishEntry db now e u c).2
  | OpCreateContentEntry ct u d => is_ok (content.CreateContentEntry db ct u d).2
  | OpUpdateEntry e u d => is_ok (content.UpdateEntry db e u d).2
  | OpCreateEntryHandler u ct d => is_ok (content.CreateEntryHandler db u ct d).2
  | OpUpdateEntryHandler u e d => is_ok (content.UpdateEntryHandler db u e d).2
  | OpDeleteEntryHandler now e => is_ok (content.DeleteEntryHandler db now e).2
  end.

(** The entry operations together with the deletion of a content type. *)
Inductive AdminOp : Type :=
  | OnEntries (op : Op)
  | OpDeleteContentType (id : N).

Definition apply_admin_op (db : DB) (op : AdminOp) : DB :=
  match op with
  | OnEntries op => apply_op db op
  | OpDeleteContentType id => (DeleteContentTypeHandler db id).1
  end.

End with_runtime.
End content_admin.

(** ** Further specification-side notions *)

(** The six statuses of the workflow. *)
Definition known_status (s : string) : Prop :=
  In s [StatusDraft; StatusInReview; StatusReadyForApproval; StatusApproved;
        StatusPublished; StatusRejected].

(** A row is live when it is not soft-deleted. *)
Definition live (e : ContentEntry) : Prop := DeletedAt e = None.

(** A word of lower-case letters and digits; the slug expression denotes
    such words joined by single hyphens. *)
Definition slug_letters (w : string) : Prop :=
  Forall (λ c, content.is_lower_alnum c = true) (list_ascii_of_string w).

Definition slug_word (w : string) : Prop :=
  w ≠ EmptyString ∧ slug_letters w.

(** The hyphen-led continuation of a slug: [-w1-w2...]. *)
Fixpoint hyphen_tail (words : list string) : string :=
  match words with
  | [] => EmptyString
  | w :: rest => String "-"%char (w +:+ hyphen_tail rest)
  end.

(** How one operation changes the row it writes: a workflow transition
    of the table (one history row appended), a data update (status back
    to draft, history untouched), or a soft delete. *)
Inductive entry_change (db db' : DB) (old new : ContentEntry) : Prop :=
  | changed_by_transition (role : string) (userID now : N) (comment : string) :
      workflow.in_table (Status old) (Status new) role →
      new = {| ID := ID old; ContentTypeID := ContentTypeID old; Data := Data old;
               Status := Status new; CreatedBy := CreatedBy old;
               UpdatedBy := UpdatedBy old;
               PublishedAt := if String.eqb (Status new) StatusPublished
                              then Some now else PublishedAt old;
               DeletedAt := DeletedAt old |} →
      history db' =
        (history db ++ [{| EntryID := ID old; FromStatus := Status old;
                           ToStatus := Status new; ChangedBy := userID;
                           Comment := comment |}])%list →
      entry_change db db' old new
  | changed_by_update (data : gmap string Value) (updatedBy : N) :
      new = {| ID := ID old; ContentTypeID := ContentTypeID old; Data := data;
               Status := StatusDraft; CreatedBy := CreatedBy old;
               UpdatedBy := updatedBy; PublishedAt := PublishedAt old;
               DeletedAt := DeletedAt old |} →
      history db' = history db →
      entry_change db db' old new
  | changed_by_delete (now : N) :
      new = {| ID := ID old; ContentTypeID := ContentTypeID old; Data := Data old;
               Status := Status old; CreatedBy := CreatedBy old;
               UpdatedBy := UpdatedBy old; PublishedAt := PublishedAt old;
               DeletedAt := Some now |} →
      history db' = history db →
      entry_change db db' old new.

(** What one entry operation does to the store: nothing; or it rewrites
    one live, unpublished row; or it inserts a new draft of an existing
    content type under the next identifier. *)
Definition op_step (db db' : DB) : Prop :=
  db' = db
  ∨ (∃ old new,
       first_entry db (ID old) = Some old ∧ Status old ≠ StatusPublished ∧
       users db' = users db ∧ contentTypes db' = contentTypes db ∧
       entrySeq db' = entrySeq db ∧
       entries db' = <[ID old := new]> (entries db) ∧
       entry_change db db' old new)
  ∨ (∃ new,
       ID new = (entrySeq db + 1)%N ∧ Status new = StatusDraft ∧
       PublishedAt new = None ∧ DeletedAt new = None ∧
       is_Some (contentTypes db !! ContentTypeID new) ∧
       users db' = users db ∧ contentTypes db' = contentTypes db ∧
       entrySeq db' = ID new ∧
       entries db' = <[ID new := new]> (entries db) ∧
       history db' = history db).

(** Invariants of the store. *)
Definition statuses_known (db : DB) : Prop :=
  ∀ id e, entries db !! id = Some e → known_status (Status e).

Definition published_stamped (db : DB) : Prop :=
  ∀ id e, entries db !! id = Some e → Status e = StatusPublished →
          is_Some (PublishedAt e).

(** An entry is a draft, or in the status its newest history row records. *)
Definition status_tracks_history (db : DB) : Prop :=
  ∀ id e, entries db !! id = Some e →
    Status e = StatusDraft
    ∨ ∃ h, head (workflow_queries.GetWorkflowHistory db id) = Some h
           ∧ ToStatus h = Status e.

(** Every live entry belongs to a content type that can be found. *)
Definition entries_typed (db : DB) : Prop :=
  ∀ id e, entries db !! id = Some e → live e →
          is_Some (contentTypes db !! ContentTypeID e).

(** The verdict of the full validator on one field, read on the payload
    as submitted. *)
Definition field_verdict `{!Runtime} (db : DB) (ctID : N)
    (data : gmap string Value) (field : ContentField) : option error :=
  if content.absent_or_empty (data !! Name field) then
    if Required field then Some (ErrRequired (Name field)) else None
  else content.present_field_checks db ctID field (default VNil (data !! Name field)).

(** The payload with the configured default of every optional field that
    was submitted without a value. *)
Definition inject_defaults (submitted : gmap string Value)
    (fields : list ContentField) (data : gmap string Value) : gmap string Value :=
  fold_left
    (λ acc field,
       if content.absent_or_empty (submitted !! Name field)
          && negb (String.eqb (DefaultValue field) "")
       then <[Name field := VString (DefaultValue field)]> acc
       else acc)
    fields data.

(** The operations that perform no write before their last check.  The
    create and the update handler are not among them: for a multipart
    request they store the [MediaFile] row of every uploaded file while
    the request is assembled, ahead of the permission filter and the
    validation. *)
Definition checks_first (op : Op) : bool :=
  match op with
  | OpCreateEntryHandler _ _ _ | OpUpdateEntryHandler _ _ _ => false
  | _ => true
  end.

(** The rows a count of the statistics is about: live, of the content
    type, and in the status when one is given. *)
Definition counted (contentTypeID : N) (status : option string)
    (row : N * ContentEntry) : Prop :=
  DeletedAt row.2 = None ∧ ContentTypeID row.2 = contentTypeID
  ∧ match status with Some s => Status row.2 = s | None => True end.

#[global] Instance counted_dec contentTypeID status row :
  Decision (counted contentTypeID status row).
Proof. unfold counted. destruct status; apply _. Defined.

(** The number of such rows in the entries table. *)
Definition rows_counted (db : DB) (contentTypeID : N) (status : option string) : Z :=
  Z.of_nat (size (filter (counted contentTypeID status) (entries db))).

(** The verdict on the default of one field, where a default is
    injected: the checks of the field on the string [DefaultValue]. *)
Definition default_verdict `{!Runtime} (db : DB) (ctID : N)
    (data : gmap string Value) (field : ContentField) : option error :=
  if content.absent_or_empty (data !! Name field)
     && negb (String.eqb (DefaultValue field) "")
  then content.present_field_checks db ctID field (VString (DefaultValue field))
  else None.

(** The permission counts for the action on the content type: it is a
    ContentEntry permission for that action, and its content-type
    whitelist is empty or lists the content type. *)
Definition permission_applies (action : string) (contentTypeID : N)
    (perm : Permission) : Prop :=
  Module_ perm = "ContentEntry" ∧ Action perm = action ∧
  (ContentTypeIDs perm = [] ∨ In contentTypeID (ContentTypeIDs perm)).


(** ** Sample data with an audit trail *)

(** The sample store with the history rows that led entries 2 and 3 to
    their status. *)
Module audited.

Definition row (entryID : N) (from to : string) (by_ : N) : WorkflowHistory :=
  {| EntryID := entryID; FromStatus := from; ToStatus := to;
     ChangedBy := by_; Comment := "" |}.

Definition db : DB :=
  {| users := users sample.db;
     contentTypes := contentTypes sample.db;
     entries := entries sample.db;
     history := [row 2 "ready_for_approval" "approved" 2;
                 row 3 "ready_for_approval" "approved" 2;
                 row 3 "approved" "published" 2];
     entrySeq := entrySeq sample.db |}.

End audited.

(** ** Proof automation *)

(** Decide the comparisons of two string literals in the goal. *)
Ltac eval_literal_eqb :=
  repeat match goal with
         | |- context [String.eqb ?a ?b] =>
           let r := eval vm_compute in (String.eqb a b) in
           match r with
           | true => change (String.eqb a b) with true
           | false => change (String.eqb a b) with false
           end
         end.
(** * Properties *)

(** ** Workflow engine *)

Section workflow_facts.
Import workflow.

Lemma existsb_eqb_In (r : string) (l : list string) :
  existsb (λ role, String.eqb role r) l = true ↔ In r l.
Proof.
  rewrite existsb_exists. split.
  - intros (x & Hx & He). apply String.eqb_eq in He. by subst.
  - intros Hr. exists r. split; [done | apply String.eqb_refl].
Qed.

(** The nested map literal of the source and the printed table list the
    same triples. *)
Lemma isValidTransition_in_table f t r :
  isValidTransition f t r = true ↔ in_table f t r.
Proof.
  split.
  - unfold isValidTransition, transitions.
    unfold StatusDraft, StatusInReview, StatusReadyForApproval,
      StatusApproved, StatusPublished, StatusRejected.
    repeat (rewrite lookup_insert; case_decide; subst; cbn [mbind option_bind]);
      rewrite ?lookup_empty; cbn [mbind option_bind];
      repeat (rewrite lookup_insert; case_decide; subst; cbn [mbind option_bind]);
      rewrite ?lookup_empty; try discriminate;
      rewrite existsb_eqb_In; intros Hr;
      eexists; (split; [ | exact Hr ]); unfold transition_table; cbn [In]; tauto.
  - intros (roles & Hrow & Hr). unfold transition_table in Hrow. cbn [In] in Hrow.
    repeat (destruct Hrow as [Hrow | Hrow];
      [ injection Hrow as <- <- <-; cbn [In] in Hr;
        destruct Hr as [<- | [<- | []]]; vm_compute; reflexivity | ]).
    destruct Hrow.
Qed.

Lemma isValidTransition_not_in_table f t r :
  isValidTransition f t r = false ↔ ¬ in_table f t r.
Proof.
  rewrite <- isValidTransition_in_table. by destruct (isValidTransition f t r).
Qed.

(** C1.  With the entry and the caller (and the caller's role) found,
    [ChangeWorkflowStatus] succeeds exactly when (current status, target
    status, role name) is a triple of the transition table.  Outside the
    table it returns the invalid-transition error and the store is
    returned as it was: no entry is written, no history row is added.
    Inside the table the entry is saved with the target status and
    exactly one history row (from, to, actor, comment) is appended,
    whatever the comment. *)
Theorem changeStatus_iff_transition_table
    (db : DB) (now entryID userID : N) (toStatus comment : string)
    (entry : ContentEntry) (user : User) (role : Role) :
  first_entry db entryID = Some entry →
  first_user db userID = Some user →
  Role_ user = Some role →
  let out := ChangeWorkflowStatus db now entryID userID toStatus comment in
  (is_ok out.2 = true ↔ in_table (Status entry) toStatus (RoleName role)) ∧
  (¬ in_table (Status entry) toStatus (RoleName role) →
     out = (db, Err (ErrInvalidTransition (Status entry) toStatus (RoleName role)))) ∧
  (in_table (Status entry) toStatus (RoleName role) →
     ∃ entry', out.2 = Ok entry' ∧ Status entry' = toStatus ∧
       entries out.1 = <[ID entry := entry']> (entries db) ∧
       history out.1 =
         (history db ++ [{| EntryID := entryID; FromStatus := Status entry;
                            ToStatus := toStatus; ChangedBy := userID;
                            Comment := comment |}])%list).
Proof.
  intros Hentry Huser Hrole out. subst out.
  unfold ChangeWorkflowStatus. rewrite Hentry, Huser, Hrole.
  destruct (isValidTransition (Status entry) toStatus (RoleName role)) eqn:Hv;
    cbn [negb fst snd is_ok].
  - apply isValidTransition_in_table in Hv.
    split; [tauto |]. split; [tauto |].
    intros _. eexists. repeat split; reflexivity.
  - apply isValidTransition_not_in_table in Hv.
    split; [ split; [discriminate | tauto] |].
    split; [ reflexivity | tauto ].
Qed.

Lemma changeStatus_iff_transition_table_witness :
  let out := ChangeWorkflowStatus sample.db 50 1 1 "in_review" "" in
  (is_ok out.2 = true ↔ in_table "draft" "in_review" "editor") ∧
  (¬ in_table "draft" "in_review" "editor" →
     out = (sample.db, Err (ErrInvalidTransition "draft" "in_review" "editor"))) ∧
  (in_table "draft" "in_review" "editor" →
     ∃ entry', out.2 = Ok entry' ∧ Status entry' = "in_review" ∧
       entries out.1 = <[1%N := entry']> (entries sample.db) ∧
       history out.1 =
         (history sample.db ++ [{| EntryID := 1; FromStatus := "draft";
                            ToStatus := "in_review"; ChangedBy := 1;
                            Comment := "" |}])%list).
Proof.
  apply (changeStatus_iff_transition_table sample.db 50 1 1 "in_review" ""
           (sample.entry 1 1 {["title" := VString "first"]} "draft" None)
           (sample.user 1 sample.editor) sample.editor);
    vm_compute; reflexivity.
Defined.

End workflow_facts.

(** ** Permission resolver: the full-access test *)

Section full_access_facts.
Import middleware.

Lemma mark_perm_flag (m : gmap string (gmap string bool)) perm md act :
  flag (mark_perm m perm) md act
  = (λ b, b || matches_pair md act perm) <$> flag m md act.
Proof.
  unfold flag, mark_perm, matches_pair.
  destruct (String.eqb_spec (Module_ perm) md) as [Hm | Hm]; cycle 1.
  { cbn [andb]. transitivity (m !! md ≫= (λ actions, actions !! act)).
    - destruct (m !! Module_ perm) as [actions |]; [| done].
      destruct (actions !! Action perm); [| done].
      by rewrite lookup_insert_ne.
    - by destruct (m !! md ≫= (λ actions, actions !! act)) as [[] |]. }
  subst md. cbn [andb].
  destruct (m !! Module_ perm) as [actions |] eqn:Hactions;
    cbn [mbind option_bind fmap option_fmap option_map]; [| by rewrite Hactions].
  destruct (actions !! Action perm) as [b0 |] eqn:Hb0.
  - rewrite lookup_insert_eq. cbn [mbind option_bind].
    destruct (String.eqb_spec (Action perm) act) as [Ha | Ha].
    + subst act. rewrite lookup_insert_eq, Hb0. by destruct b0.
    + rewrite lookup_insert_ne by done.
      by destruct (actions !! act) as [[] |].
  - rewrite Hactions. cbn [mbind option_bind].
    destruct (String.eqb_spec (Action perm) act) as [Ha | Ha].
    + subst act. by rewrite Hb0.
    + by destruct (actions !! act) as [[] |].
Qed.

Lemma fold_mark_perm_flag perms (m : gmap string (gmap string bool)) md act :
  flag (fold_left mark_perm perms m) md act
  = (λ b, b || existsb (matches_pair md act) perms) <$> flag m md act.
Proof.
  revert m. induction perms as [| perm perms IH]; intros m; cbn [fold_left existsb].
  - by destruct (flag m md act) as [[] |].
  - rewrite IH, mark_perm_flag.
    destruct (flag m md act) as [b |]; [| done].
    cbn [fmap option_fmap option_map]. by rewrite orb_assoc.
Qed.

Lemma all_marked_flags (m : gmap string (gmap string bool)) :
  all_marked m = true ↔ ∀ md act b, flag m md act = Some b → b = true.
Proof.
  unfold all_marked. rewrite bool_decide_eq_true. split.
  - intros Hall md act b Hb. unfold flag in Hb.
    destruct (m !! md) as [actions |] eqn:Hm; [| done].
    exact (Hall md actions Hm act b Hb).
  - intros Hall md actions Hm act b Hb.
    apply (Hall md act). unfold flag. by rewrite Hm.
Qed.

Lemma requiredPerms0_tracked md act b :
  flag requiredPerms0 md act = Some b → b = false ∧ In (md, act) twelve_permissions.
Proof.
  unfold flag, requiredPerms0, four_actions.
  repeat (rewrite lookup_insert; case_decide; subst; cbn [mbind option_bind]);
    rewrite ?lookup_empty; cbn [mbind option_bind];
    repeat (rewrite lookup_insert; case_decide; subst; cbn [mbind option_bind]);
    rewrite ?lookup_empty; try discriminate;
    intros [= <-]; (split; [done |]); vm_compute; tauto.
Qed.

Lemma requiredPerms0_twelve md act :
  In (md, act) twelve_permissions → flag requiredPerms0 md act = Some false.
Proof.
  intros Hin. vm_compute in Hin.
  repeat (destruct Hin as [Hin | Hin]; [ injection Hin as <- <-; vm_compute; reflexivity | ]).
  destruct Hin.
Qed.

Lemma existsb_matches_pair_holds role ma :
  existsb (matches_pair ma.1 ma.2) (Permissions role) = true ↔ holds role ma.
Proof.
  rewrite existsb_exists. unfold holds, matches_pair.
  split; intros (perm & Hin & H); exists perm; (split; [done |]).
  - apply andb_true_iff in H as [H1 H2].
    by apply String.eqb_eq in H1, H2.
  - destruct H as [-> ->]. by rewrite !String.eqb_refl.
Qed.

(** The completeness loop decides exactly "all twelve pairs are held". *)
Lemma all_marked_twelve role :
  all_marked (fold_left mark_perm (Permissions role) requiredPerms0) = true
  ↔ ∀ ma, In ma twelve_permissions → holds role ma.
Proof.
  rewrite all_marked_flags. split.
  - intros Hall [md act] Hin. apply existsb_matches_pair_holds. cbn [fst snd].
    pose proof (fold_mark_perm_flag (Permissions role) requiredPerms0 md act) as Hf.
    rewrite (requiredPerms0_twelve _ _ Hin) in Hf. cbn in Hf.
    exact (Hall _ _ _ Hf).
  - intros Hall md act b. rewrite fold_mark_perm_flag.
    destruct (flag requiredPerms0 md act) as [b0 |] eqn:Hb0; [| done].
    apply requiredPerms0_tracked in Hb0 as [-> Hin].
    cbn. intros [= <-].
    by apply (existsb_matches_pair_holds role (md, act)), Hall.
Qed.

Lemma IsFullAccessRole_twelve user role :
  Role_ user = Some role →
  (∀ ma, In ma twelve_permissions → holds role ma) →
  IsFullAccessRole user = true.
Proof.
  intros Hrole Hall. unfold IsFullAccessRole. rewrite Hrole.
  destruct (String.eqb (RoleName role) "admin"); [done |].
  by apply all_marked_twelve.
Qed.

(** C5.  A role holding the four ContentEntry, four Media and four SEO
    actions passes the completeness check, and [FilterFieldsByPermission]
    then hands back the submitted map itself, for every action and
    content type. *)
Theorem full_access_returns_input
    (db : DB) (userID : N) (user : User) (role : Role)
    (action : string) (data : gmap string Value) (contentTypeID : N) :
  first_user db userID = Some user →
  Role_ user = Some role →
  (∀ ma, In ma twelve_permissions → holds role ma) →
  FilterFieldsByPermission db userID action data contentTypeID = Ok data.
Proof.
  intros Huser Hrole Hall. unfold FilterFieldsByPermission.
  by rewrite Huser, (IsFullAccessRole_twelve user role Hrole Hall).
Qed.

Lemma full_access_returns_input_witness :
  FilterFieldsByPermission sample.db 6 "update"
    {["title" := VString "t"; "unlisted" := VBool true]} 1
  = Ok {["title" := VString "t"; "unlisted" := VBool true]}.
Proof.
  apply (full_access_returns_input sample.db 6 (sample.user 6 sample.superuser)
           sample.superuser);
    [ reflexivity | reflexivity | ].
  intros ma Hin. apply existsb_matches_pair_holds.
  vm_compute in Hin.
  repeat (destruct Hin as [Hin | Hin]; [ subst ma; vm_compute; reflexivity | ]).
  destruct Hin.
Defined.

(** C10.  A user whose role is named [admin] is full-access whatever
    permissions the role holds (none at all included):
    [FilterFieldsByPermission] returns the input map and
    [CanAccessField] answers true for every field and content type. *)
Theorem admin_name_is_full_access
    (db : DB) (userID : N) (user : User) (role : Role) :
  first_user db userID = Some user →
  Role_ user = Some role →
  RoleName role = "admin" →
  IsFullAccessRole user = true ∧
  (∀ action data contentTypeID,
     FilterFieldsByPermission db userID action data contentTypeID = Ok data) ∧
  (∀ fieldName contentTypeID,
     CanAccessField db userID fieldName contentTypeID = Ok true).
Proof.
  intros Huser Hrole Hname.
  assert (Hfull : IsFullAccessRole user = true).
  { unfold IsFullAccessRole. by rewrite Hrole, Hname. }
  split; [done |]. split.
  - intros. unfold FilterFieldsByPermission. by rewrite Huser, Hfull.
  - intros. unfold CanAccessField. by rewrite Huser, Hrole, Hfull.
Qed.

Lemma admin_name_is_full_access_witness :
  Permissions sample.admin = [] ∧
  IsFullAccessRole (sample.user 3 sample.admin) = true ∧
  (∀ action data contentTypeID,
     FilterFieldsByPermission sample.db 3 action data contentTypeID = Ok data) ∧
  (∀ fieldName contentTypeID,
     CanAccessField sample.db 3 fieldName contentTypeID = Ok true).
Proof.
  split; [reflexivity |].
  apply (admin_name_is_full_access sample.db 3 (sample.user 3 sample.admin)
           sample.admin); reflexivity.
Defined.

End full_access_facts.

(** ** Permission resolver: field scopes *)

Section field_scope_facts.
Import middleware.

Lemma first_field_named_Some k fields field :
  first_field_named k fields = Some field → In field fields ∧ Name field = k.
Proof.
  induction fields as [| f fields IH]; cbn [first_field_named]; [done |].
  destruct (String.eqb_spec (Name f) k) as [Hk | Hk].
  - intros [= <-]. split; [by left | done].
  - intros H. destruct (IH H) as [Hin Hname]. split; [by right | done].
Qed.

Lemma first_field_named_None k fields :
  first_field_named k fields = None ↔ ¬ ∃ field, In field fields ∧ Name field = k.
Proof.
  induction fields as [| f fields IH]; cbn [first_field_named].
  - split; [intros _ (? & [] & _) | done].
  - destruct (String.eqb_spec (Name f) k) as [Hk | Hk].
    + split; [done |]. intros Hno. destruct Hno. exists f. split; [by left | done].
    + rewrite IH. split; intros Hno (g & Hin & Hg); apply Hno.
      * destruct Hin as [<- | Hin]; [done |]. by exists g.
      * exists g. split; [by right | done].
Qed.

Lemma first_field_named_is_Some ct k :
  is_Some (first_field_named k (Fields ct ++ SEOFields ct)) ↔ names_field ct k.
Proof.
  unfold names_field.
  destruct (first_field_named k (Fields ct ++ SEOFields ct)) as [f |] eqn:Hf.
  - split; [| by eauto]. intros _. exists f. by apply first_field_named_Some.
  - split; [by intros [? [=]] |]. intros Hex.
    by apply first_field_named_None in Hf.
Qed.

(** Under scope [all] (or the unset scope it defaults from) the loop
    keeps the submitted keys that name a field, and only those. *)
Lemma filter_all_scope_dom perm ct (data : gmap string Value) k :
  FieldScope perm = "all" ∨ FieldScope perm = "" →
  k ∈ dom (filter_with_permission perm ct data) ↔ k ∈ dom data ∧ names_field ct k.
Proof.
  intros Hscope. unfold filter_with_permission.
  assert ((if String.eqb (FieldScope perm) "" then "all" else FieldScope perm) = "all")
    as -> by (destruct Hscope as [-> | ->]; reflexivity).
  change (String.eqb "all" "custom") with false. cbn match.
  rewrite !elem_of_dom, <- first_field_named_is_Some.
  unfold is_Some. setoid_rewrite map_lookup_filter_Some.
  unfold keep_by_scope. cbn [fst].
  split.
  - intros (v & Hv & Hkeep).
    destruct (first_field_named k (Fields ct ++ SEOFields ct)); [eauto | done].
  - intros ((v & Hv) & (f & Hf)). exists v. split; [done |]. by rewrite Hf.
Qed.

(** Whatever the scope, filtering only ever drops entries. *)
Lemma filter_with_permission_subseteq perm ct (data : gmap string Value) :
  filter_with_permission perm ct data ⊆ data.
Proof.
  unfold filter_with_permission.
  destruct (String.eqb _ "custom"); [| apply map_filter_subseteq].
  destruct (AllowedFields perm), (DeniedFields perm); apply map_filter_subseteq.
Qed.

Lemma FilterFieldsByPermission_subseteq db userID action data contentTypeID m :
  FilterFieldsByPermission db userID action data contentTypeID = Ok m → m ⊆ data.
Proof.
  unfold FilterFieldsByPermission.
  destruct (first_user db userID) as [user |]; [| done].
  destruct (IsFullAccessRole user); [by intros [= <-] |].
  destruct (Role_ user) as [role |]; [| done].
  destruct (select_permission _ _ _) as [perm |]; [| done].
  destruct (first_content_type db contentTypeID) as [ct |]; [| done].
  intros [= <-]. apply filter_with_permission_subseteq.
Qed.

(** With scope [seo_only] or [non_seo_only] every kept key names a field. *)
Lemma filter_seo_scopes_named perm ct (data : gmap string Value) k :
  FieldScope perm = "seo_only" ∨ FieldScope perm = "non_seo_only" →
  k ∈ dom (filter_with_permission perm ct data) → names_field ct k.
Proof.
  intros Hscope. unfold filter_with_permission.
  assert (String.eqb (if String.eqb (FieldScope perm) "" then "all"
                      else FieldScope perm) "custom" = false) as ->
    by (destruct Hscope as [-> | ->]; reflexivity).
  rewrite elem_of_dom, <- first_field_named_is_Some.
  intros (v & Hv). apply map_lookup_filter_Some in Hv as [_ Hkeep].
  unfold keep_by_scope in Hkeep. cbn [fst] in Hkeep.
  destruct (first_field_named k (Fields ct ++ SEOFields ct)); [eauto | done].
Qed.

(** C2 as the code has it.  For a role that is not full-access and whose
    applicable permission has scope [all], the keys returned are the
    submitted keys that name a field of the content type (regular or
    SEO).  This is a superset of the keys returned to any other caller
    under [seo_only] or [non_seo_only], and of those keys returned under
    any scope ([custom] included) that name a field of the content type. *)
Theorem all_scope_superset_on_field_keys
    (db : DB) (action : string) (contentTypeID : N) (ct : ContentType)
    (data : gmap string Value)
    (uid_all : N) (u_all : User) (r_all : Role) (p_all : Permission)
    (uid_s : N) (m_s : gmap string Value) :
  first_content_type db contentTypeID = Some ct →
  first_user db uid_all = Some u_all →
  IsFullAccessRole u_all = false →
  Role_ u_all = Some r_all →
  select_permission (Permissions r_all) action contentTypeID = Some p_all →
  FieldScope p_all = "all" ∨ FieldScope p_all = "" →
  FilterFieldsByPermission db uid_s action data contentTypeID = Ok m_s →
  ∃ m_all,
    FilterFieldsByPermission db uid_all action data contentTypeID = Ok m_all ∧
    (∀ k, k ∈ dom m_all ↔ k ∈ dom data ∧ names_field ct k) ∧
    (∀ k, k ∈ dom m_s → names_field ct k → k ∈ dom m_all) ∧
    (∀ u_s r_s p_s,
       first_user db uid_s = Some u_s →
       IsFullAccessRole u_s = false →
       Role_ u_s = Some r_s →
       select_permission (Permissions r_s) action contentTypeID = Some p_s →
       FieldScope p_s = "seo_only" ∨ FieldScope p_s = "non_seo_only" →
       dom m_s ⊆ dom m_all).
Proof.
  intros Hct Huser Hfull Hrole Hsel Hscope Hs.
  exists (filter_with_permission p_all ct data).
  assert (Hdom : ∀ k, k ∈ dom (filter_with_permission p_all ct data)
                      ↔ k ∈ dom data ∧ names_field ct k)
    by (intros k; by apply filter_all_scope_dom).
  assert (Hsub : dom m_s ⊆ dom data)
    by (apply subseteq_dom; by eapply FilterFieldsByPermission_subseteq).
  split; [| split; [done | split]].
  - unfold FilterFieldsByPermission. by rewrite Huser, Hfull, Hrole, Hsel, Hct.
  - intros k Hk Hnamed. apply Hdom. split; [by apply Hsub | done].
  - intros u_s r_s p_s Hu_s Hfull_s Hr_s Hsel_s Hscope_s k Hk.
    apply Hdom. split; [by apply Hsub |].
    revert Hs Hk. unfold FilterFieldsByPermission.
    rewrite Hu_s, Hfull_s, Hr_s, Hsel_s, Hct. intros [= <-].
    by apply filter_seo_scopes_named.
Qed.

Lemma all_scope_superset_on_field_keys_witness :
  ∃ m_all,
    FilterFieldsByPermission sample.db 5 "update"
      {["title" := VString "t"; "meta_title" := VString "m"]} 1 = Ok m_all ∧
    (∀ k, k ∈ dom m_all ↔
          k ∈ dom ({["title" := VString "t"; "meta_title" := VString "m"]}
                     : gmap string Value)
          ∧ names_field (preload_fields sample.article) k) ∧
    (∀ k, k ∈ dom ({["meta_title" := VString "m"]} : gmap string Value) →
          names_field (preload_fields sample.article) k → k ∈ dom m_all) ∧
    (∀ u_s r_s p_s,
       first_user sample.db 7 = Some u_s →
       IsFullAccessRole u_s = false →
       Role_ u_s = Some r_s →
       select_permission (Permissions r_s) "update" 1 = Some p_s →
       FieldScope p_s = "seo_only" ∨ FieldScope p_s = "non_seo_only" →
       dom ({["meta_title" := VString "m"]} : gmap string Value) ⊆ dom m_all).
Proof.
  apply (all_scope_superset_on_field_keys sample.db "update" 1 (preload_fields sample.article)
           {["title" := VString "t"; "meta_title" := VString "m"]}
           5 (sample.user 5 sample.reviewer_all) sample.reviewer_all
           (sample.perm "ContentEntry" "update" "all" ["secret"]) 7);
    first [ reflexivity | by left | vm_compute; reflexivity ].
Defined.

(** C2 as stated fails: two roles that are not full-access and differ in
    the field scope only; the [custom] one (deny list [secret]) keeps the
    submitted key [extra], which names no field of the content type,
    while the [all] one drops it. *)
Lemma all_scope_not_superset_of_custom :
  IsFullAccessRole (sample.user 5 sample.reviewer_all) = false ∧
  IsFullAccessRole (sample.user 4 sample.reviewer_custom) = false ∧
  ∃ m_all m_custom,
    FilterFieldsByPermission sample.db 5 "update" {["extra" := VString "x"]} 1
      = Ok m_all ∧
    FilterFieldsByPermission sample.db 4 "update" {["extra" := VString "x"]} 1
      = Ok m_custom ∧
    "extra" ∈ dom m_custom ∧ "extra" ∉ dom m_all.
Proof.
  split; [vm_compute; reflexivity |]. split; [vm_compute; reflexivity |].
  exists ∅, {["extra" := VString "x"]}.
  split; [vm_compute; reflexivity |]. split; [vm_compute; reflexivity |].
  rewrite dom_singleton_L, dom_empty_L. set_solver.
Qed.

End field_scope_facts.

(** ** Field validator *)

Section validator_facts.
Context {rt : Runtime}.
Import content.

(** C3, evaluated.  [validateString] measures [len(strVal)], the byte
    length: against a limit of three characters the word "héé"
    (three runes, five bytes) is refused with the message "must not
    exceed 3 characters". *)
Theorem validateString_counts_bytes :
  rune_count sample.hee = 3 ∧
  len sample.hee = 5 ∧
  MaxLength sample.short_title = Some 3 ∧
  validateString sample.short_title (VString sample.hee)
    = Some (ErrMaxLength "title" 3).
Proof. repeat split. Qed.

(** The two type switches of the package agree. *)
Lemma validateFieldByType_enhanced field value :
  validateFieldByType field value = enhanced_type_switch field value.
Proof. reflexivity. Qed.

Lemma validate_update_loop_None db ctID fieldMap entryID visited :
  validate_update_loop db ctID fieldMap entryID visited = None
  ↔ ∀ k v, In (k, v) visited →
           validate_update_entry db ctID fieldMap entryID k v = None.
Proof.
  induction visited as [| [k0 v0] visited IH]; cbn [validate_update_loop In].
  - split; [by intros _ ? ? [] | done].
  - destruct (validate_update_entry db ctID fieldMap entryID k0 v0) eqn:H0.
    + split; [done |]. intros Hall. rewrite <- H0. apply Hall. by left.
    + rewrite IH. split.
      * intros Hall k v [[= <- <-] | Hin]; [done | by apply Hall].
      * intros Hall k v Hin. apply Hall. by right.
Qed.

Lemma validate_update_loop_Some db ctID fieldMap entryID visited e :
  validate_update_loop db ctID fieldMap entryID visited = Some e →
  ∃ k v, In (k, v) visited
         ∧ validate_update_entry db ctID fieldMap entryID k v = Some e.
Proof.
  induction visited as [| [k0 v0] visited IH]; cbn [validate_update_loop In]; [done |].
  destruct (validate_update_entry db ctID fieldMap entryID k0 v0) eqn:H0.
  - intros [= <-]. exists k0, v0. split; [by left | done].
  - intros H. destruct (IH H) as (k & v & Hin & Hk). exists k, v. split; [by right | done].
Qed.

(** Whatever order [range] picks, it visits exactly the entries of the map. *)
Lemma range_order_In (m : gmap string Value) k v :
  In (k, v) (range_order m) ↔ m !! k = Some v.
Proof.
  rewrite <- list_elem_of_In, (range_order_perm m). apply elem_of_map_to_list.
Qed.

Lemma fieldMap_of_acc fields (acc : gmap string ContentField) k :
  fold_left (λ (fieldMap : gmap string ContentField) field,
               <[Name field := field]> fieldMap) fields acc !! k
  = match fieldMap_of fields !! k with
    | Some f => Some f
    | None => acc !! k
    end.
Proof.
  unfold fieldMap_of.
  revert acc. induction fields as [| f fields IH]; intros acc; cbn [fold_left].
  - by rewrite lookup_empty.
  - rewrite (IH (<[Name f := f]> acc)), (IH (<[Name f := f]> ∅)).
    destruct (fold_left _ fields ∅ !! k); [done |].
    rewrite !lookup_insert. case_decide; [done | by rewrite lookup_empty].
Qed.

Lemma fieldMap_of_Some fields k field :
  fieldMap_of fields !! k = Some field → In field fields ∧ Name field = k.
Proof.
  induction fields as [| f fields IH].
  - unfold fieldMap_of. cbn [fold_left]. by rewrite lookup_empty.
  - unfold fieldMap_of at 1. cbn [fold_left]. rewrite fieldMap_of_acc.
    destruct (fieldMap_of fields !! k) as [g |] eqn:Hg.
    + intros [= <-]. destruct (IH eq_refl) as [Hin Hname]. split; [by right | done].
    + rewrite lookup_insert. case_decide as Hk; [| by rewrite lookup_empty].
      intros [= <-]. split; [by left | done].
Qed.

Lemma fieldMap_of_None fields k :
  fieldMap_of fields !! k = None ↔ ¬ ∃ field, In field fields ∧ Name field = k.
Proof.
  induction fields as [| f fields IH].
  - unfold fieldMap_of. cbn [fold_left].
    rewrite lookup_empty. split; [by intros _ (? & [] & _) | done].
  - unfold fieldMap_of at 1. cbn [fold_left]. rewrite fieldMap_of_acc.
    destruct (fieldMap_of fields !! k) as [g |] eqn:Hg.
    + split; [done |]. intros Hno. destruct Hno.
      destruct (fieldMap_of_Some fields k g Hg) as [Hin Hname].
      exists g. split; [by right | done].
    + rewrite lookup_insert. case_decide as Hk.
      * split; [done |]. intros Hno. destruct Hno. exists f. split; [by left | done].
      * rewrite lookup_empty. split; [| done]. intros _ (g & [<- | Hin] & Hname); [done |].
        apply (proj1 IH eq_refl). by exists g.
Qed.

Lemma validateFieldByType_not_unknown field value k :
  validateFieldByType field value ≠ Some (ErrUnknownField k).
Proof.
  unfold validateFieldByType, validateString, validateEmail, validateURL,
    validateNumber, validateBoolean, validateDate, validateMedia.
  intros Heq. repeat case_match; simplify_eq.
Qed.

Lemma validate_update_entry_unknown db ctID fieldMap entryID k v k' :
  validate_update_entry db ctID fieldMap entryID k v = Some (ErrUnknownField k') →
  k' = k ∧ HasSuffix k "_media_id" = false ∧ fieldMap !! k = None.
Proof.
  unfold validate_update_entry.
  destruct (HasSuffix k "_media_id"); [done |].
  destruct (fieldMap !! k) as [field |]; [| by intros [= <-]].
  destruct (is_empty_value v); [by destruct (Required field) |].
  pose proof (validateFieldByType_not_unknown field v k') as Hty.
  destruct (validateFieldByType field v); [by intros [= ->] |].
  destruct (Unique field); [| done].
  unfold checkUniqueness.
  destruct (negb (uniqueness_query_ok _ _)); [done |]. by destruct (0 <? _)%nat.
Qed.

(** C4 as the code has it.  [ValidatePartialUpdate] looks at the entries
    present in the map and at nothing else: it accepts exactly when every
    present entry passes, and an error it reports is the verdict on some
    present entry (so an omitted required field never causes a
    rejection).  The verdict on a present entry whose key does not end
    in [_media_id] is: [UnknownField] when no field of the content type
    has that name; otherwise, for the field of that name, the
    required-and-empty error when the value is nil or the empty string
    and the field is required, acceptance when it is empty and not
    required, and else the per-type check of the full validator followed
    by the uniqueness query that excludes the entry being updated.  A
    key ending in [_media_id] is passed over, whether or not it names a
    field. *)
Theorem partial_update_contract
    (db : DB) (ct : ContentType) (updatedFields : gmap string Value) (entryID : N) :
  let verdict := validate_update_entry db (CtID ct)
                   (fieldMap_of (Fields ct ++ SEOFields ct)) entryID in
  (ValidatePartialUpdate db ct updatedFields entryID = None
     ↔ ∀ k v, updatedFields !! k = Some v → verdict k v = None) ∧
  (∀ e, ValidatePartialUpdate db ct updatedFields entryID = Some e →
        ∃ k v, updatedFields !! k = Some v ∧ verdict k v = Some e) ∧
  (∀ k v, HasSuffix k "_media_id" = true → verdict k v = None) ∧
  (∀ k v, HasSuffix k "_media_id" = false → ¬ names_field ct k →
          verdict k v = Some (ErrUnknownField k)) ∧
  (∀ k v, HasSuffix k "_media_id" = false → names_field ct k →
     ∃ field, In field (Fields ct ++ SEOFields ct) ∧ Name field = k ∧
       verdict k v =
         if is_empty_value v
         then (if Required field then Some (ErrRequiredEmpty k) else None)
         else match enhanced_type_switch field v with
              | Some e => Some e
              | None => if Unique field
                        then checkUniqueness db (CtID ct) k v (Some entryID)
                        else None
              end).
Proof.
  intros verdict. subst verdict. unfold ValidatePartialUpdate.
  split; [| split; [| split; [| split]]].
  - rewrite validate_update_loop_None. by setoid_rewrite range_order_In.
  - intros e He. apply validate_update_loop_Some in He as (k & v & Hin & Hk).
    exists k, v. by rewrite <- range_order_In.
  - intros k v Hsuffix. unfold validate_update_entry. by rewrite Hsuffix.
  - intros k v Hsuffix Hno. unfold validate_update_entry. rewrite Hsuffix.
    by apply fieldMap_of_None in Hno as ->.
  - intros k v Hsuffix Hnamed. unfold validate_update_entry. rewrite Hsuffix.
    destruct (fieldMap_of (Fields ct ++ SEOFields ct) !! k) as [field |] eqn:Hfield.
    + destruct (fieldMap_of_Some _ _ _ Hfield) as [Hin Hname].
      exists field. rewrite Hname. by rewrite validateFieldByType_enhanced.
    + by apply fieldMap_of_None in Hfield.
Qed.

Lemma absent_or_empty_false (data : gmap string Value) k :
  absent_or_empty (data !! k) = false
  ↔ ∃ v, data !! k = Some v ∧ is_empty_value v = false.
Proof.
  unfold absent_or_empty. destruct (data !! k) as [v |].
  - split; [by eauto | by intros (? & [= <-] & ?)].
  - split; [done | by intros (? & [=] & _)].
Qed.

(** What a successful run establishes: values that were present and
    non-empty are kept; a field still without a value is optional and has
    no default; every value that was present and non-empty passed the
    checks of each field of its name. *)
Lemma validate_fields_success db ctID fields :
  ∀ data data',
    validate_fields db ctID fields data = (data', None) →
    (∀ k v, data !! k = Some v → is_empty_value v = false → data' !! k = Some v) ∧
    (∀ f, In f fields → absent_or_empty (data' !! Name f) = true →
          Required f = false ∧ DefaultValue f = "") ∧
    (∀ f v, In f fields → data !! Name f = Some v → is_empty_value v = false →
            present_field_checks db ctID f v = None).
Proof.
  induction fields as [| f fields IH]; intros data data'; cbn [validate_fields].
  { intros [= <-]. by repeat split. }
  destruct (absent_or_empty (data !! Name f)) eqn:Hmissing.
  - destruct (Required f) eqn:Hreq; [done |].
    assert (Hfresh : ∀ k v, data !! k = Some v → is_empty_value v = false →
                            k ≠ Name f).
    { intros k v Hk Hv ->. unfold absent_or_empty in Hmissing.
      rewrite Hk in Hmissing. congruence. }
    destruct (String.eqb_spec (DefaultValue f) "") as [Hdef | Hdef]; cbn [negb].
    + intros Hrun. destruct (IH _ _ Hrun) as (Hkeep & Hopt & Hchk).
      split; [done |]. split.
      * intros g [<- | Hg]; [done | by apply Hopt].
      * intros g v [<- | Hg] Hv Hne; [| by eapply Hchk].
        by destruct (Hfresh _ _ Hv Hne).
    + intros Hrun. destruct (IH _ _ Hrun) as (Hkeep & Hopt & Hchk).
      assert (Hinjected : data' !! Name f = Some (VString (DefaultValue f))).
      { apply Hkeep; [apply lookup_insert_eq |].
        cbn. by apply String.eqb_neq. }
      split; [| split].
      * intros k v Hk Hv. apply Hkeep; [| done].
        rewrite lookup_insert_ne; [done |]. intros Heq. by apply (Hfresh k v).
      * intros g [<- | Hg]; [| by apply Hopt].
        rewrite Hinjected. cbn. intros Hempty.
        by apply String.eqb_eq in Hempty.
      * intros g v [<- | Hg] Hv Hne; [by destruct (Hfresh _ _ Hv Hne) |].
        apply Hchk; [done | | done].
        rewrite lookup_insert_ne; [done |]. intros Heq.
        apply (Hfresh (Name g) v Hv Hne). done.
  - apply absent_or_empty_false in Hmissing as (v0 & Hv0 & Hne0).
    rewrite Hv0. change (default VNil (Some v0)) with v0.
    destruct (present_field_checks db ctID f v0) eqn:Hchk0; [done |].
    intros Hrun. destruct (IH _ _ Hrun) as (Hkeep & Hopt & Hchk).
    split; [done |]. split.
    + intros g [<- | Hg]; [| by apply Hopt].
      rewrite (Hkeep _ _ Hv0 Hne0). cbn. congruence.
    + intros g v [<- | Hg] Hv Hne; [| by eapply Hchk]. congruence.
Qed.

(** On a payload in which every field without a value is optional and
    has no default, the loop writes nothing; it succeeds when moreover
    every value present passes the checks. *)
Lemma validate_fields_settled db ctID fields (data : gmap string Value) :
  (∀ f, In f fields → absent_or_empty (data !! Name f) = true →
        Required f = false ∧ DefaultValue f = "") →
  (validate_fields db ctID fields data).1 = data ∧
  ((∀ f v, In f fields → data !! Name f = Some v → is_empty_value v = false →
           present_field_checks db ctID f v = None) →
   validate_fields db ctID fields data = (data, None)).
Proof.
  induction fields as [| f fields IH]; intros Hopt; cbn [validate_fields].
  { done. }
  destruct IH as [IH1 IH2]; [intros g Hg; apply Hopt; by right |].
  destruct (absent_or_empty (data !! Name f)) eqn:Hmissing.
  - destruct (Hopt f (or_introl eq_refl) Hmissing) as [-> ->]. cbn.
    split; [done |]. intros Hchk. apply IH2. intros g v Hg. apply Hchk. by right.
  - apply absent_or_empty_false in Hmissing as (v0 & Hv0 & Hne0).
    rewrite Hv0. change (default VNil (Some v0)) with v0. split.
    + by destruct (present_field_checks db ctID f v0).
    + intros Hchk. rewrite (Hchk f v0 (or_introl eq_refl) Hv0 Hne0).
      apply IH2. intros g v Hg. apply Hchk. by right.
Qed.

(** C9 as the code has it.  A key ending in [_media_id] goes round the
    permission filter only when the filter has kept at least one key:
    both handlers run the filter first and answer 403 on an empty
    result, before anything is copied.  Otherwise the create handler
    hands [CreateContentEntry] a payload that carries the key with its
    raw value next to what the filter kept, and a created entry stores
    it; the update handler succeeds as soon as the keys the filter kept
    pass the partial validation, and stores the key with its raw value;
    and [ValidatePartialUpdate] passes over the key and never reports it
    as an unknown field. *)
Theorem media_id_keys_bypass_unless_refused
    (db : DB) (userID : N) (data : gmap string Value) (k : string) (v : Value) :
  HasSuffix k "_media_id" = true →
  data !! k = Some v →
  (∀ contentTypeID filteredData,
     is_Some (first_content_type db contentTypeID) →
     middleware.FilterFieldsByPermission db userID "create" data contentTypeID
       = Ok filteredData →
     (size filteredData = 0%nat →
      CreateEntryHandler db userID contentTypeID data
        = (db, Err ErrNoPermittedFields)) ∧
     (size filteredData ≠ 0%nat →
      ∃ payload,
        payload !! k = Some v ∧
        (∀ k', HasSuffix k' "_media_id" = false →
               payload !! k' = filteredData !! k') ∧
        CreateEntryHandler db userID contentTypeID data
          = CreateContentEntry db contentTypeID userID payload ∧
        (∀ db' created,
           CreateEntryHandler db userID contentTypeID data = (db', Ok created) →
           is_empty_value v = false → Data created !! k = Some v))) ∧
  (∀ entryID entry ct filteredData,
     first_entry db entryID = Some entry →
     Status entry ≠ StatusPublished →
     first_content_type db (ContentTypeID entry) = Some ct →
     middleware.FilterFieldsByPermission db userID "update" data
       (ContentTypeID entry) = Ok filteredData →
     (size filteredData = 0%nat →
      UpdateEntryHandler db userID entryID data
        = (db, Err ErrNoPermittedFields)) ∧
     (size filteredData ≠ 0%nat →
      (∀ k' v', filteredData !! k' = Some v' →
                HasSuffix k' "_media_id" = false →
                validate_update_entry db (CtID ct)
                  (fieldMap_of (Fields ct ++ SEOFields ct)) entryID k' v' = None) →
      ∃ db' entry',
        UpdateEntryHandler db userID entryID data = (db', Ok entry') ∧
        Data entry' !! k = Some v ∧ entries db' !! ID entry' = Some entry')) ∧
  (∀ ct updatedFields entryID,
     validate_update_entry db (CtID ct) (fieldMap_of (Fields ct ++ SEOFields ct))
                           entryID k v = None ∧
     ValidatePartialUpdate db ct updatedFields entryID ≠ Some (ErrUnknownField k)).
Proof.
  intros Hsuffix Hk.
  assert (Hrestore : ∀ filteredData, restore_media_ids data filteredData !! k = Some v).
  { intros filteredData. unfold restore_media_ids.
    apply lookup_union_Some_l, map_lookup_filter_Some. by split. }
  assert (Hothers : ∀ filteredData k',
            HasSuffix k' "_media_id" = false →
            restore_media_ids data filteredData !! k' = filteredData !! k').
  { intros filteredData k' Hk'. unfold restore_media_ids.
    rewrite lookup_union_r; [done |].
    apply map_lookup_filter_None. right. intros v' _. unfold is_media_id_entry.
    cbn [fst]. by rewrite Hk'. }
  split; [| split].
  - intros contentTypeID filteredData [ct Hct] Hfilter.
    unfold CreateEntryHandler. rewrite Hct, Hfilter. split.
    + by intros ->.
    + intros Hsize. apply Nat.eqb_neq in Hsize as ->.
      exists (restore_media_ids data filteredData).
      split; [apply Hrestore |]. split; [apply Hothers |]. split; [done |].
      intros db' created. unfold CreateContentEntry. rewrite Hct.
      destruct (ValidateContentEntryEnhanced _ _ _) as [data' [e |]] eqn:Hrun;
        [done |].
      intros [= <- <-] Hne. cbn [Data].
      unfold ValidateContentEntryEnhanced in Hrun.
      destruct (validate_fields_success _ _ _ _ _ Hrun) as (Hkeep & _ & _).
      by apply Hkeep.
  - intros entryID entry ct filteredData Hentry Hstatus Hct Hfilter.
    unfold UpdateEntryHandler. rewrite Hentry.
    apply String.eqb_neq in Hstatus as ->. rewrite Hct.
    assert (Hdata : (size data =? 0)%nat = false).
    { apply Nat.eqb_neq. intros Hsize. apply map_size_empty_iff in Hsize.
      by rewrite Hsize, lookup_empty in Hk. }
    rewrite Hdata, Hfilter. split.
    + by intros ->.
    + intros Hsize Hvalid. apply Nat.eqb_neq in Hsize as ->.
      assert (Hpass : ValidatePartialUpdate db ct
                        (restore_media_ids data filteredData) entryID = None).
      { unfold ValidatePartialUpdate. apply validate_update_loop_None.
        intros k' v' Hin. apply range_order_In in Hin.
        destruct (HasSuffix k' "_media_id") eqn:Hk'.
        - unfold validate_update_entry. by rewrite Hk'.
        - apply Hvalid; [| done]. by rewrite <- (Hothers filteredData k' Hk'). }
      rewrite Hpass. eexists _, _. split; [reflexivity |].
      cbn [Data ID entries save_entry]. split.
      * apply lookup_union_Some_l, Hrestore.
      * apply lookup_insert_eq.
  - intros ct updatedFields entryID. split.
    + unfold validate_update_entry. by rewrite Hsuffix.
    + intros Herr. unfold ValidatePartialUpdate in Herr.
      apply validate_update_loop_Some in Herr as (k0 & v0 & _ & Hv).
      apply validate_update_entry_unknown in Hv as (-> & Hno & _). congruence.
Qed.

End validator_facts.

Section validator_examples.
#[local] Existing Instance sample.runtime.
Import content.

(** C4 as stated fails: a key that ends in [_media_id] and names no
    field of the content type is accepted. *)
Lemma partial_update_accepts_unknown_media_id :
  ¬ names_field sample.article "ghost_media_id" ∧
  ValidatePartialUpdate sample.db sample.article
    {["ghost_media_id" := VString "5"]} 1 = None.
Proof.
  split; [| vm_compute; reflexivity].
  intros (f & Hin & Hname). vm_compute in Hin.
  destruct Hin as [<- | [<- | []]]; discriminate.
Qed.

Lemma media_id_keys_bypass_unless_refused_witness :
  (∃ payload,
     payload !! "cover_media_id" = Some (VUint 9) ∧
     payload !! "title" = Some (VString "t") ∧
     CreateEntryHandler sample.db 1 1
       {["title" := VString "t"; "cover_media_id" := VUint 9]}
     = CreateContentEntry sample.db 1 1 payload) ∧
  (∃ db' entry',
     UpdateEntryHandler sample.db 1 1
       {["title" := VString "t"; "cover_media_id" := VUint 9]} = (db', Ok entry') ∧
     Data entry' !! "cover_media_id" = Some (VUint 9) ∧
     entries db' !! ID entry' = Some entry').
Proof.
  destruct (media_id_keys_bypass_unless_refused sample.db 1
              {["title" := VString "t"; "cover_media_id" := VUint 9]}
              "cover_media_id" (VUint 9))
    as (Hcreate & Hupdate & _); [vm_compute; reflexivity .. |].
  split.
  - destruct (Hcreate 1%N {["title" := VString "t"]}) as [_ Hkept];
      [by eexists | vm_compute; reflexivity |].
    destruct Hkept as (payload & Hk & Hrest & Hrun & _);
      [vm_compute; discriminate |].
    exists payload. split; [exact Hk |]. split; [| exact Hrun].
    rewrite Hrest; [| vm_compute; reflexivity]. apply lookup_singleton_eq.
  - destruct (Hupdate 1%N
                (sample.entry 1 1 {["title" := VString "first"]} "draft" None)
                (preload_fields sample.article) {["title" := VString "t"]})
      as [_ Hkept]; [vm_compute; reflexivity | discriminate
                     | vm_compute; reflexivity | vm_compute; reflexivity |].
    apply Hkept; [vm_compute; discriminate |].
    intros k' v' Hin _. apply lookup_singleton_Some in Hin as [<- <-].
    vm_compute. reflexivity.
Defined.

(** C9 as stated fails: whether a [_media_id] key is copied depends on
    the field scope of the role.  The SEO-only writer submits a title
    and a media id for an entry; the filter keeps neither, so the handler
    answers 403 and stores nothing.  The same request from the editor,
    whose scope is [all], goes through and stores the media id. *)
Lemma media_id_key_refused_with_empty_filter :
  HasSuffix "cover_media_id" "_media_id" = true ∧
  middleware.FilterFieldsByPermission sample.db 7 "update"
    {["title" := VString "t"; "cover_media_id" := VUint 9]} 1 = Ok ∅ ∧
  UpdateEntryHandler sample.db 7 1
    {["title" := VString "t"; "cover_media_id" := VUint 9]}
  = (sample.db, Err ErrNoPermittedFields) ∧
  ∃ db' entry',
    UpdateEntryHandler sample.db 1 1
      {["title" := VString "t"; "cover_media_id" := VUint 9]} = (db', Ok entry') ∧
    Data entry' !! "cover_media_id" = Some (VUint 9).
Proof.
  split; [vm_compute; reflexivity |]. split; [vm_compute; reflexivity |].
  split; [vm_compute; reflexivity |].
  eexists _, _. split; vm_compute; reflexivity.
Qed.

(** The update of the previous lemma does go through for the SEO-only
    writer, and stores the media id next to the one field the scope
    lets through. *)
Lemma seo_writer_update_keeps_media_id :
  ∃ db' entry',
    UpdateEntryHandler sample.db 7 1
      {["title" := VString "t"; "meta_title" := VString "m";
        "cover_media_id" := VUint 9]} = (db', Ok entry') ∧
    Data entry' = {["title" := VString "first"; "meta_title" := VString "m";
                    "cover_media_id" := VUint 9]}.
Proof. eexists _, _. split; vm_compute; reflexivity. Qed.

End validator_examples.

(** ** Default injection and re-validation *)

Section revalidation_facts.
Context {rt : Runtime}.
Import content.

Lemma validate_fields_app db ctID (first second : list ContentField) :
  ∀ data,
    validate_fields db ctID (first ++ second) data
    = match validate_fields db ctID first data with
      | (acc, None) => validate_fields db ctID second acc
      | (acc, Some e) => (acc, Some e)
      end.
Proof.
  induction first as [| f first IH]; intros data; cbn [validate_fields app]; [done |].
  destruct (absent_or_empty (data !! Name f)).
  - destruct (Required f); [done |].
    destruct (negb (String.eqb (DefaultValue f) "")); apply IH.
  - destruct (present_field_checks _ _ _ _); [done | apply IH].
Qed.

(** A content type read from the store has the same rows in both lists. *)
Lemma first_content_type_loaded db id ct :
  first_content_type db id = Some ct →
  SEOFields ct = Fields ct
  ∧ ∃ stored, contentTypes db !! id = Some stored
              ∧ CtID ct = CtID stored
              ∧ Fields ct = (Fields stored ++ SEOFields stored)%list.
Proof.
  unfold first_content_type.
  destruct (contentTypes db !! id) as [stored |]; [| done].
  intros [= <-]. split; [done |]. by exists stored.
Qed.

(** Validation over the same rows twice, as for a content type read from
    the store: a payload that passed is passed again, unchanged. *)
Lemma validate_twice_idempotent db ctID rows (data data' : gmap string Value) :
  validate_fields db ctID (rows ++ rows) data = (data', None) →
  validate_fields db ctID rows data' = (data', None)
  ∧ validate_fields db ctID (rows ++ rows) data' = (data', None).
Proof.
  rewrite validate_fields_app.
  destruct (validate_fields db ctID rows data) as [acc [e |]] eqn:Hfirst; [done |].
  intros Hsecond.
  destruct (validate_fields_success _ _ _ _ _ Hfirst) as (_ & Hopt & _).
  destruct (validate_fields_settled db ctID rows acc Hopt) as [Hsame _].
  rewrite Hsecond in Hsame. cbn [fst] in Hsame. subst data'.
  split; [done |]. by rewrite validate_fields_app, Hsecond.
Qed.

(** C7.  Validation is idempotent on the content types the program
    validates against.  [ValidateContentEntryEnhanced] is only called
    with a content type read from the store, whose two lists hold the
    same rows; for such a content type a payload on which validation has
    succeeded (defaults injected) is accepted again and comes back
    unchanged.  The second pass over the rows is what makes this so: it
    already checks, within the first validation, every default the first
    pass injected. *)
Theorem revalidation_is_idempotent
    (db : DB) (contentTypeID : N) (ct : ContentType)
    (data data' : gmap string Value) :
  first_content_type db contentTypeID = Some ct →
  ValidateContentEntryEnhanced db ct data = (data', None) →
  ValidateContentEntryEnhanced db ct data' = (data', None).
Proof.
  intros Hct. destruct (first_content_type_loaded _ _ _ Hct) as [Hrows _].
  unfold ValidateContentEntryEnhanced. rewrite Hrows.
  intros Hrun. by apply validate_twice_idempotent in Hrun as [_ Hagain].
Qed.

End revalidation_facts.

Section revalidation_examples.
#[local] Existing Instance sample.runtime.
Import content.

Lemma revalidation_is_idempotent_witness :
  ValidateContentEntryEnhanced sample.db (preload_fields sample.page)
    {["title" := VString "t"; "lang" := VString "en"]}
  = ({["title" := VString "t"; "lang" := VString "en"]}, None).
Proof.
  apply (revalidation_is_idempotent sample.db 3 (preload_fields sample.page)
           {["title" := VString "t"]});
    vm_compute; reflexivity.
Defined.

(** A default that does not fit its own field never gets as far as a
    second validation: for the [number] field with the default "5" the
    first validation of a payload without the field already fails, in
    its pass over the second list. *)
Lemma unfit_default_fails_first_validation :
  first_content_type sample.db 2 = Some (preload_fields sample.counter) ∧
  ValidateContentEntryEnhanced sample.db (preload_fields sample.counter) ∅
    = ({["count" := VString "5"]}, Some (ErrMustBeNumber "count")).
Proof. split; vm_compute; reflexivity. Qed.

End revalidation_examples.

(** ** Entry lifecycle *)

Section lifecycle_facts.
Context {rt : Runtime}.
Import workflow content.

Lemma first_entry_Some db id e :
  first_entry db id = Some e → entries db !! id = Some e ∧ DeletedAt e = None.
Proof.
  unfold first_entry. destruct (entries db !! id) as [e0 |]; [| done].
  destruct (DeletedAt e0) eqn:Hdel; [done |]. by intros [= <-].
Qed.

Lemma db_wf_lookup db id e :
  db_wf db → entries db !! id = Some e → ID e = id ∧ (id <= entrySeq db)%N.
Proof. intros Hwf He. exact (Hwf id e He). Qed.

Lemma first_entry_row db id e :
  db_wf db → first_entry db id = Some e →
  entries db !! ID e = Some e ∧ ID e = id ∧ DeletedAt e = None.
Proof.
  intros Hwf He. apply first_entry_Some in He as [He Hdel].
  destruct (db_wf_lookup _ _ _ Hwf He) as [Hid _]. by rewrite Hid.
Qed.

Lemma entries_effect_rewrite db db' op old new :
  entries db !! ID old = Some old →
  entries db' = <[ID old := new]> (entries db) →
  ID new = ID old →
  entrySeq db' = entrySeq db →
  (PublishedAt new = PublishedAt old
   ∨ ∃ now, publish_request op = Some (ID old, now) ∧
            Status new = StatusPublished ∧ PublishedAt new = Some now) →
  entries_effect db db' op.
Proof. intros. right; left. by exists old, new. Qed.

Lemma ChangeWorkflowStatus_effect db now entryID userID toStatus comment :
  db_wf db →
  entries_effect db (ChangeWorkflowStatus db now entryID userID toStatus comment).1
    (OpChangeWorkflowStatus now entryID userID toStatus comment).
Proof.
  intros Hwf. unfold ChangeWorkflowStatus.
  destruct (first_entry db entryID) as [entry |] eqn:Hentry; [| by left].
  destruct (first_user db userID) as [user |]; [| by left].
  destruct (Role_ user) as [role |]; [| by left].
  destruct (negb _); [by left |].
  destruct (first_entry_row _ _ _ Hwf Hentry) as (Hrow & Hid & _).
  eapply (entries_effect_rewrite _ _ _ entry);
    [done | reflexivity | reflexivity | reflexivity |].
  cbn [PublishedAt Status publish_request].
  destruct (String.eqb_spec toStatus StatusPublished) as [-> | Hne]; [| by left].
  right. exists now. by rewrite Hid.
Qed.

Lemma entries_effect_unpublishing db db' op op' :
  publish_request op' = None →
  entries_effect db db' op' → entries_effect db db' op.
Proof.
  intros Hnone [H | [(old & new & Hold & Hid & Hent & Hseq & Hpub) | H]];
    [by left | | by right; right].
  right; left. exists old, new. repeat (split; [done |]).
  destruct Hpub as [Hpub | (now & Hreq & _)]; [by left | congruence].
Qed.

Lemma validated_service_effect db op (entry : ContentEntry) data status updatedBy :
  db_wf db → entries db !! ID entry = Some entry →
  entries_effect db
    (save_entry db {| ID := ID entry; ContentTypeID := ContentTypeID entry;
                      Data := data; Status := status;
                      CreatedBy := CreatedBy entry; UpdatedBy := updatedBy;
                      PublishedAt := PublishedAt entry;
                      DeletedAt := DeletedAt entry |}) op.
Proof.
  intros Hwf Hrow.
  eapply (entries_effect_rewrite _ _ _ entry);
    [done | reflexivity | reflexivity | reflexivity | by left].
Qed.

Lemma CreateContentEntry_effect db op contentTypeID createdBy data :
  entries_effect db (CreateContentEntry db contentTypeID createdBy data).1 op.
Proof.
  unfold CreateContentEntry.
  destruct (first_content_type db contentTypeID) as [ct |]; [| by left].
  destruct (ValidateContentEntryEnhanced db ct data) as [data' [e |]]; [by left |].
  right; right. unfold create_entry. cbn [fst].
  refine (ex_intro _ {| ID := (entrySeq db + 1)%N; ContentTypeID := contentTypeID;
                        Data := data'; Status := StatusDraft;
                        CreatedBy := createdBy; UpdatedBy := 0%N;
                        PublishedAt := None; DeletedAt := None |} _).
  by repeat split.
Qed.

(** Every operation acts on the entries table in one of the three ways. *)
Lemma apply_op_effect db op :
  db_wf db → entries_effect db (apply_op db op) op.
Proof.
  intros Hwf. destruct op; cbn [apply_op].
  - by apply ChangeWorkflowStatus_effect.
  - unfold RequestReview.
    destruct (first_entry db entryID) as [entry |]; [| by left].
    destruct (negb _); [by left |].
    eapply entries_effect_unpublishing; [| by apply ChangeWorkflowStatus_effect].
    reflexivity.
  - eapply entries_effect_unpublishing; [| by apply ChangeWorkflowStatus_effect].
    reflexivity.
  - eapply entries_effect_unpublishing; [| by apply ChangeWorkflowStatus_effect].
    reflexivity.
  - pose proof (ChangeWorkflowStatus_effect db now entryID userID StatusPublished
                  comment Hwf) as [H | [(old & new & Hold & Hid & Hent & Hseq & Hpub) | H]];
      [by left | | by right; right].
    right; left. exists old, new. repeat (split; [done |]).
    destruct Hpub as [Hpub | (t & Hreq & Hst & Hp)]; [by left |].
    right. exists t. cbn in Hreq |- *. done.
  - apply CreateContentEntry_effect.
  - unfold UpdateEntry.
    destruct (first_entry db entryID) as [entry |] eqn:Hentry; [| by left].
    destruct (String.eqb _ _); [by left |].
    destruct (first_content_type db _) as [ct |]; [| by left].
    destruct (ValidateContentEntryEnhanced db ct data) as [data' [e |]]; [by left |].
    apply validated_service_effect; [done |].
    by destruct (first_entry_row _ _ _ Hwf Hentry).
  - unfold CreateEntryHandler.
    destruct (first_content_type db contentTypeID); [| by left].
    destruct (middleware.FilterFieldsByPermission _ _ _ _ _) as [filtered | |];
      [| by left | by left].
    destruct (size filtered =? 0)%nat; [by left |].
    apply CreateContentEntry_effect.
  - unfold UpdateEntryHandler.
    destruct (first_entry db entryID) as [entry |] eqn:Hentry; [| by left].
    destruct (String.eqb _ _); [by left |].
    destruct (first_content_type db _) as [ct |]; [| by left].
    destruct (size data =? 0)%nat; [by left |].
    destruct (middleware.FilterFieldsByPermission _ _ _ _ _) as [filtered | |];
      [| by left | by left].
    destruct (size filtered =? 0)%nat; [by left |].
    destruct (ValidatePartialUpdate _ _ _ _); [by left |].
    apply validated_service_effect; [done |].
    by destruct (first_entry_row _ _ _ Hwf Hentry).
  - unfold DeleteEntryHandler.
    destruct (first_entry db entryID) as [entry |] eqn:Hentry; [| by left].
    destruct (String.eqb _ _); [by left |].
    destruct (first_entry_row _ _ _ Hwf Hentry) as (Hrow & _).
    eapply (entries_effect_rewrite _ _ _ entry);
      [done | reflexivity | reflexivity | reflexivity | by left].
Qed.

Lemma entries_effect_wf db db' op :
  db_wf db → entries_effect db db' op → db_wf db'.
Proof.
  unfold db_wf.
  intros Hwf [[-> ->] | [(old & new & Hold & Hid & -> & -> & _) | (new & Hid & -> & -> & _)]];
    [done | |].
  - apply map_Forall_insert_2; [| done].
    rewrite Hid. by apply (Hwf _ _ Hold).
  - apply map_Forall_insert_2; [split; [done | lia] |].
    intros id e He. destruct (Hwf id e He) as [? ?]. split; [done | lia].
Qed.

Lemma entries_effect_frame db db' op id e :
  db_wf db → entries_effect db db' op → entries db !! id = Some e →
  ∃ e', entries db' !! id = Some e' ∧
    (PublishedAt e' = PublishedAt e
     ∨ ∃ now, publish_request op = Some (id, now) ∧
              Status e' = StatusPublished ∧ PublishedAt e' = Some now).
Proof.
  intros Hwf [[-> _] | [(old & new & Hold & Hid & -> & _ & Hpub) | (new & Hid & -> & _)]] He.
  - exists e. by split; [| left].
  - destruct (decide (ID old = id)) as [Heq | Hne].
    + exists new. rewrite Heq, lookup_insert_eq. split; [done |].
      rewrite Heq in Hold. assert (old = e) as -> by congruence.
      by rewrite Heq in Hpub.
    + exists e. rewrite lookup_insert_ne by done. by split; [| left].
  - exists e. split; [| by left].
    rewrite lookup_insert_ne; [done |].
    destruct (db_wf_lookup _ _ _ Hwf He) as [_ Hle]. lia.
Qed.

Lemma entries_effect_new db db' op id e' :
  entries_effect db db' op → entries db !! id = None →
  entries db' !! id = Some e' → PublishedAt e' = None ∧ Status e' = StatusDraft.
Proof.
  intros [[-> _] | [(old & new & Hold & Hid & -> & _) | (new & Hid & -> & _ & Hp & Hs)]]
         Hnone He'.
  - congruence.
  - rewrite lookup_insert_ne in He' by congruence. congruence.
  - destruct (decide (ID new = id)) as [Heq | Hne].
    + rewrite Heq, lookup_insert_eq in He'. by injection He' as <-.
    + rewrite lookup_insert_ne in He' by done. congruence.
Qed.

Lemma apply_ops_wf db ops : db_wf db → db_wf (fold_left apply_op ops db).
Proof.
  revert db. induction ops as [| op ops IH]; intros db Hwf; [done |].
  cbn [fold_left]. apply IH.
  eapply entries_effect_wf; [done | by apply apply_op_effect].
Qed.

(** C6.  In a store whose rows sit under their own keys: (1) an
    operation leaves the [PublishedAt] of every existing entry as it was,
    unless the operation asks for status [published] on that entry and
    goes through, and then the entry is published and stamped with the
    clock; (2) a new entry starts without [PublishedAt]; (3) a successful
    [ChangeWorkflowStatus] stamps the clock exactly when the target is
    [published] and otherwise keeps the old value; (4) along any sequence
    of operations a [PublishedAt] that is set stays set. *)
Theorem publishedAt_lifecycle (db : DB) :
  db_wf db →
  (∀ op id e,
     entries db !! id = Some e →
     ∃ e', entries (apply_op db op) !! id = Some e' ∧
       (PublishedAt e' = PublishedAt e
        ∨ ∃ now, publish_request op = Some (id, now) ∧
                 Status e' = StatusPublished ∧ PublishedAt e' = Some now)) ∧
  (∀ op id e',
     entries db !! id = None → entries (apply_op db op) !! id = Some e' →
     PublishedAt e' = None) ∧
  (∀ now id userID toStatus comment db' e',
     ChangeWorkflowStatus db now id userID toStatus comment = (db', Ok e') →
     entries db' !! id = Some e' ∧ Status e' = toStatus ∧
     ∃ e, entries db !! id = Some e ∧
          PublishedAt e' = if String.eqb toStatus StatusPublished
                           then Some now else PublishedAt e) ∧
  (∀ ops id e,
     entries db !! id = Some e → is_Some (PublishedAt e) →
     ∃ e', entries (fold_left apply_op ops db) !! id = Some e'
           ∧ is_Some (PublishedAt e')).
Proof.
  intros Hwf. split; [| split; [| split]].
  - intros op id e He.
    by eapply entries_effect_frame; [| apply apply_op_effect |].
  - intros op id e' Hnone He'.
    by eapply entries_effect_new; [by apply apply_op_effect | |].
  - intros now id userID toStatus comment db' e'. unfold ChangeWorkflowStatus.
    destruct (first_entry db id) as [entry |] eqn:Hentry; [| done].
    destruct (first_user db userID) as [user |]; [| done].
    destruct (Role_ user) as [role |]; [| done].
    destruct (negb _); [done |].
    destruct (first_entry_row _ _ _ Hwf Hentry) as (Hrow & Hid & _).
    intros [= <- <-]. cbn [entries create_history save_entry ID Status PublishedAt].
    rewrite Hid. split; [apply lookup_insert_eq |]. split; [done |].
    exists entry. split; [by rewrite <- Hid | done].
  - intros ops. revert db Hwf.
    induction ops as [| op ops IH]; intros db Hwf id e He Hset; [by eauto |].
    cbn [fold_left].
    destruct (entries_effect_frame db (apply_op db op) op id e Hwf
                (apply_op_effect db op Hwf) He) as (e1 & He1 & Hp).
    apply (IH (apply_op db op)) with (e := e1); [| done |].
    + eapply entries_effect_wf; [done | by apply apply_op_effect].
    + destruct Hp as [-> | (now & _ & _ & ->)]; [done | by eauto].
Qed.

(** C8 as the code has it.  (1) A created entry is a draft.  (2) A
    data update of a published entry is refused and changes nothing.
    (3) A data update that goes through sets the status to [draft]
    itself, whatever the status was, rewrites that one row and adds no
    history row; one that fails changes nothing.  (4) Deleting a
    published entry is refused and changes nothing; deleting any other
    entry keeps the row, stamps [DeletedAt] and hides it from lookups. *)
Theorem entry_lifecycle_outside_workflow (db : DB) :
  db_wf db →
  (∀ contentTypeID createdBy data db' created,
     CreateContentEntry db contentTypeID createdBy data = (db', Ok created) →
     Status created = StatusDraft ∧ entries db' !! ID created = Some created) ∧
  (∀ entryID updatedBy data entry,
     first_entry db entryID = Some entry → Status entry = StatusPublished →
     UpdateEntry db entryID updatedBy data = (db, Err ErrPublishedEdit)) ∧
  (∀ entryID updatedBy data db' r,
     UpdateEntry db entryID updatedBy data = (db', r) →
     match r with
     | Ok updated =>
       Status updated = StatusDraft ∧ ID updated = entryID ∧
       entries db' = <[entryID := updated]> (entries db) ∧
       history db' = history db
     | _ => db' = db
     end) ∧
  (∀ now entryID entry,
     first_entry db entryID = Some entry →
     if String.eqb (Status entry) StatusPublished
     then DeleteEntryHandler db now entryID = (db, Err ErrPublishedDelete)
     else ∃ db', DeleteEntryHandler db now entryID = (db', Ok tt) ∧
            first_entry db' entryID = None ∧
            ∃ row, entries db' !! entryID = Some row ∧
                   DeletedAt row = Some now ∧ Status row = Status entry ∧
                   Data row = Data entry ∧ PublishedAt row = PublishedAt entry).
Proof.
  intros Hwf. split; [| split; [| split]].
  - intros contentTypeID createdBy data db' created. unfold CreateContentEntry.
    destruct (first_content_type db contentTypeID) as [ct |]; [| done].
    destruct (ValidateContentEntryEnhanced db ct data) as [data' [e |]]; [done |].
    cbn. intros [= <- <-]. cbn. split; [done | apply lookup_insert_eq].
  - intros entryID updatedBy data entry Hentry Hstatus. unfold UpdateEntry.
    by rewrite Hentry, Hstatus.
  - intros entryID updatedBy data db' r. unfold UpdateEntry.
    destruct (first_entry db entryID) as [entry |] eqn:Hentry; [| by intros [= <- <-]].
    destruct (String.eqb _ _); [by intros [= <- <-] |].
    destruct (first_content_type db _) as [ct |]; [| by intros [= <- <-]].
    destruct (ValidateContentEntryEnhanced db ct data) as [data' [e |]];
      [by intros [= <- <-] |].
    destruct (first_entry_row _ _ _ Hwf Hentry) as (_ & Hid & _).
    intros [= <- <-]. cbn. by rewrite Hid.
  - intros now entryID entry Hentry. unfold DeleteEntryHandler. rewrite Hentry.
    destruct (String.eqb _ _); [done |].
    destruct (first_entry_row _ _ _ Hwf Hentry) as (_ & Hid & _).
    eexists. split; [reflexivity |].
    unfold first_entry, delete_entry. cbn [entries]. rewrite Hid, lookup_insert_eq.
    split; [done |]. eexists. split; [reflexivity |]. done.
Qed.

End lifecycle_facts.

Section lifecycle_examples.
#[local] Existing Instance sample.runtime.
Import workflow content.

Lemma sample_db_wf : db_wf sample.db.
Proof.
  unfold db_wf. apply map_Forall_to_list. vm_compute.
  repeat constructor; discriminate.
Qed.

Lemma publishedAt_lifecycle_witness :
  (∀ op id e,
     entries sample.db !! id = Some e →
     ∃ e', entries (apply_op sample.db op) !! id = Some e' ∧
       (PublishedAt e' = PublishedAt e
        ∨ ∃ now, publish_request op = Some (id, now) ∧
                 Status e' = StatusPublished ∧ PublishedAt e' = Some now)) ∧
  (∀ op id e',
     entries sample.db !! id = None →
     entries (apply_op sample.db op) !! id = Some e' →
     PublishedAt e' = None) ∧
  (∀ now id userID toStatus comment db' e',
     ChangeWorkflowStatus sample.db now id userID toStatus comment = (db', Ok e') →
     entries db' !! id = Some e' ∧ Status e' = toStatus ∧
     ∃ e, entries sample.db !! id = Some e ∧
          PublishedAt e' = if String.eqb toStatus StatusPublished
                           then Some now else PublishedAt e) ∧
  (∀ ops id e,
     entries sample.db !! id = Some e → is_Some (PublishedAt e) →
     ∃ e', entries (fold_left apply_op ops sample.db) !! id = Some e'
           ∧ is_Some (PublishedAt e')).
Proof. apply (publishedAt_lifecycle sample.db). exact sample_db_wf. Defined.

(** The manager publishes the approved entry at time 77. *)
Lemma manager_publishes_approved_entry :
  ∃ db' published,
    ChangeWorkflowStatus sample.db 77 2 2 "published" "" = (db', Ok published) ∧
    PublishedAt published = Some 77%N ∧
    history db' = [{| EntryID := 2; FromStatus := "approved";
                      ToStatus := "published"; ChangedBy := 2; Comment := "" |}].
Proof. eexists _, _. split; [vm_compute; reflexivity |]. split; reflexivity. Qed.

Lemma entry_lifecycle_outside_workflow_witness :
  (∀ contentTypeID createdBy data db' created,
     CreateContentEntry sample.db contentTypeID createdBy data = (db', Ok created) →
     Status created = StatusDraft ∧ entries db' !! ID created = Some created) ∧
  (∀ entryID updatedBy data entry,
     first_entry sample.db entryID = Some entry → Status entry = StatusPublished →
     UpdateEntry sample.db entryID updatedBy data = (sample.db, Err ErrPublishedEdit)) ∧
  (∀ entryID updatedBy data db' r,
     UpdateEntry sample.db entryID updatedBy data = (db', r) →
     match r with
     | Ok updated =>
       Status updated = StatusDraft ∧ ID updated = entryID ∧
       entries db' = <[entryID := updated]> (entries sample.db) ∧
       history db' = history sample.db
     | _ => db' = sample.db
     end) ∧
  (∀ now entryID entry,
     first_entry sample.db entryID = Some entry →
     if String.eqb (Status entry) StatusPublished
     then DeleteEntryHandler sample.db now entryID
          = (sample.db, Err ErrPublishedDelete)
     else ∃ db', DeleteEntryHandler sample.db now entryID = (db', Ok tt) ∧
            first_entry db' entryID = None ∧
            ∃ row, entries db' !! entryID = Some row ∧
                   DeletedAt row = Some now ∧ Status row = Status entry ∧
                   Data row = Data entry ∧ PublishedAt row = PublishedAt entry).
Proof. apply (entry_lifecycle_outside_workflow sample.db). exact sample_db_wf. Defined.

(** C8 as stated fails: a data update of an approved entry goes
    through and leaves it a draft, with no history row written. *)
Lemma update_resets_approved_to_draft :
  Status <$> first_entry sample.db 2 = Some "approved" ∧
  ∃ db' updated,
    UpdateEntry sample.db 2 1 {["title" := VString "revised"]} = (db', Ok updated) ∧
    Status <$> first_entry db' 2 = Some "draft" ∧
    history db' = history sample.db.
Proof.
  split; [vm_compute; reflexivity |].
  eexists _, _. split; [vm_compute; reflexivity |]. split; vm_compute; reflexivity.
Qed.

End lifecycle_examples.

(** * Further properties of the code *)

(** ** Workflow engine: the named shortcuts *)

Section shortcut_facts.
Import workflow.

Lemma ChangeWorkflowStatus_ok_iff db now entryID userID toStatus comment
    entry user role :
  first_entry db entryID = Some entry →
  first_user db userID = Some user →
  Role_ user = Some role →
  is_ok (ChangeWorkflowStatus db now entryID userID toStatus comment).2 = true
  ↔ in_table (Status entry) toStatus (RoleName role).
Proof.
  intros Hentry Huser Hrole. unfold ChangeWorkflowStatus.
  rewrite Hentry, Huser, Hrole, <- isValidTransition_in_table.
  by destruct (isValidTransition _ _ _).
Qed.

Lemma in_table_rows f t r :
  in_table f t r ↔
    (f = "draft" ∧ t = "in_review" ∧ (r = "editor" ∨ r = "admin"))
    ∨ (f = "in_review" ∧ (t = "ready_for_approval" ∨ t = "rejected" ∨ t = "draft")
       ∧ (r = "editor" ∨ r = "admin"))
    ∨ (f = "ready_for_approval" ∧ (t = "approved" ∨ t = "rejected")
       ∧ (r = "manager" ∨ r = "admin"))
    ∨ (f = "approved" ∧ t = "published" ∧ (r = "manager" ∨ r = "admin"))
    ∨ (f = "rejected" ∧ t = "draft" ∧ (r = "editor" ∨ r = "admin")).
Proof.
  unfold in_table, transition_table. split.
  - intros (roles & Hrow & Hr). cbn [In] in Hrow.
    repeat (destruct Hrow as [Hrow | Hrow];
            [ injection Hrow as <- <- <-; cbn [In] in Hr;
              destruct Hr as [<- | [<- | []]]; tauto | ]).
    destruct Hrow.
  - intros H.
    assert (Hroles : ∀ a b, r = a ∨ r = b → In r [a; b])
      by (intros a b [-> | ->]; cbn; tauto).
    destruct H as [(-> & -> & Hr) | [(-> & Ht & Hr) | [(-> & Ht & Hr)
                  | [(-> & -> & Hr) | (-> & -> & Hr)]]]].
    + exists ["editor"; "admin"]. split; [cbn; tauto | by apply Hroles].
    + exists ["editor"; "admin"]. split; [| by apply Hroles].
      destruct Ht as [-> | [-> | ->]]; cbn; tauto.
    + exists ["manager"; "admin"]. split; [| by apply Hroles].
      destruct Ht as [-> | ->]; cbn; tauto.
    + exists ["manager"; "admin"]. split; [cbn; tauto | by apply Hroles].
    + exists ["editor"; "admin"]. split; [cbn; tauto | by apply Hroles].
Qed.

(** [RequestReview] goes through exactly for a draft and a caller whose
    role is named editor or admin, and leaves the entry in review; for any
    other status it answers with its own error, before the transition
    table is consulted, and the store is not touched. *)
Theorem requestReview_only_from_draft
    (db : DB) (now entryID userID : N) (comment : string)
    (entry : ContentEntry) (user : User) (role : Role) :
  first_entry db entryID = Some entry →
  first_user db userID = Some user →
  Role_ user = Some role →
  let out := RequestReview db now entryID userID comment in
  (is_ok out.2 = true
   ↔ Status entry = StatusDraft
     ∧ (RoleName role = "editor" ∨ RoleName role = "admin")) ∧
  (Status entry ≠ StatusDraft →
   out = (db, Err (ErrOnlyFromDraft (Status entry)))) ∧
  (∀ entry', out.2 = Ok entry' →
     Status entry' = StatusInReview ∧ entries out.1 !! ID entry = Some entry').
Proof.
  intros Hentry Huser Hrole out. subst out. unfold RequestReview.
  rewrite Hentry.
  destruct (String.eqb_spec (Status entry) StatusDraft) as [Hdraft | Hdraft];
    cbn [negb].
  - rewrite (ChangeWorkflowStatus_ok_iff _ _ _ _ _ _ _ _ _ Hentry Huser Hrole).
    rewrite Hdraft, in_table_rows.
    split; [| split; [done |]].
    + unfold StatusDraft, StatusInReview. split.
      * intros [(_ & _ & Hr) | [(? & _) | [(? & _) | [(? & _) | (? & _)]]]];
          (done || discriminate).
      * intros [_ Hr]. left. done.
    + intros entry'. unfold ChangeWorkflowStatus. rewrite Hentry, Huser, Hrole.
      destruct (negb _); [done |]. intros [= <-]. cbn.
      split; [done | apply lookup_insert_eq].
  - split; [| split; [done | done]].
    split; [done | by intros [? _]].
Qed.

Lemma requestReview_only_from_draft_witness :
  let out := RequestReview sample.db 60 1 1 "please review" in
  (is_ok out.2 = true
   ↔ "draft" = StatusDraft ∧ ("editor" = "editor" ∨ "editor" = "admin")) ∧
  ("draft" ≠ StatusDraft → out = (sample.db, Err (ErrOnlyFromDraft "draft"))) ∧
  (∀ entry', out.2 = Ok entry' →
     Status entry' = StatusInReview ∧ entries out.1 !! 1%N = Some entry').
Proof.
  apply (requestReview_only_from_draft sample.db 60 1 1 "please review"
           (sample.entry 1 1 {["title" := VString "first"]} "draft" None)
           (sample.user 1 sample.editor) sample.editor);
    vm_compute; reflexivity.
Defined.

(** The three other shortcuts succeed exactly on the rows of the table
    that lead to their fixed target: approval needs an entry that is ready
    for approval and a manager or admin; publication an approved entry and
    a manager or admin; rejection either an entry in review and an editor
    or admin, or an entry ready for approval and a manager or admin. *)
Theorem shortcut_success_conditions
    (db : DB) (now entryID userID : N) (comment : string)
    (entry : ContentEntry) (user : User) (role : Role) :
  first_entry db entryID = Some entry →
  first_user db userID = Some user →
  Role_ user = Some role →
  (is_ok (ApproveEntry db now entryID userID comment).2 = true
   ↔ Status entry = StatusReadyForApproval
     ∧ (RoleName role = "manager" ∨ RoleName role = "admin")) ∧
  (is_ok (PublishEntry db now entryID userID comment).2 = true
   ↔ Status entry = StatusApproved
     ∧ (RoleName role = "manager" ∨ RoleName role = "admin")) ∧
  (is_ok (RejectEntry db now entryID userID comment).2 = true
   ↔ (Status entry = StatusInReview
      ∧ (RoleName role = "editor" ∨ RoleName role = "admin"))
     ∨ (Status entry = StatusReadyForApproval
        ∧ (RoleName role = "manager" ∨ RoleName role = "admin"))).
Proof.
  intros Hentry Huser Hrole.
  unfold ApproveEntry, PublishEntry, RejectEntry.
  rewrite !(ChangeWorkflowStatus_ok_iff _ _ _ _ _ _ _ _ _ Hentry Huser Hrole).
  rewrite !in_table_rows.
  unfold StatusReadyForApproval, StatusApproved, StatusInReview, StatusPublished,
    StatusRejected.
  (split; [| split]); split; intros Hcase;
    repeat match goal with
           | H : _ ∨ _ |- _ => destruct H
           | H : _ ∧ _ |- _ => destruct H
           end; try discriminate; tauto.
Qed.

Lemma shortcut_success_conditions_witness :
  (is_ok (ApproveEntry sample.db 60 2 2 "").2 = true
   ↔ "approved" = StatusReadyForApproval ∧ ("manager" = "manager" ∨ "manager" = "admin")) ∧
  (is_ok (PublishEntry sample.db 60 2 2 "").2 = true
   ↔ "approved" = StatusApproved ∧ ("manager" = "manager" ∨ "manager" = "admin")) ∧
  (is_ok (RejectEntry sample.db 60 2 2 "").2 = true
   ↔ ("approved" = StatusInReview ∧ ("manager" = "editor" ∨ "manager" = "admin"))
     ∨ ("approved" = StatusReadyForApproval
        ∧ ("manager" = "manager" ∨ "manager" = "admin"))).
Proof.
  apply (shortcut_success_conditions sample.db 60 2 2 ""
           (sample.entry 2 1 {["title" := VString "second"]} "approved" None)
           (sample.user 2 sample.manager) sample.manager);
    vm_compute; reflexivity.
Defined.

End shortcut_facts.

(** ** Entry operations as steps of the store *)

Section step_facts.
Context {rt : Runtime}.
Import workflow content content_admin workflow_queries.

Lemma in_table_statuses f t r :
  in_table f t r → f ≠ StatusPublished ∧ known_status f ∧ known_status t.
Proof.
  rewrite in_table_rows. unfold known_status, StatusPublished.
  intros [(-> & -> & _) | [(-> & Ht & _) | [(-> & Ht & _)
         | [(-> & -> & _) | (-> & -> & _)]]]];
    (split; [discriminate |]); split; cbn; try tauto.
  - destruct Ht as [-> | [-> | ->]]; tauto.
  - destruct Ht as [-> | ->]; tauto.
Qed.

Lemma ChangeWorkflowStatus_step db now entryID userID toStatus comment :
  db_wf db →
  op_step db (ChangeWorkflowStatus db now entryID userID toStatus comment).1.
Proof.
  intros Hwf. unfold ChangeWorkflowStatus.
  destruct (first_entry db entryID) as [entry |] eqn:Hentry; [| by left].
  destruct (first_user db userID) as [user |]; [| by left].
  destruct (Role_ user) as [role |]; [| by left].
  destruct (isValidTransition (Status entry) toStatus (RoleName role)) eqn:Hvalid;
    cbn [negb]; [| by left].
  apply isValidTransition_in_table in Hvalid.
  destruct (first_entry_row _ _ _ Hwf Hentry) as (_ & Hid & _).
  right; left. eexists entry, _. cbn [fst].
  split; [by rewrite Hid |].
  split; [by apply in_table_statuses in Hvalid as [? _] |].
  do 4 (split; [reflexivity |]).
  apply (changed_by_transition _ _ _ _ (RoleName role) userID now comment);
    cbn; [done | done | by rewrite Hid].
Qed.

Lemma saved_update_step db (entry : ContentEntry) entryID data updatedBy :
  db_wf db → first_entry db entryID = Some entry →
  String.eqb (Status entry) StatusPublished = false →
  op_step db
    (save_entry db {| ID := ID entry; ContentTypeID := ContentTypeID entry;
                      Data := data; Status := StatusDraft;
                      CreatedBy := CreatedBy entry; UpdatedBy := updatedBy;
                      PublishedAt := PublishedAt entry;
                      DeletedAt := DeletedAt entry |}).
Proof.
  intros Hwf Hentry Hstatus.
  destruct (first_entry_row _ _ _ Hwf Hentry) as (_ & Hid & _).
  right; left. eexists entry, _.
  split; [by rewrite Hid |].
  split; [by apply String.eqb_neq |].
  do 4 (split; [reflexivity |]).
  by apply (changed_by_update _ _ _ _ data updatedBy).
Qed.

Lemma CreateContentEntry_step db contentTypeID createdBy data :
  op_step db (CreateContentEntry db contentTypeID createdBy data).1.
Proof.
  unfold CreateContentEntry.
  destruct (first_content_type db contentTypeID) as [ct |] eqn:Hct; [| by left].
  destruct (ValidateContentEntryEnhanced db ct data) as [data' [e |]]; [by left |].
  right; right. unfold create_entry. cbn [fst].
  refine (ex_intro _ {| ID := (entrySeq db + 1)%N; ContentTypeID := contentTypeID;
                        Data := data'; Status := StatusDraft;
                        CreatedBy := createdBy; UpdatedBy := 0%N;
                        PublishedAt := None; DeletedAt := None |} _).
  cbn. unfold first_content_type in Hct.
  destruct (contentTypes db !! contentTypeID) as [stored |]; [| done].
  repeat split; eauto.
Qed.

(** Every entry operation is one such step. *)
Lemma apply_op_step db op : db_wf db → op_step db (apply_op db op).
Proof.
  intros Hwf. destruct op; cbn [apply_op].
  - by apply ChangeWorkflowStatus_step.
  - unfold RequestReview.
    destruct (first_entry db entryID) as [entry |]; [| by left].
    destruct (negb _); [by left | by apply ChangeWorkflowStatus_step].
  - by apply ChangeWorkflowStatus_step.
  - by apply ChangeWorkflowStatus_step.
  - by apply ChangeWorkflowStatus_step.
  - apply CreateContentEntry_step.
  - unfold UpdateEntry.
    destruct (first_entry db entryID) as [entry |] eqn:Hentry; [| by left].
    destruct (String.eqb _ _) eqn:Hstatus; [by left |].
    destruct (first_content_type db _) as [ct |]; [| by left].
    destruct (ValidateContentEntryEnhanced db ct data) as [data' [e |]]; [by left |].
    by eapply saved_update_step.
  - unfold CreateEntryHandler.
    destruct (first_content_type db contentTypeID); [| by left].
    destruct (middleware.FilterFieldsByPermission _ _ _ _ _) as [filtered | |];
      [| by left | by left].
    destruct (size filtered =? 0)%nat; [by left |].
    apply CreateContentEntry_step.
  - unfold UpdateEntryHandler.
    destruct (first_entry db entryID) as [entry |] eqn:Hentry; [| by left].
    destruct (String.eqb _ _) eqn:Hstatus; [by left |].
    destruct (first_content_type db _) as [ct |]; [| by left].
    destruct (size data =? 0)%nat; [by left |].
    destruct (middleware.FilterFieldsByPermission _ _ _ _ _) as [filtered | |];
      [| by left | by left].
    destruct (size filtered =? 0)%nat; [by left |].
    destruct (ValidatePartialUpdate _ _ _ _); [by left |].
    by eapply saved_update_step.
  - unfold DeleteEntryHandler.
    destruct (first_entry db entryID) as [entry |] eqn:Hentry; [| by left].
    destruct (String.eqb _ _) eqn:Hstatus; [by left |].
    destruct (first_entry_row _ _ _ Hwf Hentry) as (_ & Hid & _).
    right; left. eexists entry, _. cbn [fst].
    split; [by rewrite Hid |].
    split; [by apply String.eqb_neq |].
    do 4 (split; [reflexivity |]).
    by apply (changed_by_delete _ _ _ _ now).
Qed.

Lemma op_step_wf db db' : db_wf db → op_step db db' → db_wf db'.
Proof.
  unfold db_wf.
  intros Hwf [-> | [(old & new & Hold & _ & _ & _ & -> & -> & Hch)
                   | (new & Hid & _ & _ & _ & _ & _ & _ & -> & -> & _)]]; [done | |].
  - apply first_entry_Some in Hold as [Hold _].
    apply map_Forall_insert_2; [| done].
    destruct (Hwf _ _ Hold) as [_ Hle]. split; [| done].
    by destruct Hch as [???? _ -> _ | ?? -> _ | ? -> _].
  - apply map_Forall_insert_2; [split; [done | lia] |].
    intros id e He. destruct (Hwf id e He) as [? ?]. split; [done | lia].
Qed.

(** A step never touches a row that is published or soft-deleted. *)
Lemma op_step_frozen db db' id e :
  db_wf db → op_step db db' → entries db !! id = Some e →
  Status e = StatusPublished ∨ DeletedAt e ≠ None →
  entries db' !! id = Some e.
Proof.
  intros Hwf [-> | [(old & new & Hold & Hnp & _ & _ & _ & -> & _)
                   | (new & Hid & _ & _ & _ & _ & _ & _ & _ & -> & _)]] He Hfrozen;
    [done | |].
  - apply first_entry_Some in Hold as [Hold Hlive].
    rewrite lookup_insert_ne; [done |]. intros <-.
    assert (old = e) as -> by congruence. by destruct Hfrozen.
  - rewrite lookup_insert_ne; [done |].
    destruct (db_wf_lookup _ _ _ Hwf He) as [_ Hle]. lia.
Qed.

Lemma apply_ops_invariant (P : DB → Prop) :
  (∀ db op, db_wf db → P db → P (apply_op db op)) →
  ∀ ops db, db_wf db → P db → P (fold_left apply_op ops db).
Proof.
  intros Hstep ops. induction ops as [| op ops IH]; intros db Hwf HP; [done |].
  cbn [fold_left]. apply IH; [| by apply Hstep].
  by apply (apply_ops_wf _ [op]).
Qed.

(** A published entry and a soft-deleted entry are out of reach: no
    sequence of workflow calls, creations, updates and deletions changes
    any column of such a row. *)
Theorem published_and_deleted_rows_are_frozen
    (db : DB) (ops : list Op) (id : N) (e : ContentEntry) :
  db_wf db →
  entries db !! id = Some e →
  Status e = StatusPublished ∨ DeletedAt e ≠ None →
  entries (fold_left apply_op ops db) !! id = Some e.
Proof.
  intros Hwf He Hfrozen.
  apply (apply_ops_invariant (λ db, entries db !! id = Some e)); [| done | done].
  intros db0 op Hwf0 He0.
  by eapply op_step_frozen; [| apply apply_op_step | |].
Qed.

(** The status column never leaves the six workflow statuses, whatever
    target string the callers of [ChangeWorkflowStatus] pass. *)
Theorem statuses_stay_known (db : DB) (ops : list Op) :
  db_wf db → statuses_known db → statuses_known (fold_left apply_op ops db).
Proof.
  apply apply_ops_invariant. clear db. intros db op Hwf Hknown.
  destruct (apply_op_step db op Hwf)
    as [-> | [(old & new & Hold & _ & _ & _ & _ & Hent & Hch)
             | (new & _ & Hst & _ & _ & _ & _ & _ & _ & Hent & _)]]; [done | |];
    intros id e; rewrite Hent, lookup_insert; case_decide; try apply Hknown;
    intros [= <-].
  - apply first_entry_Some in Hold as [Hold _]. specialize (Hknown _ _ Hold).
    destruct Hch as [role ? ? ? Hin _ _ | ? ? -> _ | ? -> _].
    + by apply in_table_statuses in Hin as (_ & _ & ?).
    + cbn. unfold known_status. cbn. tauto.
    + done.
  - rewrite Hst. unfold known_status. cbn. tauto.
Qed.

(** An entry whose status is [published] carries a publication time. *)
Theorem published_entries_are_stamped (db : DB) (ops : list Op) :
  db_wf db → published_stamped db → published_stamped (fold_left apply_op ops db).
Proof.
  apply apply_ops_invariant. clear db. intros db op Hwf Hst.
  destruct (apply_op_step db op Hwf)
    as [-> | [(old & new & Hold & Hnp & _ & _ & _ & Hent & Hch)
             | (new & _ & Hdraft & _ & _ & _ & _ & _ & _ & Hent & _)]]; [done | |];
    intros id e; rewrite Hent, lookup_insert; case_decide; try apply Hst;
    intros [= <-].
  - destruct Hch as [role ? now ? _ -> _ | ? ? -> _ | ? -> _]; cbn.
    + intros Hpub. apply String.eqb_eq in Hpub. by rewrite Hpub.
    + discriminate.
    + done.
  - by rewrite Hdraft.
Qed.

(** The audit trail only grows: a sequence of operations appends at most
    one row per operation to the history that was there, and every row it
    appends records a transition of the table. *)
Theorem history_is_append_only (db : DB) (ops : list Op) :
  db_wf db →
  ∃ added,
    history (fold_left apply_op ops db) = (history db ++ added)%list ∧
    (length added <= length ops)%nat ∧
    Forall (λ h, ∃ role, in_table (FromStatus h) (ToStatus h) role) added.
Proof.
  revert db. induction ops as [| op ops IH]; intros db Hwf.
  { exists []. by rewrite app_nil_r. }
  cbn [fold_left].
  destruct (IH (apply_op db op)) as (added & Hadded & Hlen & Hrows);
    [by apply (apply_ops_wf _ [op]) |].
  assert (∃ first, history (apply_op db op) = (history db ++ first)%list
                   ∧ (length first <= 1)%nat
                   ∧ Forall (λ h, ∃ role, in_table (FromStatus h) (ToStatus h) role)
                            first) as (first & Hfirst & Hlen1 & Hrows1).
  { assert (Hnone : ∀ db', history db' = history db →
              ∃ first, history db' = (history db ++ first)%list
                       ∧ (length first <= 1)%nat
                       ∧ Forall (λ h, ∃ role, in_table (FromStatus h) (ToStatus h) role)
                                first).
    { intros db' ->. exists []. rewrite app_nil_r. repeat split; [cbn; lia | constructor]. }
    destruct (apply_op_step db op Hwf)
      as [-> | [(old & new & _ & _ & _ & _ & _ & _ & Hch)
               | (new & _ & _ & _ & _ & _ & _ & _ & _ & _ & Hhist)]].
    - by apply Hnone.
    - destruct Hch as [role ? ? ? Hin _ Hhist | ? ? _ Hhist | ? _ Hhist].
      + eexists [_]. split; [exact Hhist |]. split; [done |].
        constructor; [| done]. by exists role.
      + by apply Hnone.
      + by apply Hnone.
    - by apply Hnone. }
  exists (first ++ added)%list. split; [| split].
  - by rewrite Hadded, Hfirst, app_assoc.
  - rewrite length_app. cbn [length]. lia.
  - by apply Forall_app.
Qed.

Lemma GetWorkflowHistory_snoc db db' h id :
  history db' = (history db ++ [h])%list →
  GetWorkflowHistory db' id
  = if N.eqb (EntryID h) id then h :: GetWorkflowHistory db id
    else GetWorkflowHistory db id.
Proof.
  intros Hhist. unfold GetWorkflowHistory.
  rewrite Hhist, List.filter_app. cbn [List.filter].
  destruct (N.eqb (EntryID h) id).
  - by rewrite rev_app_distr.
  - by rewrite app_nil_r.
Qed.

Lemma GetWorkflowHistory_same db db' id :
  history db' = history db → GetWorkflowHistory db' id = GetWorkflowHistory db id.
Proof. unfold GetWorkflowHistory. by intros ->. Qed.

(** Leaving drafts aside, the status of an entry is the target of its
    newest history row: a data update is the one way a status changes
    without a row, and it always lands on [draft]. *)
Theorem status_follows_newest_history_row (db : DB) (ops : list Op) :
  db_wf db → status_tracks_history db →
  status_tracks_history (fold_left apply_op ops db).
Proof.
  apply apply_ops_invariant. clear db. intros db op Hwf Htrack.
  destruct (apply_op_step db op Hwf)
    as [-> | [(old & new & Hold & _ & _ & _ & _ & Hent & Hch)
             | (new & _ & Hdraft & _ & _ & _ & _ & _ & _ & Hent & Hhist)]]; [done | |];
    intros id e; rewrite Hent, lookup_insert; case_decide as Hid.
  - intros [= <-]. subst id.
    apply first_entry_Some in Hold as [Hold _]. specialize (Htrack _ _ Hold).
    destruct Hch as [role ? ? ? _ _ Hhist | ? ? -> _ | ? -> Hhist].
    + right. rewrite (GetWorkflowHistory_snoc _ _ _ _ Hhist). cbn [EntryID].
      rewrite N.eqb_refl. by eexists.
    + by left.
    + cbn [Status]. by rewrite (GetWorkflowHistory_same _ _ _ Hhist).
  - intros He. specialize (Htrack _ _ He).
    destruct Hch as [role ? ? ? _ _ Hhist | ? ? _ Hhist | ? _ Hhist].
    + rewrite (GetWorkflowHistory_snoc _ _ _ _ Hhist). cbn [EntryID].
      by apply N.eqb_neq in Hid as ->.
    + by rewrite (GetWorkflowHistory_same _ _ _ Hhist).
    + by rewrite (GetWorkflowHistory_same _ _ _ Hhist).
  - intros [= <-]. by left.
  - intros He. rewrite (GetWorkflowHistory_same _ _ _ Hhist). by apply Htrack.
Qed.

(** [GetWorkflowHistory] after [ChangeWorkflowStatus]: a transition that
    goes through puts its row at the head of the history of that entry and
    leaves the history of every other entry as it was; one that fails
    changes no history. *)
Theorem history_query_after_transition
    (db : DB) (now entryID userID : N) (toStatus comment : string) :
  db_wf db →
  let out := ChangeWorkflowStatus db now entryID userID toStatus comment in
  match out.2 with
  | Ok entry' =>
    (∃ h, GetWorkflowHistory out.1 entryID = h :: GetWorkflowHistory db entryID
          ∧ ToStatus h = Status entry' ∧ ChangedBy h = userID
          ∧ Comment h = comment
          ∧ Some (FromStatus h) = Status <$> first_entry db entryID) ∧
    (∀ other, other ≠ entryID →
              GetWorkflowHistory out.1 other = GetWorkflowHistory db other)
  | _ => ∀ id, GetWorkflowHistory out.1 id = GetWorkflowHistory db id
  end.
Proof.
  intros Hwf out. subst out. unfold ChangeWorkflowStatus.
  destruct (first_entry db entryID) as [entry |] eqn:Hentry; [| done].
  destruct (first_user db userID) as [user |]; [| done].
  destruct (Role_ user) as [role |]; [| done].
  destruct (negb _); [done |]. cbn [fst snd]. split.
  - eexists. split.
    + erewrite GetWorkflowHistory_snoc; [| reflexivity]. cbn [EntryID].
      rewrite N.eqb_refl. reflexivity.
    + by repeat split.
  - intros other Hother.
    erewrite GetWorkflowHistory_snoc; [| reflexivity]. cbn [EntryID].
    destruct (N.eqb_spec entryID other); [congruence | done].
Qed.

(** In the workflow calls, the two services and the delete handler
    every check comes before the first write: such an operation, when it
    is refused (entry, caller or content type not found, transition not in
    the table, validation failed) or panics, leaves the store as it was
    given.  The create and the update handler are left out: they may
    already have stored uploaded media when they refuse. *)
Theorem failed_operations_write_nothing (db : DB) (op : Op) :
  checks_first op = true → op_succeeds db op = false → apply_op db op = db.
Proof.
  destruct op; cbn [checks_first op_succeeds apply_op]; intros Hfirst;
    try discriminate Hfirst; clear Hfirst.
  - unfold ChangeWorkflowStatus.
    destruct (first_entry db entryID); [| done].
    destruct (first_user db userID) as [user |]; [| done].
    destruct (Role_ user); [| done]. by destruct (negb _).
  - unfold RequestReview, ChangeWorkflowStatus.
    destruct (first_entry db entryID); [| done].
    destruct (negb _); [done |].
    destruct (first_user db userID) as [user |]; [| done].
    destruct (Role_ user); [| done]. by destruct (negb _).
  - unfold ApproveEntry, ChangeWorkflowStatus.
    destruct (first_entry db entryID); [| done].
    destruct (first_user db userID) as [user |]; [| done].
    destruct (Role_ user); [| done]. by destruct (negb _).
  - unfold RejectEntry, ChangeWorkflowStatus.
    destruct (first_entry db entryID); [| done].
    destruct (first_user db userID) as [user |]; [| done].
    destruct (Role_ user); [| done]. by destruct (negb _).
  - unfold PublishEntry, ChangeWorkflowStatus.
    destruct (first_entry db entryID); [| done].
    destruct (first_user db userID) as [user |]; [| done].
    destruct (Role_ user); [| done]. by destruct (negb _).
  - unfold CreateContentEntry.
    destruct (first_content_type db contentTypeID) as [ct |]; [| done].
    by destruct (ValidateContentEntryEnhanced db ct data) as [data' [e |]].
  - unfold UpdateEntry.
    destruct (first_entry db entryID) as [entry |]; [| done].
    destruct (String.eqb _ _); [done |].
    destruct (first_content_type db _) as [ct |]; [| done].
    by destruct (ValidateContentEntryEnhanced db ct data) as [data' [e |]].
  - unfold DeleteEntryHandler.
    destruct (first_entry db entryID) as [entry |]; [| done].
    by destruct (String.eqb _ _).
Qed.

End step_facts.

(** ** Permission resolver: guards, selection and scopes *)

Section resolver_facts.
Import middleware guards.

Lemma has_permission_row_holds role module action :
  has_permission_row (Permissions role) module action = true
  ↔ holds role (module, action).
Proof.
  unfold has_permission_row, holds. rewrite existsb_exists.
  split; intros (perm & Hin & H); exists perm; (split; [done |]).
  - apply andb_true_iff in H as [H1 H2]. by apply String.eqb_eq in H1, H2.
  - destruct H as [H1 H2]. cbn in H1, H2. by rewrite H1, H2, !String.eqb_refl.
Qed.

(** The route guard lets a request through exactly when [HasPermission]
    holds, that is when the caller's role has a permission row for the
    module and action; [HasAnyPermission] is [HasPermission] for one of
    the listed pairs; and the [HasPermission] of package user agrees with
    the middleware one whenever the caller has a role. *)
Theorem route_guard_checks_permission_rows
    (db : DB) (module action : string) (userID : N) :
  (PermissionProtected db module action userID = Next
   ↔ HasPermission db userID module action = true) ∧
  (HasPermission db userID module action = true
   ↔ ∃ user role, first_user db userID = Some user ∧ Role_ user = Some role
                  ∧ holds role (module, action)) ∧
  (∀ permissions,
     HasAnyPermission db userID permissions = true
     ↔ ∃ ma, In ma permissions ∧ HasPermission db userID ma.1 ma.2 = true) ∧
  (∀ user role,
     first_user db userID = Some user → Role_ user = Some role →
     user_HasPermission db userID module action
     = Ok (HasPermission db userID module action)).
Proof.
  unfold PermissionProtected, HasPermission, HasAnyPermission, user_HasPermission.
  destruct (first_user db userID) as [user |].
  - destruct (Role_ user) as [role |] eqn:Hrole.
    + split; [by destruct (has_permission_row _ _ _) |]. split; [| split].
      * rewrite has_permission_row_holds. split.
        -- intros Hholds. by exists user, role.
        -- intros (? & ? & [= <-] & Hr & ?). by simplify_eq.
      * intros permissions. rewrite existsb_exists. done.
      * intros ? ? [= <-] Hr. by simplify_eq.
    + split; [done |]. split; [| split].
      * split; [done |]. intros (? & ? & [= <-] & Hr & _). by simplify_eq.
      * intros permissions. split; [done | by intros (? & _ & [=])].
      * intros ? ? [= <-] Hr. by simplify_eq.
  - split; [done |]. split; [| split].
    + split; [done | by intros (? & ? & [=] & _)].
    + intros permissions. split; [done | by intros (? & _ & [=])].
    + by intros ? ? [=].
Qed.

(** The two notions of full access part ways at the route guard: a role
    that is full-access by holding the twelve permissions passes the guard
    for each of them, while an admin-named role without permission rows is
    full-access for field filtering and is turned away by every guard. *)
Theorem guard_ignores_the_admin_name
    (db : DB) (userID : N) (user : User) (role : Role) :
  first_user db userID = Some user →
  Role_ user = Some role →
  (RoleName role ≠ "admin" → IsFullAccessRole user = true →
   ∀ ma, In ma twelve_permissions →
         PermissionProtected db ma.1 ma.2 userID = Next) ∧
  (RoleName role = "admin" → Permissions role = [] →
   IsFullAccessRole user = true ∧
   ∀ module action, PermissionProtected db module action userID = PermissionDenied).
Proof.
  intros Huser Hrole. split.
  - intros Hname Hfull [module action] Hin.
    unfold IsFullAccessRole in Hfull. rewrite Hrole in Hfull.
    apply String.eqb_neq in Hname. rewrite Hname in Hfull.
    apply all_marked_twelve with (ma := (module, action)) in Hfull; [| done].
    unfold PermissionProtected. rewrite Huser, Hrole. cbn [fst snd].
    by apply has_permission_row_holds in Hfull as ->.
  - intros Hname Hperms. split.
    + unfold IsFullAccessRole. by rewrite Hrole, Hname.
    + intros module action. unfold PermissionProtected.
      by rewrite Huser, Hrole, Hperms.
Qed.

Lemma guard_ignores_the_admin_name_witness :
  (RoleName sample.admin ≠ "admin" →
   IsFullAccessRole (sample.user 3 sample.admin) = true →
   ∀ ma, In ma twelve_permissions →
         PermissionProtected sample.db ma.1 ma.2 3 = Next) ∧
  (RoleName sample.admin = "admin" → Permissions sample.admin = [] →
   IsFullAccessRole (sample.user 3 sample.admin) = true ∧
   ∀ module action, PermissionProtected sample.db module action 3 = PermissionDenied).
Proof.
  apply (guard_ignores_the_admin_name sample.db 3 (sample.user 3 sample.admin)
           sample.admin); reflexivity.
Defined.

Lemma content_type_applies_spec perm contentTypeID :
  content_type_applies perm contentTypeID = true
  ↔ ContentTypeIDs perm = [] ∨ In contentTypeID (ContentTypeIDs perm).
Proof.
  unfold content_type_applies. destruct (ContentTypeIDs perm) as [| id ids].
  - by split; [left |].
  - rewrite existsb_exists. split.
    + intros (x & Hin & Heq). apply N.eqb_eq in Heq as ->. by right.
    + intros [[=] | Hin]. exists contentTypeID. split; [done | apply N.eqb_refl].
Qed.

Lemma permission_applies_dec action contentTypeID perm :
  String.eqb (Module_ perm) "ContentEntry" && String.eqb (Action perm) action
  && content_type_applies perm contentTypeID = true
  ↔ permission_applies action contentTypeID perm.
Proof.
  unfold permission_applies.
  rewrite !andb_true_iff, !String.eqb_eq, content_type_applies_spec. tauto.
Qed.

(** The permission used for filtering is the first one, in the order the
    role lists them, that is a ContentEntry permission for the action
    whose whitelist is empty or contains the content type: a permission
    restricted to other content types is passed over, and a later one can
    still apply.  There is none exactly when no permission of the role
    applies. *)
Theorem select_permission_first_applicable
    (perms : list Permission) (action : string) (contentTypeID : N) :
  (∀ perm,
     select_permission perms action contentTypeID = Some perm
     ↔ ∃ before after,
         perms = (before ++ perm :: after)%list ∧
         permission_applies action contentTypeID perm ∧
         Forall (λ q, ¬ permission_applies action contentTypeID q) before) ∧
  (select_permission perms action contentTypeID = None
   ↔ Forall (λ q, ¬ permission_applies action contentTypeID q) perms).
Proof.
  induction perms as [| p perms [IHsome IHnone]]; cbn [select_permission].
  { split; [| by split; [constructor |]].
    intros perm. split; [done |]. by intros ([| ? ?] & ? & [=] & _). }
  pose proof (permission_applies_dec action contentTypeID p) as Hdec.
  destruct (String.eqb (Module_ p) "ContentEntry" && String.eqb (Action p) action)
    eqn:Hma; cbn [andb] in Hdec;
    [destruct (content_type_applies p contentTypeID) eqn:Hct |].
  - assert (Happ : permission_applies action contentTypeID p) by by apply Hdec.
    split.
    + intros perm. split.
      * intros [= <-]. exists [], perms. split; [done | split; [done | constructor]].
      * intros ([| q before] & after & Heq & Hperm & Hbefore).
        -- by injection Heq as <- _.
        -- injection Heq as <- _. by apply Forall_cons in Hbefore as [? _].
    + split; [done |]. intros Hall. by apply Forall_cons in Hall as [? _].
  - assert (Hnot : ¬ permission_applies action contentTypeID p)
      by (rewrite <- Hdec; discriminate).
    split.
    + intros perm. rewrite IHsome. split.
      * intros (before & after & -> & Hperm & Hbefore).
        exists (p :: before), after. split; [done | split; [done | by constructor]].
      * intros ([| q before] & after & Heq & Hperm & Hbefore).
        -- by injection Heq as <- _.
        -- injection Heq as <- ->. apply Forall_cons in Hbefore as [_ ?]. by eauto.
    + rewrite IHnone. split; [by constructor |].
      intros Hall. by apply Forall_cons in Hall as [_ ?].
  - assert (Hnot : ¬ permission_applies action contentTypeID p)
      by (rewrite <- Hdec; discriminate).
    split.
    + intros perm. rewrite IHsome. split.
      * intros (before & after & -> & Hperm & Hbefore).
        exists (p :: before), after. split; [done | split; [done | by constructor]].
      * intros ([| q before] & after & Heq & Hperm & Hbefore).
        -- by injection Heq as <- _.
        -- injection Heq as <- ->. apply Forall_cons in Hbefore as [_ ?]. by eauto.
    + rewrite IHnone. split; [by constructor |].
      intros Hall. by apply Forall_cons in Hall as [_ ?].
Qed.

Lemma mem_string_In k xs : mem_string k xs = true ↔ In k xs.
Proof.
  unfold mem_string. rewrite existsb_exists. split.
  - intros (x & Hin & Heq). by apply String.eqb_eq in Heq as ->.
  - intros Hin. exists k. split; [done | apply String.eqb_refl].
Qed.

Lemma dom_filter_keys (P : string → Prop) (Q : string * Value → Prop)
    `{!∀ kv, Decision (Q kv)} (data : gmap string Value) :
  (∀ k v, Q (k, v) ↔ P k) →
  ∀ k, k ∈ dom (filter Q data) ↔ k ∈ dom data ∧ P k.
Proof.
  intros HQ k. rewrite !elem_of_dom. unfold is_Some.
  setoid_rewrite map_lookup_filter_Some. setoid_rewrite HQ.
  split; [intros (v & ? & ?); eauto | intros ((v & ?) & ?); eauto].
Qed.

(** Under scope [custom] a non-empty allow list decides alone: the keys
    kept are the submitted keys on it, and the deny list is not looked at.
    With an empty allow list a non-empty deny list keeps every submitted
    key not on it.  With both lists empty [custom] keeps the submitted keys
    that name a field of the content type, as scope [all] does. *)
Theorem custom_scope_resolution
    (perm : Permission) (ct : ContentType) (data : gmap string Value) :
  FieldScope perm = "custom" →
  (AllowedFields perm ≠ [] →
   ∀ k, k ∈ dom (filter_with_permission perm ct data)
        ↔ k ∈ dom data ∧ In k (AllowedFields perm)) ∧
  (AllowedFields perm = [] → DeniedFields perm ≠ [] →
   ∀ k, k ∈ dom (filter_with_permission perm ct data)
        ↔ k ∈ dom data ∧ ¬ In k (DeniedFields perm)) ∧
  (AllowedFields perm = [] → DeniedFields perm = [] →
   ∀ k, k ∈ dom (filter_with_permission perm ct data)
        ↔ k ∈ dom data ∧ names_field ct k).
Proof.
  intros Hscope. unfold filter_with_permission. rewrite Hscope.
  change (String.eqb "custom" "") with false.
  change (String.eqb "custom" "custom") with true. cbn match.
  split; [| split].
  - intros Hallowed. destruct (AllowedFields perm) as [| a allowed] eqn:Ha; [done |].
    apply dom_filter_keys. intros k v. unfold keep_allowed. cbn [fst].
    apply mem_string_In.
  - intros -> Hdenied. destruct (DeniedFields perm) as [| d denied] eqn:Hd; [done |].
    apply dom_filter_keys. intros k v. unfold keep_not_denied. cbn [fst].
    rewrite <- mem_string_In. by destruct (mem_string k (d :: denied)).
  - intros -> ->. apply dom_filter_keys. intros k v.
    rewrite <- first_field_named_is_Some. unfold keep_by_scope. cbn [fst].
    destruct (first_field_named k (Fields ct ++ SEOFields ct)) as [f |].
    + split; [by eauto | done].
    + split; [done | by intros [? [=]]].
Qed.

Lemma custom_scope_resolution_witness :
  (AllowedFields (sample.perm "ContentEntry" "update" "custom" ["secret"]) ≠ [] →
   ∀ k, k ∈ dom (filter_with_permission
                   (sample.perm "ContentEntry" "update" "custom" ["secret"])
                   sample.article ({["title" := VString "t"]} : gmap string Value))
        ↔ k ∈ dom ({["title" := VString "t"]} : gmap string Value)
          ∧ In k (AllowedFields (sample.perm "ContentEntry" "update" "custom" ["secret"]))) ∧
  (AllowedFields (sample.perm "ContentEntry" "update" "custom" ["secret"]) = [] →
   DeniedFields (sample.perm "ContentEntry" "update" "custom" ["secret"]) ≠ [] →
   ∀ k, k ∈ dom (filter_with_permission
                   (sample.perm "ContentEntry" "update" "custom" ["secret"])
                   sample.article ({["title" := VString "t"]} : gmap string Value))
        ↔ k ∈ dom ({["title" := VString "t"]} : gmap string Value)
          ∧ ¬ In k (DeniedFields (sample.perm "ContentEntry" "update" "custom" ["secret"]))) ∧
  (AllowedFields (sample.perm "ContentEntry" "update" "custom" ["secret"]) = [] →
   DeniedFields (sample.perm "ContentEntry" "update" "custom" ["secret"]) = [] →
   ∀ k, k ∈ dom (filter_with_permission
                   (sample.perm "ContentEntry" "update" "custom" ["secret"])
                   sample.article ({["title" := VString "t"]} : gmap string Value))
        ↔ k ∈ dom ({["title" := VString "t"]} : gmap string Value)
          ∧ names_field sample.article k).
Proof.
  apply (custom_scope_resolution
           (sample.perm "ContentEntry" "update" "custom" ["secret"])
           sample.article {["title" := VString "t"]}).
  reflexivity.
Defined.

Lemma filter_by_scope_dom perm ct (data : gmap string Value) scope k :
  (if String.eqb (FieldScope perm) "" then "all" else FieldScope perm) = scope →
  String.eqb scope "custom" = false →
  k ∈ dom (filter_with_permission perm ct data)
  ↔ k ∈ dom data
    ∧ ∃ f, first_field_named k (Fields ct ++ SEOFields ct) = Some f
           ∧ scope_keeps scope f = true.
Proof.
  intros Hscope Hcustom. unfold filter_with_permission. rewrite Hscope, Hcustom.
  apply (dom_filter_keys
           (λ k, ∃ f, first_field_named k (Fields ct ++ SEOFields ct) = Some f
                      ∧ scope_keeps scope f = true)).
  intros k' v. unfold keep_by_scope. cbn [fst].
  destruct (first_field_named k' (Fields ct ++ SEOFields ct)) as [f |].
  - split; [by eauto | by intros (? & [= <-] & ?)].
  - split; [done | by intros (? & [=] & _)].
Qed.

(** The scopes [seo_only] and [non_seo_only] split what scope [all] lets
    through: for the same content type and payload no key is kept by
    both, and together they keep exactly the keys kept under [all]. *)
Theorem seo_scopes_partition_all
    (p_seo p_non p_all : Permission) (ct : ContentType) (data : gmap string Value) :
  FieldScope p_seo = "seo_only" →
  FieldScope p_non = "non_seo_only" →
  FieldScope p_all = "all" →
  dom (filter_with_permission p_seo ct data)
    ∩ dom (filter_with_permission p_non ct data) = ∅ ∧
  dom (filter_with_permission p_seo ct data)
    ∪ dom (filter_with_permission p_non ct data)
  = dom (filter_with_permission p_all ct data).
Proof.
  intros Hseo Hnon Hall.
  assert (H1 := λ k, filter_by_scope_dom p_seo ct data "seo_only" k
                       ltac:(by rewrite Hseo) eq_refl).
  assert (H2 := λ k, filter_by_scope_dom p_non ct data "non_seo_only" k
                       ltac:(by rewrite Hnon) eq_refl).
  assert (H3 := λ k, filter_by_scope_dom p_all ct data "all" k
                       ltac:(by rewrite Hall) eq_refl).
  split; apply set_eq; intros k;
    rewrite ?elem_of_intersection, ?elem_of_union, H1, H2, ?H3, ?elem_of_empty.
  - split; [| done]. intros [(_ & f & Hf & Hk1) (_ & g & Hg & Hk2)].
    assert (g = f) as -> by congruence.
    unfold scope_keeps in Hk1, Hk2. cbn in Hk1, Hk2. by destruct (IsSEO f).
  - split.
    + intros [(? & f & ? & _) | (? & f & ? & _)]; (split; [done |]); by exists f.
    + intros (Hk & f & Hf & _). destruct (IsSEO f) eqn:Hseof.
      * left. split; [done |]. by exists f.
      * right. split; [done |]. exists f. split; [done |].
        unfold scope_keeps. cbn. by rewrite Hseof.
Qed.

Lemma seo_scopes_partition_all_witness :
  dom (filter_with_permission (sample.perm "ContentEntry" "update" "seo_only" [])
         sample.article
         ({["title" := VString "t"; "meta_title" := VString "m"]} : gmap string Value))
    ∩ dom (filter_with_permission (sample.perm "ContentEntry" "update" "non_seo_only" [])
             sample.article
             ({["title" := VString "t"; "meta_title" := VString "m"]}
                : gmap string Value)) = ∅ ∧
  dom (filter_with_permission (sample.perm "ContentEntry" "update" "seo_only" [])
         sample.article
         ({["title" := VString "t"; "meta_title" := VString "m"]} : gmap string Value))
    ∪ dom (filter_with_permission (sample.perm "ContentEntry" "update" "non_seo_only" [])
             sample.article
             ({["title" := VString "t"; "meta_title" := VString "m"]}
                : gmap string Value))
  = dom (filter_with_permission (sample.perm "ContentEntry" "update" "all" [])
           sample.article
           ({["title" := VString "t"; "meta_title" := VString "m"]}
              : gmap string Value)).
Proof.
  apply (seo_scopes_partition_all
           (sample.perm "ContentEntry" "update" "seo_only" [])
           (sample.perm "ContentEntry" "update" "non_seo_only" [])
           (sample.perm "ContentEntry" "update" "all" [])); reflexivity.
Defined.

End resolver_facts.

(** ** Permission resolver: filtering as a whole *)

Section filtering_facts.
Import middleware.

Lemma filter_with_permission_idem perm ct (data : gmap string Value) :
  filter_with_permission perm ct (filter_with_permission perm ct data)
  = filter_with_permission perm ct data.
Proof.
  unfold filter_with_permission.
  destruct (String.eqb _ "custom");
    [destruct (AllowedFields perm), (DeniedFields perm) |];
    apply map_filter_id; intros k v Hkv;
    by apply map_lookup_filter_Some in Hkv as [_ ?].
Qed.

Lemma filter_with_permission_mono perm ct (data data' : gmap string Value) :
  data ⊆ data' →
  filter_with_permission perm ct data ⊆ filter_with_permission perm ct data'.
Proof.
  intros Hsub. unfold filter_with_permission.
  destruct (String.eqb _ "custom");
    [destruct (AllowedFields perm), (DeniedFields perm) |];
    by apply map_filter_subseteq_mono.
Qed.

(** Filtering is a projection of the payload.  What it returns is a part
    of what was submitted, every kept key with its submitted value;
    filtering the result again for the same caller returns it unchanged;
    and a larger payload yields a larger result. *)
Theorem filtering_is_a_projection
    (db : DB) (userID : N) (action : string) (contentTypeID : N)
    (data m : gmap string Value) :
  FilterFieldsByPermission db userID action data contentTypeID = Ok m →
  m ⊆ data ∧
  FilterFieldsByPermission db userID action m contentTypeID = Ok m ∧
  (∀ data', data ⊆ data' →
     ∃ m', FilterFieldsByPermission db userID action data' contentTypeID = Ok m'
           ∧ m ⊆ m').
Proof.
  unfold FilterFieldsByPermission.
  destruct (first_user db userID) as [user |]; [| done].
  destruct (IsFullAccessRole user).
  { intros [= <-]. repeat split; [done |]. intros data' Hsub. by exists data'. }
  destruct (Role_ user) as [role |]; [| done].
  destruct (select_permission _ _ _) as [perm |]; [| done].
  destruct (first_content_type db contentTypeID) as [ct |]; [| done].
  intros [= <-]. split; [apply filter_with_permission_subseteq |]. split.
  - by rewrite filter_with_permission_idem.
  - intros data' Hsub. eexists. split; [done |].
    by apply filter_with_permission_mono.
Qed.

Lemma filtering_is_a_projection_witness :
  ({["meta_title" := VString "m"]} : gmap string Value)
    ⊆ {["title" := VString "t"; "meta_title" := VString "m"]} ∧
  FilterFieldsByPermission sample.db 7 "update" {["meta_title" := VString "m"]} 1
    = Ok {["meta_title" := VString "m"]} ∧
  (∀ data', ({["title" := VString "t"; "meta_title" := VString "m"]}
               : gmap string Value) ⊆ data' →
     ∃ m', FilterFieldsByPermission sample.db 7 "update" data' 1 = Ok m'
           ∧ {["meta_title" := VString "m"]} ⊆ m').
Proof.
  apply (filtering_is_a_projection sample.db 7 "update" 1
           {["title" := VString "t"; "meta_title" := VString "m"]}).
  vm_compute. reflexivity.
Defined.

Lemma select_permission_None_iff perms action contentTypeID :
  select_permission perms action contentTypeID = None
  ↔ Forall (λ q, ¬ permission_applies action contentTypeID q) perms.
Proof.
  induction perms as [| p perms IH]; cbn [select_permission];
    [by split; [constructor |] |].
  pose proof (permission_applies_dec action contentTypeID p) as Hdec.
  destruct (String.eqb (Module_ p) "ContentEntry" && String.eqb (Action p) action);
    cbn [andb] in Hdec; [destruct (content_type_applies p contentTypeID) |].
  - split; [done |]. intros Hall. apply Forall_cons in Hall as [Hnot _].
    destruct Hnot. by apply Hdec.
  - rewrite IH. split.
    + constructor; [| done]. rewrite <- Hdec. discriminate.
    + intros Hall. by apply Forall_cons in Hall as [_ ?].
  - rewrite IH. split.
    + constructor; [| done]. rewrite <- Hdec. discriminate.
    + intros Hall. by apply Forall_cons in Hall as [_ ?].
Qed.

(** Whether filtering fails, and with which error, is settled before the
    payload is looked at: two payloads submitted by the same caller for
    the same action and content type are both filtered, or both refused
    with the same error.  The refusal is "no permission" exactly when the
    caller is known, is not full-access, and no permission of the role
    applies to the action and content type. *)
Theorem permission_outcome_ignores_payload
    (db : DB) (userID : N) (action : string) (contentTypeID : N) :
  (∀ data data',
     match FilterFieldsByPermission db userID action data contentTypeID,
           FilterFieldsByPermission db userID action data' contentTypeID with
     | Ok _, Ok _ => True
     | Err e, Err e' => e = e'
     | Panic, Panic => True
     | _, _ => False
     end) ∧
  (∀ data,
     FilterFieldsByPermission db userID action data contentTypeID
       = Err ErrNoPermission
     ↔ ∃ user role,
         first_user db userID = Some user ∧ IsFullAccessRole user = false ∧
         Role_ user = Some role ∧
         Forall (λ q, ¬ permission_applies action contentTypeID q)
                (Permissions role)).
Proof.
  unfold FilterFieldsByPermission. split.
  - intros data data'.
    destruct (first_user db userID) as [user |]; [| done].
    destruct (IsFullAccessRole user); [done |].
    destruct (Role_ user) as [role |]; [| done].
    destruct (select_permission _ _ _) as [perm |]; [| done].
    by destruct (first_content_type db contentTypeID).
  - intros data.
    destruct (first_user db userID) as [user |];
      [| split; [done | by intros (? & ? & [=] & _)]].
    destruct (IsFullAccessRole user) eqn:Hfull.
    { split; [done |]. intros (? & ? & [= <-] & ? & _). congruence. }
    destruct (Role_ user) as [role |] eqn:Hrole.
    2: { split; [done |]. intros (? & ? & [= <-] & _ & ? & _). congruence. }
    destruct (select_permission _ _ _) as [perm |] eqn:Hsel.
    + split.
      * by destruct (first_content_type db contentTypeID).
      * intros (? & ? & [= <-] & _ & Hr & Hall). simplify_eq.
        apply select_permission_None_iff in Hall. congruence.
    + split; [| done]. intros _. exists user, role.
      split; [done | split; [done | split; [done |]]].
      by apply select_permission_None_iff.
Qed.

(** [CanAccessField] on the read path.  A caller without a role, and a
    name that is no field of the content type, get [false].  For a role
    that is not full-access and has a single ContentEntry permission
    applying to the content type, the answer for a field agrees with what
    [FilterFieldsByPermission] keeps under that permission whenever the
    scope is [all], unset, [seo_only], [non_seo_only], or [custom] with a
    non-empty list; under [custom] with both lists empty the field is kept
    by the filter but [CanAccessField] answers [false]. *)
Theorem canAccessField_against_filter
    (db : DB) (userID : N) (fieldName : string) (contentTypeID : N)
    (user : User) :
  first_user db userID = Some user →
  (Role_ user = None →
   CanAccessField db userID fieldName contentTypeID = Ok false) ∧
  (∀ role, Role_ user = Some role → IsFullAccessRole user = false →
     (∀ ct, first_content_type db contentTypeID = Some ct →
            ¬ names_field ct fieldName) →
     CanAccessField db userID fieldName contentTypeID = Ok false) ∧
  (∀ role perm ct v,
     Role_ user = Some role → IsFullAccessRole user = false →
     Permissions role = [perm] →
     Module_ perm = "ContentEntry" →
     content_type_applies perm contentTypeID = true →
     first_content_type db contentTypeID = Some ct →
     names_field ct fieldName →
     (In (FieldScope perm) [""; "all"; "seo_only"; "non_seo_only"]
      ∨ (FieldScope perm = "custom"
         ∧ (AllowedFields perm ≠ [] ∨ DeniedFields perm ≠ [])) →
      (CanAccessField db userID fieldName contentTypeID = Ok true
       ↔ fieldName ∈ dom (filter_with_permission perm ct {[fieldName := v]}))) ∧
     (FieldScope perm = "custom" → AllowedFields perm = [] →
      DeniedFields perm = [] →
      CanAccessField db userID fieldName contentTypeID = Ok false
      ∧ fieldName ∈ dom (filter_with_permission perm ct {[fieldName := v]}))).
Proof.
  intros Huser. unfold CanAccessField. rewrite Huser.
  split; [by intros -> | split].
  - intros role -> -> Hno.
    destruct (first_content_type db contentTypeID) as [ct |]; [| done].
    destruct (first_field_named fieldName (Fields ct ++ SEOFields ct)) eqn:Hf;
      [| done].
    destruct (Hno ct eq_refl). apply first_field_named_is_Some. by rewrite Hf.
  - intros role perm ct v -> -> Hperms Hmodule Hct -> Hnamed.
    apply first_field_named_is_Some in Hnamed as [f Hf]. rewrite Hf, Hperms.
    cbn [access_by_permissions]. rewrite Hmodule, Hct.
    change (negb (String.eqb "ContentEntry" "ContentEntry")) with false.
    cbn [negb].
    assert (Hdom : ∀ (Q : string * Value → Prop) `{!∀ kv, Decision (Q kv)},
               fieldName ∈ dom (filter Q ({[fieldName := v]} : gmap string Value))
               ↔ Q (fieldName, v)).
    { intros Q ?. rewrite elem_of_dom. unfold is_Some.
      setoid_rewrite map_lookup_filter_Some.
      setoid_rewrite lookup_singleton_Some. split.
      - by intros (? & [_ <-] & ?).
      - intros HQ. by exists v. }
    unfold filter_with_permission. split.
    + intros [Hscope | [Hscope Hlists]].
      * cbn [In] in Hscope.
        destruct Hscope as [<- | [<- | [<- | [<- | []]]]];
          eval_literal_eqb; cbn [orb andb negb];
          rewrite Hdom; unfold keep_by_scope; cbn [fst]; rewrite Hf;
          unfold scope_keeps; eval_literal_eqb; cbn [orb andb negb];
          try (split; [by intros _ | done]);
          destruct (IsSEO f); cbn [negb]; split; congruence.
      * rewrite Hscope. eval_literal_eqb. cbn [orb andb negb].
        destruct (AllowedFields perm) as [| a allowed].
        -- destruct (DeniedFields perm) as [| d denied]; [by destruct Hlists |].
           rewrite Hdom. unfold keep_not_denied. cbn [fst].
           destruct (mem_string fieldName (d :: denied)); cbn [negb]; split; congruence.
        -- rewrite Hdom. unfold keep_allowed. cbn [fst].
           destruct (mem_string fieldName (a :: allowed)); split; congruence.
    + intros Hscope -> ->. rewrite Hscope. eval_literal_eqb. cbn [orb andb negb].
      split; [done |].
      rewrite Hdom. unfold keep_by_scope. cbn [fst]. by rewrite Hf.
Qed.

Lemma canAccessField_against_filter_witness :
  (Role_ (sample.user 7 sample.seo_writer) = None →
   CanAccessField sample.db 7 "meta_title" 1 = Ok false) ∧
  (∀ role, Role_ (sample.user 7 sample.seo_writer) = Some role →
     IsFullAccessRole (sample.user 7 sample.seo_writer) = false →
     (∀ ct, first_content_type sample.db 1 = Some ct →
            ¬ names_field ct "meta_title") →
     CanAccessField sample.db 7 "meta_title" 1 = Ok false) ∧
  (∀ role perm ct v,
     Role_ (sample.user 7 sample.seo_writer) = Some role →
     IsFullAccessRole (sample.user 7 sample.seo_writer) = false →
     Permissions role = [perm] →
     Module_ perm = "ContentEntry" →
     content_type_applies perm 1 = true →
     first_content_type sample.db 1 = Some ct →
     names_field ct "meta_title" →
     (In (FieldScope perm) [""; "all"; "seo_only"; "non_seo_only"]
      ∨ (FieldScope perm = "custom"
         ∧ (AllowedFields perm ≠ [] ∨ DeniedFields perm ≠ [])) →
      (CanAccessField sample.db 7 "meta_title" 1 = Ok true
       ↔ "meta_title" ∈ dom (filter_with_permission perm ct {["meta_title" := v]}))) ∧
     (FieldScope perm = "custom" → AllowedFields perm = [] →
      DeniedFields perm = [] →
      CanAccessField sample.db 7 "meta_title" 1 = Ok false
      ∧ "meta_title" ∈ dom (filter_with_permission perm ct {["meta_title" := v]}))).
Proof.
  apply (canAccessField_against_filter sample.db 7 "meta_title" 1
           (sample.user 7 sample.seo_writer)).
  reflexivity.
Defined.

End filtering_facts.

(** ** Field validator: formats, types and bounds *)

Section format_facts.
Context {rt : Runtime}.
Import content.

Lemma hyphen_is_no_slug_letter : is_lower_alnum "-"%char = false.
Proof. reflexivity. Qed.

Lemma slug_run_spec s :
  ∀ fresh,
    slug_run fresh s = true
    ↔ ∃ w ws, slug_letters w ∧ (fresh = true → w ≠ EmptyString)
              ∧ Forall slug_word ws ∧ s = w +:+ hyphen_tail ws.
Proof.
  induction s as [| c r IH]; intros fresh; cbn [slug_run].
  - split.
    + intros Hfresh. exists EmptyString, []. destruct fresh; [done |].
      split; [constructor | split; [done | split; [constructor | done]]].
    + intros (w & ws & _ & Hne & _ & Heq).
      destruct w as [| ? ?]; [| done].
      destruct fresh; [by destruct Hne | done].
  - split.
    + destruct (is_lower_alnum c) eqn:Hc.
      * intros Hrun. apply IH in Hrun as (w & ws & Hw & _ & Hws & ->).
        exists (String c w), ws.
        split; [by constructor | split; [done | split; [done | done]]].
      * destruct (Ascii.eqb_spec c "-"%char) as [-> | _]; [| done].
        intros Hrun. apply andb_true_iff in Hrun as [Hfresh Hrun].
        apply IH in Hrun as (w & ws & Hw & Hne & Hws & ->).
        exists EmptyString, (w :: ws).
        split; [constructor | split; [by destruct fresh | split; [| done]]].
        constructor; [| done]. split; [by apply Hne | done].
    + intros (w & ws & Hw & Hne & Hws & Heq). destruct w as [| c' w'].
      * destruct ws as [| x xs]; [done |]. cbn in Heq. injection Heq as -> ->.
        rewrite hyphen_is_no_slug_letter. cbn.
        apply Forall_cons in Hws as [[Hx1 Hx2] Hxs].
        destruct fresh; [by destruct Hne |]. cbn. apply IH. by exists x, xs.
      * cbn in Heq. injection Heq as -> ->.
        apply Forall_cons in Hw as [Hc Hw']. rewrite Hc.
        apply IH. by exists w', ws.
Qed.

(** The slug check accepts exactly the non-empty words of lower-case
    letters and digits joined by single hyphens: never the empty string,
    an upper-case letter, a leading or trailing hyphen, or two hyphens in
    a row. *)
Theorem slug_format_recognised (s : string) :
  slugRegex_MatchString s = true
  ↔ ∃ w ws, slug_word w ∧ Forall slug_word ws ∧ s = w +:+ hyphen_tail ws.
Proof.
  unfold slugRegex_MatchString. rewrite slug_run_spec. split.
  - intros (w & ws & Hw & Hne & Hws & ->). exists w, ws.
    split; [split; [by apply Hne | done] | split; [done | done]].
  - intros (w & ws & [Hne Hw] & Hws & ->). by exists w, ws.
Qed.

Lemma float64_of_int_exact (z : Z) :
  Z.abs z <= 2 ^ 53 → float64_of_int z = inject_Z z.
Proof.
  intros Hz. unfold float64_of_int.
  destruct (Z.leb_spec (Z.log2 (Z.abs z) - 52) 0) as [_ | He]; [done |].
  assert (Hlog : Z.log2 (Z.abs z) = 53).
  { pose proof (Z.log2_le_mono (Z.abs z) (2 ^ 53) Hz) as Hle.
    rewrite Z.log2_pow2 in Hle; lia. }
  assert (Habs : Z.abs z = 2 ^ 53).
  { assert (Hpos : 0 < Z.abs z).
    { destruct (Z.le_gt_cases (Z.abs z) 0) as [Hle | Hgt]; [| lia].
      rewrite (Z.log2_nonpos _ Hle) in Hlog. lia. }
    destruct (Z.log2_spec (Z.abs z) Hpos) as [Hlo _]. rewrite Hlog in Hlo. lia. }
  rewrite Hlog, Habs. change (53 - 52) with 1.
  change (inject_Z (Z.sgn z * 2 ^ 53) = inject_Z z). f_equal. lia.
Qed.

(** A value the type switch accepts has the dynamic type the declared
    type calls for: a string for string, text, email, url, date and
    media; a [float64], [float32], [int] or [int64] for number, while a
    [uint] such as a media identifier is refused there; a boolean for
    boolean.  An integer is judged after its conversion to [float64],
    which is exact up to [2^53] in magnitude.  A declared type outside
    these eight is not checked at all. *)
Theorem type_switch_soundness (field : ContentField) (value : Value) :
  (enhanced_type_switch field value = None →
   (In (Type_ field) ["string"; "text"; "email"; "url"; "date"; "media"] →
    ∃ s, value = VString s) ∧
   (Type_ field = "number" →
    (∃ q, value = VFloat64 q ∨ value = VFloat32 q)
    ∨ (∃ z, value = VInt z ∨ value = VInt64 z)) ∧
   (Type_ field = "boolean" → ∃ b, value = VBool b)) ∧
  (Type_ field = "number" →
   (∀ n, enhanced_type_switch field (VUint n) = Some (ErrMustBeNumber (Name field))) ∧
   (∀ q, enhanced_type_switch field (VFloat32 q)
         = enhanced_type_switch field (VFloat64 q)) ∧
   (∀ z, Z.abs z <= 2 ^ 53 →
         enhanced_type_switch field (VInt z)
           = enhanced_type_switch field (VFloat64 (inject_Z z))
         ∧ enhanced_type_switch field (VInt64 z)
           = enhanced_type_switch field (VFloat64 (inject_Z z)))) ∧
  (¬ In (Type_ field) ["string"; "text"; "email"; "url"; "number"; "boolean";
                       "date"; "media"] →
   enhanced_type_switch field value = None).
Proof.
  unfold enhanced_type_switch. split; [| split].
  - intros Hacc. split; [| split].
    + cbn [In]. intros [Ht | [Ht | [Ht | [Ht | [Ht | [Ht | []]]]]]];
        revert Hacc; rewrite <- Ht; eval_literal_eqb; cbn [orb];
        unfold validateString, validateEmail, validateURL, validateDate,
          validateMedia;
        destruct value; try discriminate; by eauto.
    + intros Ht. revert Hacc. rewrite Ht. eval_literal_eqb. cbn [orb].
      unfold validateNumber.
      destruct value; cbn [number_of]; try discriminate; intros _;
        [left | left | right | right]; eauto.
    + intros Ht. revert Hacc. rewrite Ht. eval_literal_eqb. cbn [orb].
      destruct value; try discriminate; by eauto.
  - intros Ht. rewrite Ht. eval_literal_eqb. cbn [orb].
    split; [done | split; [done |]].
    intros z Hz. unfold validateNumber. cbn [number_of].
    by rewrite (float64_of_int_exact z Hz).
  - cbn [In]. intros Hno.
    repeat match goal with
           | |- context [String.eqb (Type_ field) ?lit] =>
             destruct (String.eqb_spec (Type_ field) lit) as [Heq | _];
               [destruct Hno; rewrite Heq; tauto |]
           end.
    reflexivity.
Qed.

(** The bounds are inclusive.  A number passes exactly when it is not
    below the minimum and not above the maximum, where configured; a
    string that passes has a byte length within the configured limits and,
    in a field named slug, the slug format whatever pattern is
    configured. *)
Theorem constraint_bounds_are_inclusive (field : ContentField) :
  (∀ q, validateNumber field (VFloat64 q) = None
        ↔ (∀ m, MinValue field = Some m → (m <= q)%Q)
          ∧ (∀ m, MaxValue field = Some m → (q <= m)%Q)) ∧
  (∀ s, validateString field (VString s) = None →
        (∀ m, MinLength field = Some m → m <= len s) ∧
        (∀ m, MaxLength field = Some m → len s <= m) ∧
        (Name field = "slug" → slugRegex_MatchString s = true)).
Proof.
  split.
  - intros q. unfold validateNumber, Qltb. cbn [number_of].
    destruct (MinValue field) as [lo |], (MaxValue field) as [hi |]; cbn [default].
    + destruct (Qle_bool lo q) eqn:Hlo; cbn [negb].
      * destruct (Qle_bool q hi) eqn:Hhi; cbn [negb].
        -- apply Qle_bool_iff in Hlo, Hhi. split; [| done].
           intros _. by split; intros ? [= <-].
        -- split; [done |]. intros [_ Hmax].
           specialize (Hmax hi eq_refl). apply Qle_bool_iff in Hmax. congruence.
      * split; [done |]. intros [Hmin _].
        specialize (Hmin lo eq_refl). apply Qle_bool_iff in Hmin. congruence.
    + destruct (Qle_bool lo q) eqn:Hlo; cbn [negb].
      * apply Qle_bool_iff in Hlo. split; [| done].
        intros _. by split; [intros ? [= <-] | intros ? [=]].
      * split; [done |]. intros [Hmin _].
        specialize (Hmin lo eq_refl). apply Qle_bool_iff in Hmin. congruence.
    + destruct (Qle_bool q hi) eqn:Hhi; cbn [negb].
      * apply Qle_bool_iff in Hhi. split; [| done].
        intros _. by split; [intros ? [=] | intros ? [= <-]].
      * split; [done |]. intros [_ Hmax].
        specialize (Hmax hi eq_refl). apply Qle_bool_iff in Hmax. congruence.
    + split; [| done]. intros _. by split; intros ? [=].
  - intros s. unfold validateString.
    destruct (match MinLength field with Some m => len s <? m | None => false end)
      eqn:Hmin; [done |].
    destruct (match MaxLength field with Some m => len s >? m | None => false end)
      eqn:Hmax; [done |].
    intros Hrest. split; [| split].
    + intros m Hm. rewrite Hm in Hmin. lia.
    + intros m Hm. rewrite Hm in Hmax. lia.
    + intros Hname. rewrite Hname in Hrest.
      change (String.eqb "slug" "slug") with true in Hrest. cbn [andb] in Hrest.
      destruct (if String.eqb (Pattern field) "" then None else _); [done |].
      by destruct (slugRegex_MatchString s).
Qed.

End format_facts.

(** ** Field validator: the full validation as a whole *)

Section full_validation_facts.
Context {rt : Runtime}.
Import content.

Lemma validate_fields_distinct db ctID submitted fields :
  ∀ acc,
    NoDup (map Name fields) →
    (∀ f, In f fields → acc !! Name f = submitted !! Name f) →
    match validate_fields db ctID fields acc with
    | (acc', None) =>
      Forall (λ f, field_verdict db ctID submitted f = None) fields
      ∧ acc' = inject_defaults submitted fields acc
    | (_, Some e) =>
      ∃ before f after,
        fields = (before ++ f :: after)%list
        ∧ Forall (λ g, field_verdict db ctID submitted g = None) before
        ∧ field_verdict db ctID submitted f = Some e
    end.
Proof.
  induction fields as [| f fields IH]; intros acc Hnodup Hsame;
    cbn [validate_fields].
  { split; [constructor | done]. }
  cbn [map] in Hnodup. apply NoDup_cons in Hnodup as [Hfresh Hnodup].
  assert (Hf : acc !! Name f = submitted !! Name f) by (apply Hsame; by left).
  assert (Hrest : ∀ acc1 : gmap string Value,
            (∀ k, k ≠ Name f → acc1 !! k = acc !! k) →
            ∀ g, In g fields → acc1 !! Name g = submitted !! Name g).
  { intros acc1 Hacc1 g Hg. rewrite Hacc1; [apply Hsame; by right |].
    intros Heq. apply Hfresh. rewrite <- Heq. apply list_elem_of_In.
    by apply in_map. }
  assert (Hstep : ∀ acc1 : gmap string Value,
            (∀ k, k ≠ Name f → acc1 !! k = acc !! k) →
            field_verdict db ctID submitted f = None →
            match validate_fields db ctID fields acc1 with
            | (acc', None) =>
              Forall (λ g, field_verdict db ctID submitted g = None) (f :: fields)
              ∧ acc' = inject_defaults submitted fields acc1
            | (_, Some e) =>
              ∃ before g after,
                f :: fields = (before ++ g :: after)%list
                ∧ Forall (λ g, field_verdict db ctID submitted g = None) before
                ∧ field_verdict db ctID submitted g = Some e
            end).
  { intros acc1 Hacc1 Hverdict.
    specialize (IH acc1 Hnodup (Hrest acc1 Hacc1)).
    destruct (validate_fields db ctID fields acc1) as [acc' [e |]].
    - destruct IH as (before & g & after & -> & Hbefore & Hg).
      exists (f :: before), g, after. split; [done |]. split; [by constructor | done].
    - destruct IH as [Hall ->]. split; [by constructor | done]. }
  unfold inject_defaults. cbn [fold_left]. fold (inject_defaults submitted).
  unfold field_verdict in Hstep |- *. rewrite <- Hf in Hstep |- *.
  destruct (absent_or_empty (acc !! Name f)) eqn:Hmissing.
  - destruct (Required f) eqn:Hreq.
    + exists [], f, fields. split; [done |]. split; [constructor |].
      unfold field_verdict. by rewrite <- Hf, Hmissing, Hreq.
    + cbn [andb].
      destruct (negb (String.eqb (DefaultValue f) "")).
      * apply Hstep; [| done]. intros k Hk. by rewrite lookup_insert_ne.
      * by apply Hstep.
  - cbn [andb].
    destruct (present_field_checks db ctID f (default VNil (acc !! Name f)))
      as [e |] eqn:Hchk.
    + exists [], f, fields. split; [done |]. split; [constructor |].
      unfold field_verdict. by rewrite <- Hf, Hmissing.
    + by apply Hstep.
Qed.

Lemma inject_defaults_other submitted fields (acc : gmap string Value) k :
  ¬ In k (map Name fields) → inject_defaults submitted fields acc !! k = acc !! k.
Proof.
  unfold inject_defaults. revert acc.
  induction fields as [| f fields IH]; intros acc Hk; cbn [fold_left]; [done |].
  cbn [map In] in Hk. rewrite IH by tauto.
  destruct (_ && _); [| done]. rewrite lookup_insert_ne; [done | tauto].
Qed.

Lemma inject_defaults_cons submitted g fields (acc : gmap string Value) :
  inject_defaults submitted (g :: fields) acc
  = inject_defaults submitted fields
      (if absent_or_empty (submitted !! Name g)
          && negb (String.eqb (DefaultValue g) "")
       then <[Name g := VString (DefaultValue g)]> acc
       else acc).
Proof. reflexivity. Qed.

Lemma inject_defaults_lookup submitted fields (acc : gmap string Value) f :
  NoDup (map Name fields) → In f fields →
  inject_defaults submitted fields acc !! Name f
  = if absent_or_empty (submitted !! Name f)
       && negb (String.eqb (DefaultValue f) "")
    then Some (VString (DefaultValue f))
    else acc !! Name f.
Proof.
  revert acc. induction fields as [| g fields IH]; intros acc Hnodup Hf; [done |].
  cbn [map] in Hnodup. apply NoDup_cons in Hnodup as [Hfresh Hnodup].
  rewrite list_elem_of_In in Hfresh.
  rewrite inject_defaults_cons.
  destruct Hf as [-> | Hf].
  - rewrite inject_defaults_other by done.
    destruct (_ && _); [apply lookup_insert_eq | done].
  - rewrite IH by done.
    destruct (absent_or_empty (submitted !! Name f) && _); [done |].
    destruct (_ && _); [| done]. apply lookup_insert_ne.
    intros Heq. apply Hfresh. rewrite Heq. by apply in_map.
Qed.

(** On the payload left by the first pass the verdict on a field that
    passed is the verdict on its default. *)
Lemma field_verdict_after_defaults db ctID fields (data : gmap string Value) f :
  NoDup (map Name fields) → In f fields →
  field_verdict db ctID data f = None →
  field_verdict db ctID (inject_defaults data fields data) f
  = default_verdict db ctID data f.
Proof.
  intros Hnodup Hf. unfold field_verdict, default_verdict.
  rewrite (inject_defaults_lookup data fields data f Hnodup Hf).
  destruct (absent_or_empty (data !! Name f)) eqn:Hmissing; cbn [andb].
  - destruct (String.eqb_spec (DefaultValue f) "") as [Hdef | Hdef]; cbn [negb].
    + by rewrite Hmissing.
    + intros _. cbn [absent_or_empty is_empty_value default].
      by apply String.eqb_neq in Hdef as ->.
  - by rewrite Hmissing.
Qed.

(** For a content type read from the store whose rows have distinct
    names.  Both lists hold all rows, so the validation makes two passes
    over them.  The first is field by field on the payload as submitted
    (no required field missing or empty, every value present passing its
    type, constraint and uniqueness checks) and injects the default of
    every optional field submitted without a value; the second meets each
    injected default as a present value and puts it through the checks of
    its field.  The validation succeeds exactly when both pass, returns
    the payload with the defaults, and otherwise reports the first
    failure of the first pass or, if there is none, the first default
    that fails. *)
Theorem validation_of_loaded_types
    (db : DB) (contentTypeID : N) (ct : ContentType) (data : gmap string Value) :
  first_content_type db contentTypeID = Some ct →
  NoDup (map Name (Fields ct)) →
  let out := ValidateContentEntryEnhanced db ct data in
  SEOFields ct = Fields ct ∧
  (out.2 = None
   ↔ ∀ f, In f (Fields ct) →
          field_verdict db (CtID ct) data f = None
          ∧ default_verdict db (CtID ct) data f = None) ∧
  (out.2 = None → out.1 = inject_defaults data (Fields ct) data) ∧
  (∀ e, out.2 = Some e →
     ∃ before f after,
       Fields ct = (before ++ f :: after)%list ∧
       ((Forall (λ g, field_verdict db (CtID ct) data g = None) before
         ∧ field_verdict db (CtID ct) data f = Some e)
        ∨ (Forall (λ g, field_verdict db (CtID ct) data g = None) (Fields ct)
           ∧ Forall (λ g, default_verdict db (CtID ct) data g = None) before
           ∧ default_verdict db (CtID ct) data f = Some e))).
Proof.
  intros Hct Hnodup out. subst out.
  destruct (first_content_type_loaded _ _ _ Hct) as [Hrows _].
  split; [done |].
  unfold ValidateContentEntryEnhanced. rewrite Hrows, validate_fields_app.
  set (rows := Fields ct) in *. set (ctID := CtID ct).
  pose proof (validate_fields_distinct db ctID data rows data Hnodup
                (λ _ _, eq_refl)) as Hfirst.
  destruct (validate_fields db ctID rows data) as [acc [e |]]; cbn [fst snd].
  { destruct Hfirst as (before & f & after & Heq & Hbefore & Hf).
    split; [| split; [done |]].
    - split; [done |]. intros Hall.
      destruct (Hall f) as [Hpass _]; [rewrite Heq; apply in_elt | congruence].
    - intros e' [= <-]. exists before, f, after. split; [done |]. by left. }
  destruct Hfirst as [Hall ->].
  rewrite Forall_forall in Hall. setoid_rewrite list_elem_of_In in Hall.
  set (acc := inject_defaults data rows data).
  pose proof (validate_fields_distinct db ctID acc rows acc Hnodup
                (λ _ _, eq_refl)) as Hsecond.
  assert (Hverdict : ∀ f, In f rows →
            field_verdict db ctID acc f = default_verdict db ctID data f).
  { intros f Hf. apply field_verdict_after_defaults; [done | done | by apply Hall]. }
  destruct (validate_fields db ctID rows acc) as [acc' [e |]]; cbn [fst snd].
  - destruct Hsecond as (before & f & after & Heq & Hbefore & Hf).
    assert (Hin : In f rows) by (rewrite Heq; apply in_elt).
    split; [| split; [done |]].
    + split; [done |]. intros Hboth.
      destruct (Hboth f Hin) as [_ Hdefault].
      rewrite <- (Hverdict f Hin) in Hdefault. congruence.
    + intros e' [= <-]. exists before, f, after. split; [done |]. right.
      split; [| split].
      * apply Forall_forall. intros g Hg. apply Hall. by apply list_elem_of_In.
      * rewrite Forall_forall in Hbefore |- *. intros g Hg.
        rewrite <- Hverdict; [by apply Hbefore |].
        rewrite Heq. apply in_or_app. left. by apply list_elem_of_In.
      * by rewrite <- Hverdict.
  - destruct Hsecond as [Hall2 Hacc']. split; [| split; [| done]].
    + split; [| done]. intros _ f Hf. split; [by apply Hall |].
      rewrite <- (Hverdict f Hf). rewrite Forall_forall in Hall2.
      apply Hall2. by apply list_elem_of_In.
    + intros _. rewrite Hacc'. unfold inject_defaults at 1.
      assert (Hstable : ∀ fs (m : gmap string Value),
                (∀ f, In f fs →
                      absent_or_empty (acc !! Name f)
                      && negb (String.eqb (DefaultValue f) "") = false) →
                fold_left (λ (a : gmap string Value) f,
                             if absent_or_empty (acc !! Name f)
                                && negb (String.eqb (DefaultValue f) "")
                             then <[Name f := VString (DefaultValue f)]> a
                             else a) fs m = m).
      { induction fs as [| g fs IH]; intros m Hfs; cbn [fold_left]; [done |].
        rewrite (Hfs g (or_introl eq_refl)). apply IH.
        intros f Hf. apply Hfs. by right. }
      apply Hstable. intros f Hf. unfold acc.
      rewrite (inject_defaults_lookup data rows data f Hnodup Hf).
      destruct (absent_or_empty (data !! Name f)) eqn:Hmissing; cbn [andb].
      * destruct (String.eqb_spec (DefaultValue f) "") as [Hdef | Hdef];
          cbn [negb]; [by rewrite andb_false_r |].
        cbn [absent_or_empty is_empty_value].
        by apply String.eqb_neq in Hdef as ->.
      * by rewrite Hmissing.
Qed.

Lemma validate_fields_extra_key db ctID fields k v :
  (∀ f, In f fields → Name f ≠ k) →
  ∀ data,
    validate_fields db ctID fields (<[k := v]> data)
    = (<[k := v]> (validate_fields db ctID fields data).1,
       (validate_fields db ctID fields data).2).
Proof.
  intros Hk. induction fields as [| f fields IH]; intros data;
    cbn [validate_fields]; [done |].
  assert (Hf : Name f ≠ k) by (apply Hk; by left).
  assert (IH' := IH (λ g Hg, Hk g (or_intror Hg))). clear IH.
  rewrite lookup_insert_ne by done.
  destruct (absent_or_empty (data !! Name f)).
  - destruct (Required f); [done |].
    destruct (negb (String.eqb (DefaultValue f) "")); [| apply IH'].
    rewrite insert_insert_ne by done. apply IH'.
  - destruct (present_field_checks _ _ _ _); [done | apply IH'].
Qed.

(** The full validation looks only at the keys that name a field: adding
    any other key to the payload changes neither the verdict nor what
    happens to the rest of the payload, and the key is carried along
    untouched (where the partial validation would report an unknown
    field). *)
Theorem full_validation_ignores_extra_keys
    (db : DB) (ct : ContentType) (data : gmap string Value)
    (k : string) (v : Value) :
  ¬ names_field ct k →
  ValidateContentEntryEnhanced db ct (<[k := v]> data)
  = (<[k := v]> (ValidateContentEntryEnhanced db ct data).1,
     (ValidateContentEntryEnhanced db ct data).2).
Proof.
  intros Hno. unfold ValidateContentEntryEnhanced.
  apply validate_fields_extra_key. intros f Hf Hname. apply Hno. by exists f.
Qed.

Lemma live_rows_In db (e : ContentEntry) :
  In e (map_to_list (entries db)).*2 ↔ ∃ id, entries db !! id = Some e.
Proof.
  rewrite <- list_elem_of_In, list_elem_of_fmap. split.
  - intros ([id e'] & -> & Hin). exists id. by apply elem_of_map_to_list in Hin.
  - intros (id & Hid). exists (id, e). split; [done |].
    by apply elem_of_map_to_list.
Qed.

Lemma filter_length_zero {A} (p : A → bool) (l : list A) :
  (0 <? length (List.filter p l))%nat = false ↔ ∀ x, In x l → p x = false.
Proof.
  rewrite Nat.ltb_ge, Nat.le_0_r, length_zero_iff_nil. split.
  - intros Hnil x Hx. destruct (p x) eqn:Hp; [| done].
    assert (In x (List.filter p l)) as Hin by (by apply filter_In).
    by rewrite Hnil in Hin.
  - intros Hall. induction l as [| x l IH]; [done |]. cbn.
    rewrite (Hall x (or_introl eq_refl)). apply IH.
    intros y Hy. apply Hall. by right.
Qed.

(** The uniqueness check passes exactly when the store accepts the
    query and no live entry of the content type, other than the excluded
    one, holds the value under the field name: soft-deleted entries and
    entries of other content types never count, and the entry being
    updated does not collide with itself.  When the store rejects the
    query (a field name with a quote in it, a store without the
    containment operator) the check fails with its own error whatever the
    entries hold; every other failure is the duplicate-value error for
    that field. *)
Theorem uniqueness_check_scope
    (db : DB) (contentTypeID : N) (fieldName : string) (value : Value)
    (excludeEntryID : option N) :
  (checkUniqueness db contentTypeID fieldName value excludeEntryID = None
   ↔ uniqueness_query_ok fieldName value = true
     ∧ ∀ id e, entries db !! id = Some e → live e →
               ContentTypeID e = contentTypeID →
               jsonb_contains (Data e) fieldName value = true →
               excludeEntryID = Some (ID e)) ∧
  (checkUniqueness db contentTypeID fieldName value excludeEntryID
     = Some (ErrUniquenessCheck fieldName)
   ↔ uniqueness_query_ok fieldName value = false) ∧
  (∀ err, checkUniqueness db contentTypeID fieldName value excludeEntryID = Some err →
          err = ErrUniquenessCheck fieldName ∨ err = ErrDuplicate fieldName).
Proof.
  unfold checkUniqueness.
  destruct (uniqueness_query_ok fieldName value); cbn [negb];
    [| split; [split; [done | by intros [? _]] | split; [done |]];
       intros err [= <-]; by left].
  split; [| split; [| intros err; destruct (0 <? _)%nat; [| done];
                      intros [= <-]; by right]].
  2: { by destruct (0 <? _)%nat. }
  destruct (0 <? _)%nat eqn:Hcount.
  - split; [done |]. intros [_ Hall].
    apply Nat.ltb_lt in Hcount.
    destruct (List.filter _ _) as [| e rest] eqn:Hfilter; [cbn in Hcount; lia |].
    assert (Hin : In e (List.filter
               (uniqueness_match contentTypeID fieldName value excludeEntryID)
               (map_to_list (entries db)).*2)) by (rewrite Hfilter; by left).
    apply filter_In in Hin as [Hin Hmatch].
    apply live_rows_In in Hin as [id Hid].
    unfold uniqueness_match in Hmatch.
    apply andb_true_iff in Hmatch as [Hmatch Hex].
    apply andb_true_iff in Hmatch as [Hmatch Hjson].
    apply andb_true_iff in Hmatch as [Hlive Hct].
    apply N.eqb_eq in Hct.
    assert (Hex' : excludeEntryID = Some (ID e)).
    { apply (Hall id e Hid); [| done | done]. unfold live.
      by destruct (DeletedAt e). }
    rewrite Hex', N.eqb_refl in Hex. done.
  - split; [| done]. intros _. split; [done |]. intros id e Hid Hlive Hct Hjson.
    rewrite filter_length_zero in Hcount.
    specialize (Hcount e (proj2 (live_rows_In db e) (ex_intro _ id Hid))).
    unfold uniqueness_match, live in Hcount, Hlive.
    rewrite Hlive, Hct, N.eqb_refl, Hjson in Hcount. cbn [andb] in Hcount.
    destruct excludeEntryID as [x |]; [| done].
    apply negb_false_iff, N.eqb_eq in Hcount. by rewrite Hcount.
Qed.

End full_validation_facts.

(** ** Entry lifecycle: creation, updates and content types *)

Section persistence_facts.
Context {rt : Runtime}.
Import content content_admin.

(** A created entry can be read back: it sits under the next identifier,
    which no row used before, it is found by that identifier with the
    validated payload (defaults included) as its data, every other row and
    the history are as they were. *)
Theorem created_entry_round_trip
    (db : DB) (contentTypeID createdBy : N) (data : gmap string Value)
    (db' : DB) (created : ContentEntry) :
  db_wf db →
  CreateContentEntry db contentTypeID createdBy data = (db', Ok created) →
  first_entry db' (ID created) = Some created ∧
  ID created = (entrySeq db + 1)%N ∧
  entries db !! ID created = None ∧
  (∀ id, id ≠ ID created → entries db' !! id = entries db !! id) ∧
  history db' = history db ∧
  ContentTypeID created = contentTypeID ∧ CreatedBy created = createdBy ∧
  ∃ ct, first_content_type db contentTypeID = Some ct
        ∧ ValidateContentEntryEnhanced db ct data = (Data created, None).
Proof.
  intros Hwf. unfold CreateContentEntry.
  destruct (first_content_type db contentTypeID) as [ct |]; [| done].
  destruct (ValidateContentEntryEnhanced db ct data) as [data' [e |]] eqn:Hval;
    [done |].
  unfold create_entry. intros [= <- <-]. cbn [ID entries history Data
    ContentTypeID CreatedBy].
  split; [| split; [done | split; [| split; [| split; [done | split; [done
    | split; [done | by exists ct]]]]]]].
  - unfold first_entry. cbn [entries]. by rewrite lookup_insert_eq.
  - destruct (entries db !! (entrySeq db + 1)%N) as [e |] eqn:He; [| done].
    destruct (db_wf_lookup _ _ _ Hwf He) as [_ Hle]. lia.
  - intros id Hid. by rewrite lookup_insert_ne.
Qed.

Lemma validate_fields_other_keys db ctID fields k :
  (∀ f, In f fields → Name f ≠ k) →
  ∀ data : gmap string Value,
    (validate_fields db ctID fields data).1 !! k = data !! k.
Proof.
  intros Hk. induction fields as [| f fields IH]; intros data;
    cbn [validate_fields]; [done |].
  assert (Hf : Name f ≠ k) by (apply Hk; by left).
  assert (IH' := IH (λ g Hg, Hk g (or_intror Hg))). clear IH.
  destruct (absent_or_empty (data !! Name f)).
  - destruct (Required f); [done |].
    destruct (negb (String.eqb (DefaultValue f) "")); [| apply IH'].
    rewrite IH'. by rewrite lookup_insert_ne.
  - destruct (present_field_checks _ _ _ _); [done | apply IH'].
Qed.

(** The update handler merges and the update service replaces.  After a
    successful [UpdateEntryHandler] every key the permission filter let
    through has its submitted value, and every other key that does not end
    in [_media_id] (not submitted, or filtered out) has the value stored
    before.  After a successful [UpdateEntry] the stored data is the
    validated payload alone: a stored key that is neither resubmitted nor
    a field of the content type is gone. *)
Theorem update_merges_or_replaces
    (db : DB) (userID entryID : N) (data : gmap string Value)
    (entry : ContentEntry) :
  first_entry db entryID = Some entry →
  (∀ db' entry',
     UpdateEntryHandler db userID entryID data = (db', Ok entry') →
     ∃ filtered,
       middleware.FilterFieldsByPermission db userID "update" data
         (ContentTypeID entry) = Ok filtered ∧
       (∀ k v, filtered !! k = Some v → Data entry' !! k = Some v) ∧
       (∀ k, filtered !! k = None → HasSuffix k "_media_id" = false →
             Data entry' !! k = Data entry !! k) ∧
       UpdatedBy entry' = userID ∧ CreatedBy entry' = CreatedBy entry) ∧
  (∀ db' entry',
     UpdateEntry db entryID userID data = (db', Ok entry') →
     ∃ ct, first_content_type db (ContentTypeID entry) = Some ct ∧
       Data entry' = (ValidateContentEntryEnhanced db ct data).1 ∧
       (∀ k, data !! k = None → ¬ names_field ct k → Data entry' !! k = None)).
Proof.
  intros Hentry. split.
  - intros db' entry'. unfold UpdateEntryHandler. rewrite Hentry.
    destruct (String.eqb _ _); [done |].
    destruct (first_content_type db _) as [ct |]; [| done].
    destruct (size data =? 0)%nat; [done |].
    destruct (middleware.FilterFieldsByPermission _ _ _ _ _)
      as [filtered | |] eqn:Hfilter; [| done | done].
    destruct (size filtered =? 0)%nat; [done |].
    destruct (ValidatePartialUpdate _ _ _ _); [done |].
    intros [= <- <-]. exists filtered. cbn [Data UpdatedBy CreatedBy].
    split; [done |]. split; [| split; [| done]].
    + intros k v Hk. apply lookup_union_Some_l. unfold restore_media_ids.
      assert (Hdata : data !! k = Some v).
      { eapply lookup_weaken; [exact Hk |].
        by eapply FilterFieldsByPermission_subseteq. }
      destruct (filter is_media_id_entry data !! k) as [v' |] eqn:Hmedia.
      * apply lookup_union_Some_l. rewrite Hmedia.
        apply map_lookup_filter_Some in Hmedia as [Hv' _]. congruence.
      * by rewrite lookup_union_r.
    + intros k Hk Hsuffix. unfold restore_media_ids.
      rewrite lookup_union_r; [done |].
      apply lookup_union_None. split; [| done].
      apply map_lookup_filter_None. right. intros v _.
      unfold is_media_id_entry. cbn [fst]. by rewrite Hsuffix.
  - intros db' entry'. unfold UpdateEntry. rewrite Hentry.
    destruct (String.eqb _ _); [done |].
    destruct (first_content_type db _) as [ct |]; [| done].
    destruct (ValidateContentEntryEnhanced db ct data) as [data' [e |]] eqn:Hval;
      [done |].
    intros [= <- <-]. exists ct. cbn [Data]. split; [done | split; [by rewrite Hval |]].
    intros k Hk Hno.
    assert (Hother := validate_fields_other_keys db (CtID ct)
                        (Fields ct ++ SEOFields ct) k
                        (λ f Hf Hname, Hno (ex_intro _ f (conj Hf Hname))) data).
    unfold ValidateContentEntryEnhanced in Hval. rewrite Hval in Hother.
    cbn [fst] in Hother. by rewrite Hother.
Qed.

End persistence_facts.

(** ** Pagination, statistics and content types *)

Section reporting_facts.
Context {rt : Runtime}.
Import response workflow_queries content_admin.

Lemma wrap64_small z : - 2 ^ 63 <= z < 2 ^ 63 → wrap64 z = z.
Proof. intros Hz. unfold wrap64. rewrite Z.mod_small; lia. Qed.

(** [CalculateMeta] rounds up: for a positive page size and a
    non-negative total the page count is the least number of pages that
    holds all rows, so zero for no rows, and page, limit and total are
    passed through.  A page size of zero is a division by zero: the call
    panics. *)
Theorem total_pages_round_up :
  (∀ page total, CalculateMeta page 0 total = Panic) ∧
  (∀ page limit total,
     0 < limit < 2 ^ 63 → 0 <= total < 2 ^ 63 →
     ∃ meta,
       CalculateMeta page limit total = Ok meta ∧
       Page meta = page ∧ Limit meta = limit ∧ Total meta = total ∧
       TotalPages meta = (total + limit - 1) / limit ∧
       total <= TotalPages meta * limit ∧
       (TotalPages meta - 1) * limit < total ∧
       (total = 0 → TotalPages meta = 0)).
Proof.
  split; [done |].
  intros page limit total Hlimit Htotal. unfold CalculateMeta.
  destruct (Z.eqb_spec limit 0) as [-> | _]; [lia |].
  rewrite Z.quot_div_nonneg, Z.rem_mod_nonneg by lia.
  pose proof (Z.div_mod total limit ltac:(lia)) as Hdm.
  pose proof (Z.mod_pos_bound total limit ltac:(lia)) as Hmod.
  assert (Hq : 0 <= total / limit) by (apply Z.div_pos; lia).
  assert (Hq' : total / limit <= total) by (apply Z.div_le_upper_bound; nia).
  rewrite (wrap64_small (total / limit)) by lia.
  eexists. split; [reflexivity |]. cbn [Page Limit Total TotalPages].
  do 3 (split; [done |]).
  assert (Hceil : ∀ pages,
            total <= pages * limit → (pages - 1) * limit < total →
            pages = (total + limit - 1) / limit).
  { intros pages Hle Hlt.
    apply (Z.div_unique _ _ pages (total + limit - 1 - limit * pages)); lia. }
  destruct (Z.gtb_spec (total mod limit) 0) as [Hrem | Hrem].
  - rewrite wrap64_small by nia.
    assert (Hle : total <= (total / limit + 1) * limit) by nia.
    assert (Hlt : (total / limit + 1 - 1) * limit < total) by nia.
    split; [by apply Hceil |]. split; [done |]. split; [done |].
    intros ->. rewrite Z.mod_0_l in Hrem by lia. lia.
  - assert (Hle : total <= total / limit * limit) by nia.
    assert (Hlt : (total / limit - 1) * limit < total) by nia.
    split; [by apply Hceil |]. split; [done |]. split; [done |].
    intros ->. by rewrite Z.div_0_l by lia.
Qed.

Lemma status_counts_add_up (p : ContentEntry → bool) (l : list ContentEntry) :
  let count status :=
    Z.of_nat (length (List.filter
                        (λ e, p e && match status with
                                     | Some s => String.eqb (Status e) s
                                     | None => true
                                     end) l)) in
  count (Some StatusDraft) + count (Some StatusInReview)
  + count (Some StatusReadyForApproval) + count (Some StatusApproved)
  + count (Some StatusPublished) + count (Some StatusRejected)
  <= count None ∧
  ((∀ e, In e l → p e = true → known_status (Status e)) →
   count None
   = count (Some StatusDraft) + count (Some StatusInReview)
     + count (Some StatusReadyForApproval) + count (Some StatusApproved)
     + count (Some StatusPublished) + count (Some StatusRejected)).
Proof.
  intros count. subst count. cbv beta.
  unfold StatusDraft, StatusInReview, StatusReadyForApproval, StatusApproved,
    StatusPublished, StatusRejected, known_status.
  induction l as [| e l [IHle IHeq]]; [done |].
  cbn [List.filter].
  destruct (p e) eqn:Hp; cbn [andb].
  2: { split; [done |]. intros Hknown. apply IHeq.
       intros e' He'. apply Hknown. by right. }
  assert (Hcases :
    Status e = "draft" ∨ Status e = "in_review" ∨ Status e = "ready_for_approval"
    ∨ Status e = "approved" ∨ Status e = "published" ∨ Status e = "rejected"
    ∨ (Status e ≠ "draft" ∧ Status e ≠ "in_review"
       ∧ Status e ≠ "ready_for_approval" ∧ Status e ≠ "approved"
       ∧ Status e ≠ "published" ∧ Status e ≠ "rejected")).
  { destruct (String.eqb_spec (Status e) "draft"); [tauto |].
    destruct (String.eqb_spec (Status e) "in_review"); [tauto |].
    destruct (String.eqb_spec (Status e) "ready_for_approval"); [tauto |].
    destruct (String.eqb_spec (Status e) "approved"); [tauto |].
    destruct (String.eqb_spec (Status e) "published"); [tauto |].
    destruct (String.eqb_spec (Status e) "rejected"); tauto. }
  assert (IHeq' : (∀ x, In x (e :: l) → p x = true →
                        In (Status x) ["draft"; "in_review"; "ready_for_approval";
                                       "approved"; "published"; "rejected"]) →
                  ∀ x, In x l → p x = true →
                       In (Status x) ["draft"; "in_review"; "ready_for_approval";
                                      "approved"; "published"; "rejected"]).
  { intros Hknown x Hx. apply Hknown. by right. }
  destruct Hcases as [Hs | [Hs | [Hs | [Hs | [Hs | [Hs | Hs]]]]]].
  1-6: rewrite Hs; eval_literal_eqb; cbn [length]; split;
       [| intros Hknown; specialize (IHeq (IHeq' Hknown))]; lia.
  destruct Hs as (H1 & H2 & H3 & H4 & H5 & H6).
  apply String.eqb_neq in H1, H2, H3, H4, H5, H6.
  rewrite H1, H2, H3, H4, H5, H6. cbn [length]. split; [lia |].
  intros Hknown. specialize (Hknown e (or_introl eq_refl) Hp). cbn [In] in Hknown.
  unfold StatusDraft, StatusInReview, StatusReadyForApproval, StatusApproved,
    StatusPublished, StatusRejected in Hknown.
  apply String.eqb_neq in H1, H2, H3, H4, H5, H6.
  destruct Hknown as [? | [? | [? | [? | [? | [? | []]]]]]]; congruence.
Qed.

Lemma filter_length_Permutation {A} (p : A → bool) (l l' : list A) :
  l ≡ₚ l' → length (List.filter p l) = length (List.filter p l').
Proof.
  induction 1 as [| x l l' _ IH | x y l | l l' l'' _ IH1 _ IH2]; cbn [List.filter].
  - done.
  - destruct (p x); cbn [length]; by rewrite IH.
  - by destruct (p x), (p y).
  - by rewrite IH1.
Qed.

(** The count of the query is the number of rows of the table it is
    about. *)
Lemma count_entries_rows db contentTypeID status :
  count_entries db contentTypeID status = rows_counted db contentTypeID status.
Proof.
  unfold count_entries, rows_counted. f_equal.
  induction (entries db) as [| id e m Hfresh IH] using map_ind.
  - by rewrite map_filter_empty, map_to_list_empty, map_size_empty.
  - rewrite (filter_length_Permutation _ _ ((id, e) :: map_to_list m).*2)
      by (apply fmap_Permutation; by apply map_to_list_insert).
    cbn [fmap list_fmap snd List.filter].
    match goal with
    | |- context [if ?test then _ else _] => set (b := test)
    end.
    assert (Hreflect : b = true ↔ counted contentTypeID status (id, e)).
    { unfold b, counted. cbn [snd].
      rewrite !andb_true_iff, N.eqb_eq.
      destruct (DeletedAt e), status as [s |];
        rewrite ?String.eqb_eq; intuition congruence. }
    destruct (decide (counted contentTypeID status (id, e))) as [Hyes | Hno].
    + rewrite (proj2 Hreflect Hyes). cbn [length].
      rewrite map_filter_insert_True by done.
      rewrite map_size_insert_None by (by apply map_lookup_filter_None; left).
      by rewrite IH.
    + assert (Hb : b = false)
        by (apply not_true_is_false; intros Hb; by apply Hreflect in Hb).
      rewrite Hb, map_filter_insert_not' by (done || by intros ?; rewrite Hfresh).
      exact IH.
Qed.

(** [GetWorkflowStatistics] returns the seven counters.  [total] is the
    number of live entries of the content type and each of the six others
    the number of those in its status, so soft-deleted entries and
    entries of other content types are counted nowhere.  The six never
    add up to more than [total], and to exactly [total] when every live
    entry of the content type has one of the six workflow statuses. *)
Theorem statistics_add_up (db : DB) (contentTypeID : N) :
  let rows := rows_counted db contentTypeID in
  GetWorkflowStatistics db contentTypeID
  = {[ "total" := rows None;
       "draft" := rows (Some StatusDraft);
       "in_review" := rows (Some StatusInReview);
       "ready_for_approval" := rows (Some StatusReadyForApproval);
       "approved" := rows (Some StatusApproved);
       "published" := rows (Some StatusPublished);
       "rejected" := rows (Some StatusRejected) ]} ∧
  rows (Some StatusDraft) + rows (Some StatusInReview)
  + rows (Some StatusReadyForApproval) + rows (Some StatusApproved)
  + rows (Some StatusPublished) + rows (Some StatusRejected) <= rows None ∧
  ((∀ id e, entries db !! id = Some e → live e →
            ContentTypeID e = contentTypeID → known_status (Status e)) →
   rows None
   = rows (Some StatusDraft) + rows (Some StatusInReview)
     + rows (Some StatusReadyForApproval) + rows (Some StatusApproved)
     + rows (Some StatusPublished) + rows (Some StatusRejected)).
Proof.
  intros rows. subst rows. cbv beta. split.
  { unfold GetWorkflowStatistics. rewrite !count_entries_rows.
    apply map_eq. intros k.
    repeat (rewrite !lookup_insert; case_decide; [done |]). reflexivity. }
  rewrite <- !count_entries_rows. unfold count_entries.
  pose proof (status_counts_add_up
                (λ e, match DeletedAt e with None => true | Some _ => false end
                      && N.eqb (ContentTypeID e) contentTypeID)
                (map_to_list (entries db)).*2) as [Hle Heq].
  split; [exact Hle |].
  intros Hknown. apply Heq. intros e He Hp.
  apply live_rows_In in He as [id Hid].
  apply andb_true_iff in Hp as [Hlive Hct]. apply N.eqb_eq in Hct.
  apply (Hknown id e Hid); [| done]. unfold live. by destruct (DeletedAt e).
Qed.

Lemma entryCount_zero db id :
  (0 <? entryCount db id)%nat = false
  ↔ ∀ i e, entries db !! i = Some e → live e → ContentTypeID e ≠ id.
Proof.
  unfold entryCount. rewrite filter_length_zero. split.
  - intros Hall i e Hi Hlive Hct.
    specialize (Hall e (proj2 (live_rows_In db e) (ex_intro _ i Hi))).
    unfold live in Hlive. by rewrite Hlive, Hct, N.eqb_refl in Hall.
  - intros Hall e He. apply live_rows_In in He as [i Hi].
    destruct (DeletedAt e) eqn:Hdel; [done |]. cbn [andb].
    apply N.eqb_neq. by apply (Hall i e).
Qed.

Lemma apply_admin_op_wf db op : db_wf db → db_wf (apply_admin_op db op).
Proof.
  intros Hwf. destruct op as [op | id]; cbn [apply_admin_op].
  - by apply (apply_ops_wf _ [op]).
  - unfold DeleteContentTypeHandler.
    destruct (0 <? entryCount db id)%nat; [done |].
    by destruct (first_content_type db id).
Qed.

(** A content type with live entries cannot be deleted: the handler
    answers with a conflict and changes nothing.  Consequently, along any
    sequence of entry operations and content-type deletions, every live
    entry keeps a content type that can be found. *)
Theorem content_types_outlive_their_entries (db : DB) :
  db_wf db →
  (∀ id i e, entries db !! i = Some e → live e → ContentTypeID e = id →
     DeleteContentTypeHandler db id = (db, Conflict409)) ∧
  (entries_typed db →
   ∀ ops, entries_typed (fold_left apply_admin_op ops db)).
Proof.
  intros Hwf. split.
  - intros id i e Hi Hlive Hct. unfold DeleteContentTypeHandler.
    destruct (0 <? entryCount db id)%nat eqn:Hcount; [done |].
    rewrite entryCount_zero in Hcount. by destruct (Hcount i e Hi Hlive).
  - intros Htyped ops. revert db Hwf Htyped.
    induction ops as [| op ops IH]; intros db Hwf Htyped; [done |].
    cbn [fold_left]. apply IH; [by apply apply_admin_op_wf |].
    destruct op as [op | id]; cbn [apply_admin_op].
    + destruct (apply_op_step db op Hwf)
        as [-> | [(old & new & Hold & _ & _ & Hcts & _ & Hent & Hch)
                 | (new & _ & _ & _ & _ & Hct & _ & Hcts & _ & Hent & _)]];
        [done | |]; intros i e; rewrite Hent, Hcts, lookup_insert;
        case_decide; try apply Htyped; intros [= <-].
      * apply first_entry_Some in Hold as [Hold Hlive]. intros _.
        assert (HctID : ContentTypeID new = ContentTypeID old)
          by by destruct Hch as [???? _ -> _ | ?? -> _ | ? -> _].
        rewrite HctID. by apply (Htyped _ _ Hold).
      * done.
    + unfold DeleteContentTypeHandler.
      destruct (0 <? entryCount db id)%nat eqn:Hcount; [done |].
      destruct (first_content_type db id); [| done].
      rewrite entryCount_zero in Hcount.
      intros i e Hi Hlive. cbn [entries contentTypes fst] in Hi |- *.
      rewrite lookup_delete_ne; [by apply (Htyped i e) |].
      intros Heq. by apply (Hcount i e Hi Hlive).
Qed.

End reporting_facts.

(** ** Comments and assignments *)

Section side_table_facts.
Import workflow_queries.

Lemma newest_first_elem_of {A} (createdAt : A → N) (rows : list A) (x : A) :
  x ∈ newest_first createdAt rows ↔ x ∈ rows.
Proof. unfold newest_first. by rewrite merge_sort_Permutation. Qed.

Lemma newest_first_sorted {A} (createdAt : A → N) (rows : list A) :
  Sorted (not_older createdAt) (newest_first createdAt rows).
Proof.
  assert (Total (not_older createdAt)).
  { intros a b. unfold not_older. lia. }
  apply Sorted_merge_sort. apply _.
Qed.

(** Private comments are hidden unless asked for.  The public listing of
    an entry holds its non-private comments and nothing else, the full
    listing holds all its comments, both newest first; adding a private
    comment changes no public listing; and the handler refuses an empty
    comment without writing. *)
Theorem private_comments_stay_hidden (tables : SideTables) :
  (∀ entryID c,
     c ∈ GetWorkflowComments tables entryID false
     ↔ c ∈ comments tables ∧ WorkflowComment.EntryID c = entryID
       ∧ WorkflowComment.IsPrivate c = false) ∧
  (∀ entryID c,
     c ∈ GetWorkflowComments tables entryID true
     ↔ c ∈ comments tables ∧ WorkflowComment.EntryID c = entryID) ∧
  (∀ entryID includePrivate,
     Sorted (not_older WorkflowComment.CreatedAt)
            (GetWorkflowComments tables entryID includePrivate)) ∧
  (∀ now entryID userID text other,
     GetWorkflowComments (AddWorkflowComment tables now entryID userID text true).1
                         other false
     = GetWorkflowComments tables other false) ∧
  (∀ now entryID userID text isPrivate,
     text ≠ "" →
     (AddWorkflowComment tables now entryID userID text isPrivate).2
       ∈ GetWorkflowComments
           (AddCommentHandler tables now entryID userID text isPrivate).1
           entryID true) ∧
  (∀ now entryID userID isPrivate,
     AddCommentHandler tables now entryID userID "" isPrivate
     = (tables, response.ValidationError422)).
Proof.
  split; [| split; [| split; [| split; [| split]]]].
  - intros entryID c. unfold GetWorkflowComments. cbn [negb].
    rewrite newest_first_elem_of, !list_elem_of_In, !filter_In, N.eqb_eq,
      negb_true_iff. tauto.
  - intros entryID c. unfold GetWorkflowComments. cbn [negb].
    rewrite newest_first_elem_of, !list_elem_of_In, !filter_In, N.eqb_eq. tauto.
  - intros. apply newest_first_sorted.
  - intros. unfold GetWorkflowComments, AddWorkflowComment. cbn [fst comments negb].
    rewrite !List.filter_app. cbn. destruct (N.eqb entryID other); cbn;
      by rewrite !app_nil_r.
  - intros now entryID userID text isPrivate Htext.
    unfold AddCommentHandler. apply String.eqb_neq in Htext. rewrite Htext.
    unfold GetWorkflowComments, AddWorkflowComment. cbn [fst snd comments negb].
    rewrite newest_first_elem_of, list_elem_of_In, filter_In. split.
    + apply in_or_app. right. by left.
    + cbn. apply N.eqb_refl.
  - done.
Qed.

Lemma complete_row_completed id a :
  WorkflowAssignment.Status a = "completed" → complete_row id a = a.
Proof.
  intros Hst. unfold complete_row. destruct (N.eqb _ _); [| done].
  destruct a. cbn in Hst |- *. by rewrite Hst.
Qed.

(** The life of an assignment.  [AssignEntry] adds a pending row, which
    the assignee then finds among the pending ones; [CompleteAssignment]
    marks the rows with that id completed and touches no other row, so
    completing twice, or completing an id that does not exist, changes
    nothing further and reports no error; and no sequence of assignment
    and comment operations ever takes a completed row back. *)
Theorem assignment_lifecycle (tables : SideTables) :
  (∀ now entryID assignedTo assignedBy dueDate,
     let out := AssignEntry tables now entryID assignedTo assignedBy dueDate in
     WorkflowAssignment.Status out.2 = "pending" ∧
     out.2 ∈ GetMyAssignments out.1 assignedTo "pending" ∧
     out.2 ∈ GetMyAssignments out.1 assignedTo "" ∧
     out.2 ∉ GetMyAssignments out.1 assignedTo "completed") ∧
  (∀ id,
     (∀ a, a ∈ assignments (CompleteAssignment tables id) →
           WorkflowAssignment.ID a = id →
           WorkflowAssignment.Status a = "completed") ∧
     CompleteAssignment (CompleteAssignment tables id) id
     = CompleteAssignment tables id ∧
     ((∀ a, a ∈ assignments tables → WorkflowAssignment.ID a ≠ id) →
      CompleteAssignment tables id = tables)) ∧
  (∀ ops a,
     a ∈ assignments tables → WorkflowAssignment.Status a = "completed" →
     a ∈ assignments (fold_left apply_assignment_op ops tables)).
Proof.
  split; [| split].
  - intros now entryID assignedTo assignedBy dueDate out. subst out.
    unfold AssignEntry, GetMyAssignments. cbn [fst snd assignments].
    eval_literal_eqb. cbn [negb].
    rewrite !newest_first_elem_of, !list_elem_of_In, !filter_In.
    cbn [WorkflowAssignment.Status WorkflowAssignment.AssignedTo].
    eval_literal_eqb. rewrite N.eqb_refl.
    assert (Hin : ∀ a : WorkflowAssignment.t, In a (assignments tables ++ [a])).
    { intros a. apply in_or_app. right. by left. }
    split; [done |]. split; [| split].
    + by split; [split |].
    + by split.
    + by intros [_ ?].
  - intros id. split; [| split].
    + intros a Ha Hid. unfold CompleteAssignment in Ha. cbn [assignments] in Ha.
      apply list_elem_of_fmap in Ha as (a0 & -> & _).
      unfold complete_row in Hid |- *.
      destruct (N.eqb (WorkflowAssignment.ID a0) id) eqn:Heq; [done |].
      apply N.eqb_neq in Heq. done.
    + unfold CompleteAssignment. cbn [assignments comments commentSeq assignmentSeq].
      f_equal. rewrite map_map. apply map_ext. intros a.
      unfold complete_row.
      destruct (N.eqb (WorkflowAssignment.ID a) id) eqn:Heq;
        cbn [WorkflowAssignment.ID]; by rewrite Heq.
    + intros Hno. unfold CompleteAssignment. destruct tables as [cs cseq asg aseq].
      cbn in Hno |- *. f_equal.
      induction asg as [| a asg IH]; [done |]. cbn [map]. f_equal.
      * unfold complete_row.
        destruct (N.eqb_spec (WorkflowAssignment.ID a) id) as [Heq | _]; [| done].
        destruct (Hno a); [by left | done].
      * apply IH. intros a' Ha'. apply Hno. by right.
  - intros ops. revert tables.
    induction ops as [| op ops IH]; intros tables a Ha Hst; [done |].
    cbn [fold_left]. apply IH; [| done].
    destruct op; cbn [apply_assignment_op].
    + unfold AssignEntry. cbn [fst assignments].
      apply list_elem_of_In, in_or_app. left. by apply list_elem_of_In.
    + unfold CompleteAssignment. cbn [assignments].
      apply list_elem_of_fmap. exists a. split; [| done].
      by rewrite complete_row_completed.
    + unfold AddCommentHandler, AddWorkflowComment.
      by destruct (String.eqb comment "").
Qed.

End side_table_facts.

(** ** The properties on the sample data *)

Section sample_runs.
#[local] Existing Instance sample.runtime.
Import workflow content content_admin workflow_queries.

Lemma sample_statuses_known : statuses_known sample.db.
Proof.
  unfold statuses_known, known_status.
  apply (map_Forall_to_list (λ _ e, In (Status e) _)). vm_compute.
  repeat (apply Forall_cons; split; [tauto |]). apply Forall_nil_2.
Qed.

Lemma sample_published_stamped : published_stamped sample.db.
Proof.
  unfold published_stamped.
  apply (map_Forall_to_list
           (λ _ e, Status e = StatusPublished → is_Some (PublishedAt e))).
  vm_compute.
  repeat (apply Forall_cons; split; [first [discriminate | eauto] |]).
  apply Forall_nil_2.
Qed.

Lemma sample_entries_typed : entries_typed sample.db.
Proof.
  unfold entries_typed.
  apply (map_Forall_to_list
           (λ _ e, live e → is_Some (contentTypes sample.db !! ContentTypeID e))).
  vm_compute. repeat (apply Forall_cons; split; [eauto |]). apply Forall_nil_2.
Qed.

Lemma audited_db_wf : db_wf audited.db.
Proof. exact sample_db_wf. Qed.

Lemma audited_status_tracks_history : status_tracks_history audited.db.
Proof.
  unfold status_tracks_history.
  apply (map_Forall_to_list
           (λ id e, Status e = StatusDraft
                    ∨ ∃ h, head (GetWorkflowHistory audited.db id) = Some h
                           ∧ ToStatus h = Status e)).
  vm_compute.
  repeat (apply Forall_cons; split;
          [first [by left | right; eexists; by split] |]).
  apply Forall_nil_2.
Qed.

Lemma published_and_deleted_rows_are_frozen_witness :
  entries (fold_left apply_op
             [OpUpdateEntry 3 1 {["title" := VString "changed"]};
              OpDeleteEntryHandler 70 3;
              OpChangeWorkflowStatus 80 3 3 "draft" ""] sample.db) !! 3%N
  = Some (sample.entry 3 1 {["title" := VString "third"]} "published" (Some 40%N)).
Proof.
  apply (published_and_deleted_rows_are_frozen sample.db _ 3 _ sample_db_wf);
    [vm_compute; reflexivity | left; reflexivity].
Defined.

Lemma statuses_stay_known_witness :
  statuses_known
    (fold_left apply_op
       [OpChangeWorkflowStatus 60 1 1 "archived" ""; OpRequestReview 61 1 1 ""]
       sample.db).
Proof.
  apply (statuses_stay_known sample.db _ sample_db_wf sample_statuses_known).
Defined.

Lemma published_entries_are_stamped_witness :
  published_stamped
    (fold_left apply_op
       [OpPublishEntry 60 2 2 ""; OpChangeWorkflowStatus 61 1 3 "published" ""]
       sample.db).
Proof.
  apply (published_entries_are_stamped sample.db _ sample_db_wf
           sample_published_stamped).
Defined.

Lemma history_is_append_only_witness :
  ∃ added,
    history (fold_left apply_op
               [OpPublishEntry 60 2 2 "";
                OpUpdateEntry 1 1 {["title" := VString "changed"]};
                OpRequestReview 61 1 1 ""] audited.db)
    = (history audited.db ++ added)%list ∧
    (length added <= 3)%nat ∧
    Forall (λ h, ∃ role, in_table (FromStatus h) (ToStatus h) role) added.
Proof.
  apply (history_is_append_only audited.db
           [OpPublishEntry 60 2 2 "";
            OpUpdateEntry 1 1 {["title" := VString "changed"]};
            OpRequestReview 61 1 1 ""] audited_db_wf).
Defined.

Lemma status_follows_newest_history_row_witness :
  status_tracks_history
    (fold_left apply_op
       [OpPublishEntry 60 2 2 "";
        OpUpdateEntry 1 1 {["title" := VString "changed"]};
        OpRequestReview 61 1 1 ""] audited.db).
Proof.
  apply (status_follows_newest_history_row audited.db _ audited_db_wf
           audited_status_tracks_history).
Defined.

Lemma history_query_after_transition_witness :
  let out := ChangeWorkflowStatus audited.db 60 2 2 "published" "go live" in
  match out.2 with
  | Ok entry' =>
    (∃ h, GetWorkflowHistory out.1 2 = h :: GetWorkflowHistory audited.db 2
          ∧ ToStatus h = Status entry' ∧ ChangedBy h = 2%N
          ∧ Comment h = "go live"
          ∧ Some (FromStatus h) = Status <$> first_entry audited.db 2) ∧
    (∀ other, other ≠ 2%N →
              GetWorkflowHistory out.1 other = GetWorkflowHistory audited.db other)
  | _ => ∀ id, GetWorkflowHistory out.1 id = GetWorkflowHistory audited.db id
  end.
Proof.
  apply (history_query_after_transition audited.db 60 2 2 "published" "go live"
           audited_db_wf).
Defined.

Lemma failed_operations_write_nothing_witness :
  apply_op sample.db (OpChangeWorkflowStatus 60 1 2 "approved" "") = sample.db.
Proof.
  apply (failed_operations_write_nothing sample.db); vm_compute; reflexivity.
Defined.

Lemma validation_of_loaded_types_witness :
  let out := ValidateContentEntryEnhanced sample.db (preload_fields sample.counter) ∅ in
  SEOFields (preload_fields sample.counter) = Fields (preload_fields sample.counter) ∧
  (out.2 = None
   ↔ ∀ f, In f (Fields (preload_fields sample.counter)) →
          field_verdict sample.db 2 ∅ f = None
          ∧ default_verdict sample.db 2 ∅ f = None) ∧
  (out.2 = None →
   out.1 = inject_defaults ∅ (Fields (preload_fields sample.counter)) ∅) ∧
  (∀ e, out.2 = Some e →
     ∃ before f after,
       Fields (preload_fields sample.counter) = (before ++ f :: after)%list ∧
       ((Forall (λ g, field_verdict sample.db 2 ∅ g = None) before
         ∧ field_verdict sample.db 2 ∅ f = Some e)
        ∨ (Forall (λ g, field_verdict sample.db 2 ∅ g = None)
                  (Fields (preload_fields sample.counter))
           ∧ Forall (λ g, default_verdict sample.db 2 ∅ g = None) before
           ∧ default_verdict sample.db 2 ∅ f = Some e))).
Proof.
  apply (validation_of_loaded_types sample.db 2 (preload_fields sample.counter) ∅).
  - vm_compute. reflexivity.
  - apply (bool_decide_unpack _). vm_compute. exact I.
Defined.

Lemma full_validation_ignores_extra_keys_witness :
  ValidateContentEntryEnhanced sample.db sample.page
    (<["colour" := VString "red"]> {["title" := VString "home"]})
  = (<["colour" := VString "red"]>
       (ValidateContentEntryEnhanced sample.db sample.page
          {["title" := VString "home"]}).1,
     (ValidateContentEntryEnhanced sample.db sample.page
        {["title" := VString "home"]}).2).
Proof.
  apply (full_validation_ignores_extra_keys sample.db sample.page).
  intros (f & Hf & Hname). cbn in Hf.
  destruct Hf as [<- | [<- | []]]; discriminate.
Defined.

Lemma created_entry_round_trip_witness :
  let out := CreateContentEntry sample.db 3 1 {["title" := VString "home"]} in
  ∃ created,
    out.2 = Ok created ∧
    first_entry out.1 (ID created) = Some created ∧
    ID created = (entrySeq sample.db + 1)%N ∧
    entries sample.db !! ID created = None ∧
    (∀ id, id ≠ ID created → entries out.1 !! id = entries sample.db !! id) ∧
    history out.1 = history sample.db ∧
    ContentTypeID created = 3%N ∧ CreatedBy created = 1%N ∧
    ∃ ct, first_content_type sample.db 3 = Some ct
          ∧ ValidateContentEntryEnhanced sample.db ct {["title" := VString "home"]}
            = (Data created, None).
Proof.
  intros out.
  destruct out as [db' [created | e |]] eqn:Hout;
    [| vm_compute in Hout; discriminate Hout ..].
  exists created. split; [reflexivity |].
  apply (created_entry_round_trip sample.db 3 1 {["title" := VString "home"]}
           db' created sample_db_wf Hout).
Defined.

Lemma update_merges_or_replaces_witness :
  (∀ db' entry',
     UpdateEntryHandler sample.db 1 1 {["title" := VString "changed"]}
     = (db', Ok entry') →
     ∃ filtered,
       middleware.FilterFieldsByPermission sample.db 1 "update"
         {["title" := VString "changed"]} 1 = Ok filtered ∧
       (∀ k v, filtered !! k = Some v → Data entry' !! k = Some v) ∧
       (∀ k, filtered !! k = None → HasSuffix k "_media_id" = false →
             Data entry' !! k = Some (VString "first") ∧ k = "title"
             ∨ Data entry' !! k = None) ∧
       UpdatedBy entry' = 1%N ∧ CreatedBy entry' = 1%N) ∧
  (∀ db' entry',
     UpdateEntry sample.db 1 1 {["title" := VString "changed"]} = (db', Ok entry') →
     ∃ ct, first_content_type sample.db 1 = Some ct ∧
       Data entry' = (ValidateContentEntryEnhanced sample.db ct
                        {["title" := VString "changed"]}).1 ∧
       (∀ k, ({["title" := VString "changed"]} : gmap string Value) !! k = None →
             ¬ names_field ct k → Data entry' !! k = None)).
Proof.
  assert (Hentry : first_entry sample.db 1
                   = Some (sample.entry 1 1 {["title" := VString "first"]}
                                        "draft" None))
    by (vm_compute; reflexivity).
  pose proof (update_merges_or_replaces sample.db 1 1
                {["title" := VString "changed"]} _ Hentry) as [Hmerge Hreplace].
  split; [| exact Hreplace].
  intros db' entry' Hrun.
  destruct (Hmerge db' entry' Hrun) as (filtered & Hf & Hkept & Hrest & Hby).
  exists filtered. split; [exact Hf |]. split; [exact Hkept |].
  split; [| exact Hby].
  intros k Hk Hsuffix. rewrite (Hrest k Hk Hsuffix). cbn [Data sample.entry].
  destruct (decide (k = "title")) as [-> | Hne].
  - left. split; [apply lookup_singleton_eq | reflexivity].
  - right. by apply lookup_singleton_ne.
Defined.

Lemma content_types_outlive_their_entries_witness :
  (∀ id i e, entries sample.db !! i = Some e → live e → ContentTypeID e = id →
     DeleteContentTypeHandler sample.db id = (sample.db, response.Conflict409)) ∧
  (entries_typed sample.db →
   ∀ ops, entries_typed (fold_left apply_admin_op ops sample.db)).
Proof.
  apply (content_types_outlive_their_entries sample.db sample_db_wf).
Defined.

End sample_runs.
